(** * VlessLinker: a shallow embedding of [vlesslinker.py]

    The program converts between [vless://] URIs, [vpn://] containers and
    Xray-style JSON configurations.  This development embeds its three
    conversion functions, [decode_vpn_url], [from_vless_url] and
    [to_vless_url] (with its helper [get_vless_name]), together with the parts
    of the Python standard library they call, and proves properties of them.

    Conventions.
    - A Python [str] is a list of Unicode code points ([N]); a [bytes] object
      is a list of octets ([N] below 256).
    - A call that may raise returns an [outcome]: a value, a raised exception,
      or [Unmodelled] where the development does not describe the
      interpreter's behaviour (floating-point conversion and formatting,
      Unicode tables outside Latin-1, IP-literal validation, recursion
      limits).  No theorem draws a conclusion from [Unmodelled].
    - Console interaction ([input], [print]) is explicit state passing over a
      [console].
    - The standard library is modelled as in CPython 3.11. *)

From Stdlib Require Import List NArith ZArith Ascii String Bool Lia PrimFloat.
Import ListNotations.

Set Warnings "-register-all".
Local Open Scope N_scope.

(* ================================================================= *)
(** ** Python values shared by all components *)

Module Py.

Definition str := list N.
Definition bytes := list N.

(** Code point of an ASCII character, and the [str] of an ASCII literal. *)
Definition ch (a : ascii) : N := N_of_ascii a.
Definition lit (s : string) : str := map N_of_ascii (list_ascii_of_string s).

Fixpoint str_eqb (a b : str) : bool :=
  match a, b with
  | [], [] => true
  | x :: a', y :: b' => (x =? y) && str_eqb a' b'
  | _, _ => false
  end.

(** Exception classes that the program or the library functions it calls can
    raise.  [BinasciiError], [JSONDecodeError] and [UnicodeDecodeError] are
    subclasses of [ValueError]; [KeyboardInterrupt] and [SystemExit] derive
    from [BaseException] only. *)
Inductive exn_class : Type :=
  | ValueError | BinasciiError | JSONDecodeError | UnicodeDecodeError
  | ZlibError | TypeError | KeyError | IndexError | AttributeError
  | EOFError | KeyboardInterrupt | SystemExit.

(** The text of an exception.  Messages written in the program are kept
    verbatim ([Text]); an f-string that formats a caught exception keeps the
    literal prefix and the cause ([Fmt]); the [repr] of a missing key is
    [Repr]; the wording of a message composed inside the standard library is
    not reproduced, only identified ([Lib]). *)
Inductive exn : Type :=
  | Exn (c : exn_class) (m : message)
with message : Type :=
  | Text (s : str)
  | Repr (s : str)
  | Lib (what : string)
  | Fmt (prefix : str) (cause : exn).

Definition class_of (e : exn) : exn_class := let 'Exn c _ := e in c.

Definition is_ValueError (c : exn_class) : bool :=
  match c with
  | ValueError | BinasciiError | JSONDecodeError | UnicodeDecodeError => true
  | _ => false
  end.

Definition is_Exception (c : exn_class) : bool :=
  match c with
  | KeyboardInterrupt | SystemExit => false
  | _ => true
  end.

Inductive outcome (A : Type) : Type :=
  | Ok (a : A)
  | Raise (e : exn)
  | Unmodelled (why : string).
Arguments Ok {A} a.
Arguments Raise {A} e.
Arguments Unmodelled {A} why.

Definition bind {A B} (m : outcome A) (k : A -> outcome B) : outcome B :=
  match m with
  | Ok a => k a
  | Raise e => Raise e
  | Unmodelled w => Unmodelled w
  end.

(** [try: body except <classes> as e: handler e]. *)
Definition try_except {A} (body : outcome A) (catches : exn_class -> bool)
    (handler : exn -> outcome A) : outcome A :=
  match body with
  | Raise e => if catches (class_of e) then handler e else Raise e
  | _ => body
  end.

Definition map_ok {A B} (f : A -> B) (m : outcome A) : outcome B :=
  bind m (fun a => Ok (f a)).

(** What [json.loads] produces: [dict] (insertion-ordered, keyed by [str]),
    [list], [str], [int], [float], [bool] and [None].  A dictionary is an
    association list read by its first matching entry. *)
Inductive json : Type :=
  | JNull
  | JBool (b : bool)
  | JInt (z : Z)
  | JFloat (f : float)
  | JStr (s : str)
  | JList (l : list json)
  | JDict (d : list (str * json)).

Fixpoint dict_lookup {V} (k : str) (d : list (str * V)) : option V :=
  match d with
  | [] => None
  | (k', v) :: d' => if str_eqb k' k then Some v else dict_lookup k d'
  end.

(** [d[k] = v] on a dict: replace in place when the key exists, else append. *)
Fixpoint dict_set {V} (k : str) (v : V) (d : list (str * V)) : list (str * V) :=
  match d with
  | [] => [(k, v)]
  | (k', v') :: d' =>
      if str_eqb k' k then (k', v) :: d' else (k', v') :: dict_set k v d'
  end.

End Py.
Export Py.

Declare Scope py_scope.
Delimit Scope py_scope with py.
Notation "x <- m ;; k" := (bind m (fun x => k))
  (at level 61, m at next level, right associativity) : py_scope.
Local Open Scope py_scope.

(* ================================================================= *)
(** ** [str] methods *)

Module Str.

Definition contains (c : N) (s : str) : bool := existsb (N.eqb c) s.

Fixpoint startswith (p s : str) : bool :=
  match p, s with
  | [], _ => true
  | a :: p', b :: s' => (a =? b) && startswith p' s'
  | _ :: _, [] => false
  end.

(** [s.partition(c)] when [c] occurs: the text before and after its first
    occurrence; [None] when it does not occur (Python returns [(s, '', '')]). *)
Fixpoint partition (c : N) (s : str) : option (str * str) :=
  match s with
  | [] => None
  | x :: t =>
      if x =? c then Some ([], t)
      else match partition c t with
           | Some (b, a) => Some (x :: b, a)
           | None => None
           end
  end.

(** [s.rpartition(c)], around the last occurrence. *)
Definition rpartition (c : N) (s : str) : option (str * str) :=
  match partition c (rev s) with
  | Some (b, a) => Some (rev a, rev b)
  | None => None
  end.

(** [s.split(c)]. *)
Fixpoint split (c : N) (s : str) : list str :=
  match s with
  | [] => [[]]
  | x :: t =>
      if x =? c then [] :: split c t
      else match split c t with
           | w :: ws => (x :: w) :: ws
           | [] => [[x]]
           end
  end.

(** [s.replace(c, d)] for single characters, and removal of a character. *)
Definition remove (c : N) (s : str) : str := filter (fun x => negb (x =? c)) s.
Definition replace (c d : N) (s : str) : str :=
  map (fun x => if x =? c then d else x) s.

Fixpoint lstrip_with (p : N -> bool) (s : str) : str :=
  match s with
  | x :: t => if p x then lstrip_with p t else s
  | [] => []
  end.

Definition rstrip_with (p : N -> bool) (s : str) : str :=
  rev (lstrip_with p (rev s)).

(** Characters [str.strip()] removes: those for which [str.isspace] holds. *)
Definition isspace (c : N) : bool :=
  ((9 <=? c) && (c <=? 13)) || ((28 <=? c) && (c <=? 32))
  || (c =? 133) || (c =? 160) || (c =? 5760)
  || ((8192 <=? c) && (c <=? 8202))
  || (c =? 8232) || (c =? 8233) || (c =? 8239) || (c =? 8287) || (c =? 12288).

Definition strip (s : str) : str := rstrip_with isspace (lstrip_with isspace s).

Definition is_ascii_digit (c : N) : bool := (48 <=? c) && (c <=? 57).
Definition is_ascii_upper (c : N) : bool := (65 <=? c) && (c <=? 90).
Definition is_ascii_lower (c : N) : bool := (97 <=? c) && (c <=? 122).
Definition is_ascii_alpha (c : N) : bool := is_ascii_upper c || is_ascii_lower c.
Definition isascii (s : str) : bool := forallb (fun c => c <? 128) s.

(** [str.lower] on code points below 256 (ASCII and Latin-1 capitals). *)
Definition lower_char (c : N) : N :=
  if is_ascii_upper c then c + 32
  else if (192 <=? c) && (c <=? 222) && negb (c =? 215) then c + 32
  else c.
Definition lower (s : str) : str := map lower_char s.

(** Decimal reading of a run of ASCII digits, as [int(s)] does. *)
Definition digits_value (s : str) : Z :=
  fold_left (fun acc c => (10 * acc + Z.of_N (c - 48))%Z) s 0%Z.

(** [str(n)] for an [int]. *)
Fixpoint dec_digits (fuel : nat) (n : N) (acc : str) : str :=
  match fuel with
  | O => acc
  | S fuel' =>
      let acc' := (48 + n mod 10) :: acc in
      if n <? 10 then acc' else dec_digits fuel' (n / 10) acc'
  end.
Definition str_of_N (n : N) : str := dec_digits (S (N.to_nat (N.log2 n))) n [].
Definition str_of_Z (z : Z) : str :=
  match z with
  | Zneg p => ch "-" :: str_of_N (Npos p)
  | _ => str_of_N (Z.to_N z)
  end.

End Str.

(* ================================================================= *)
(** ** [base64.urlsafe_b64decode] *)

Module Base64.

(** Value of a character of the standard alphabet ([A-Za-z0-9+/]). *)
Definition table_a2b (c : N) : option N :=
  if Str.is_ascii_upper c then Some (c - 65)
  else if Str.is_ascii_lower c then Some (c - 97 + 26)
  else if Str.is_ascii_digit c then Some (c - 48 + 52)
  else if c =? ch "+" then Some 62
  else if c =? ch "/" then Some 63
  else None.

(** [binascii.a2b_base64] without strict mode.  [quad_pos] counts the data
    characters of the current group of four, [leftchar] holds the bits not
    yet written, [pads] the padding characters seen since the last data
    character.  Characters outside the alphabet are skipped; a padding
    sequence that completes a group ends the decoding. *)
Fixpoint a2b_loop (data : bytes) (quad_pos leftchar pads : N) : outcome bytes :=
  match data with
  | [] =>
      if quad_pos =? 0 then Ok []
      else if quad_pos =? 1 then
        Raise (Exn BinasciiError
                 (Lib "number of data characters cannot be 1 more than a multiple of 4"))
      else Raise (Exn BinasciiError (Text (lit "Incorrect padding")))
  | c :: rest =>
      if c =? ch "=" then
        if 2 <=? quad_pos then
          if 4 <=? quad_pos + (pads + 1) then Ok []
          else a2b_loop rest quad_pos leftchar (pads + 1)
        else a2b_loop rest quad_pos leftchar pads
      else
        match table_a2b c with
        | None => a2b_loop rest quad_pos leftchar pads
        | Some v =>
            if quad_pos =? 0 then a2b_loop rest 1 v 0
            else if quad_pos =? 1 then
              map_ok (cons (N.lor (N.shiftl leftchar 2 mod 256) (N.shiftr v 4)))
                     (a2b_loop rest 2 (N.land v 15) 0)
            else if quad_pos =? 2 then
              map_ok (cons (N.lor (N.shiftl leftchar 4 mod 256) (N.shiftr v 2)))
                     (a2b_loop rest 3 (N.land v 3) 0)
            else
              map_ok (cons (N.lor (N.shiftl leftchar 6 mod 256) v))
                     (a2b_loop rest 0 0 0)
        end
  end.

Definition a2b_base64 (data : bytes) : outcome bytes := a2b_loop data 0 0 0.

(** [s.translate(_urlsafe_decode_translation)]: [-] becomes [+], [_] becomes [/]. *)
Definition urlsafe_translate (c : N) : N :=
  if c =? ch "-" then ch "+" else if c =? ch "_" then ch "/" else c.

(** [base64.urlsafe_b64decode(s)] for a [str] argument: the text must be
    ASCII ([s.encode('ascii')]). *)
Definition urlsafe_b64decode (s : str) : outcome bytes :=
  if Str.isascii s then a2b_base64 (map urlsafe_translate s)
  else Raise (Exn ValueError
                (Text (lit "string argument should contain only ASCII characters"))).

(** The encoder of RFC 4648, section 5 (URL-safe alphabet, [=] padding).  The
    program only decodes; the encoder states what a well-formed payload is. *)
Definition urlsafe_char (v : N) : N :=
  if v <? 26 then 65 + v
  else if v <? 52 then 97 + (v - 26)
  else if v <? 62 then 48 + (v - 52)
  else if v =? 62 then ch "-"
  else ch "_".

Fixpoint urlsafe_b64encode (b : bytes) : str :=
  match b with
  | [] => []
  | [b1] =>
      [urlsafe_char (b1 / 4); urlsafe_char ((b1 mod 4) * 16); ch "="; ch "="]
  | [b1; b2] =>
      [urlsafe_char (b1 / 4); urlsafe_char ((b1 mod 4) * 16 + b2 / 16);
       urlsafe_char ((b2 mod 16) * 4); ch "="]
  | b1 :: b2 :: b3 :: rest =>
      urlsafe_char (b1 / 4) :: urlsafe_char ((b1 mod 4) * 16 + b2 / 16)
      :: urlsafe_char ((b2 mod 16) * 4 + b3 / 64) :: urlsafe_char (b3 mod 64)
      :: urlsafe_b64encode rest
  end.

End Base64.

(* ================================================================= *)
(** ** UTF-8 decoding ([bytes.decode('utf-8')]) *)

Module Utf8.

Inductive step : Type :=
  | Char (cp : N) (used : nat)        (* a code point read from [used] bytes *)
  | Invalid (what : string) (used : nat).  (* an error covering [used] bytes *)

Definition is_cont (b : N) : bool := (128 <=? b) && (b <? 192).
Definition low6 (b : N) : N := N.land b 63.

(** One step of CPython's decoder on a non-empty input.  An incomplete
    sequence at the end of the data is an error that covers what is left. *)
Definition decode_step (b : N) (rest : bytes) : step :=
  let bad_start := Invalid "invalid start byte" 1 in
  let bad_cont := Invalid "invalid continuation byte" in
  let truncated := Invalid "unexpected end of data" (S (List.length rest)) in
  if b <? 128 then Char b 1
  else if b <? 194 then bad_start
  else if b <? 224 then
    match rest with
    | [] => truncated
    | b2 :: _ =>
        if is_cont b2 then Char (N.shiftl (N.land b 31) 6 + low6 b2) 2
        else bad_cont 1%nat
    end
  else if b <? 240 then
    match rest with
    | [] => truncated
    | b2 :: rest2 =>
        if negb (is_cont b2)
           || (if b2 <? 160 then b =? 224 else b =? 237) then bad_cont 1%nat
        else match rest2 with
             | [] => truncated
             | b3 :: _ =>
                 if is_cont b3 then
                   Char (N.shiftl (N.land b 15) 12 + N.shiftl (low6 b2) 6 + low6 b3) 3
                 else bad_cont 2%nat
             end
    end
  else if b <? 245 then
    match rest with
    | [] => truncated
    | b2 :: rest2 =>
        if negb (is_cont b2)
           || (if b2 <? 144 then b =? 240 else b =? 244) then bad_cont 1%nat
        else match rest2 with
             | [] => truncated
             | b3 :: rest3 =>
                 if negb (is_cont b3) then bad_cont 2%nat
                 else match rest3 with
                      | [] => truncated
                      | b4 :: _ =>
                          if is_cont b4 then
                            Char (N.shiftl (N.land b 7) 18 + N.shiftl (low6 b2) 12
                                  + N.shiftl (low6 b3) 6 + low6 b4) 4
                          else bad_cont 3%nat
                      end
             end
    end
  else bad_start.

(** [data.decode('utf-8')] ([errors='strict']). *)
Fixpoint decode_strict (fuel : nat) (data : bytes) : outcome str :=
  match fuel, data with
  | _, [] => Ok []
  | O, _ => Unmodelled "fuel"
  | S fuel', b :: rest =>
      match decode_step b rest with
      | Char cp used => map_ok (cons cp) (decode_strict fuel' (skipn used data))
      | Invalid what _ => Raise (Exn UnicodeDecodeError (Lib what))
      end
  end.
Definition decode (data : bytes) : outcome str := decode_strict (List.length data) data.

(** [data.decode('utf-8', 'replace')]: each error becomes U+FFFD. *)
Fixpoint decode_replace_loop (fuel : nat) (data : bytes) : str :=
  match fuel, data with
  | S fuel', b :: rest =>
      match decode_step b rest with
      | Char cp used => cp :: decode_replace_loop fuel' (skipn used data)
      | Invalid _ used => 65533 :: decode_replace_loop fuel' (skipn used data)
      end
  | _, _ => []
  end.
Definition decode_replace (data : bytes) : str :=
  decode_replace_loop (List.length data) data.

(** [s.encode('utf-8')] for code points that are not surrogates. *)
Definition encode_char (c : N) : bytes :=
  if c <? 128 then [c]
  else if c <? 2048 then [192 + c / 64; 128 + c mod 64]
  else if c <? 65536 then [224 + c / 4096; 128 + (c / 64) mod 64; 128 + c mod 64]
  else [240 + c / 262144; 128 + (c / 4096) mod 64; 128 + (c / 64) mod 64;
        128 + c mod 64].
Definition encode (s : str) : bytes := flat_map encode_char s.

End Utf8.

(* ================================================================= *)
(** ** [zlib.decompress] *)

Module Zlib.

Definition err {A} (what : string) : outcome A := Raise (Exn ZlibError (Lib what)).
Definition truncated {A} : outcome A := err "incomplete or truncated stream".

(** Bits of the input, least significant bit of each byte first. *)
Definition bits_of_byte (b : N) : list bool :=
  map (fun i => N.testbit b i) [0; 1; 2; 3; 4; 5; 6; 7].
Definition bits_of (data : bytes) : list bool := flat_map bits_of_byte data.

(** Read an [n]-bit integer, least significant bit first. *)
Fixpoint take_bits (n : nat) (bs : list bool) : option (N * list bool) :=
  match n with
  | O => Some (0, bs)
  | S n' =>
      match bs with
      | [] => None
      | b :: bs' =>
          match take_bits n' bs' with
          | Some (v, r) => Some (2 * v + (if b then 1 else 0), r)
          | None => None
          end
      end
  end.

(** A Huffman code given by the List.length of each symbol's code (RFC 1951,
    section 3.2.2).  [count lens l] is the number of symbols of length [l]. *)
Definition count (lens : list N) (l : N) : N :=
  N.of_nat (List.length (filter (N.eqb l) lens)).

(** Symbols of length [l], in increasing order. *)
Fixpoint symbols_of_len (lens : list N) (l : N) (sym : N) : list N :=
  match lens with
  | [] => []
  | x :: t =>
      if x =? l then sym :: symbols_of_len t l (sym + 1)
      else symbols_of_len t l (sym + 1)
  end.

(** Space left in the code after lengths [1..15]: negative when the code is
    over-subscribed, positive when incomplete. *)
Definition code_left (lens : list N) : Z :=
  fold_left (fun left l => (2 * left - Z.of_N (count lens l))%Z)
            [1; 2; 3; 4; 5; 6; 7; 8; 9; 10; 11; 12; 13; 14; 15] 1%Z.

Definition max_len (lens : list N) : N := fold_left N.max lens 0.

Inductive code_kind : Type := CODES | LENS | DISTS.

(** The validity test of zlib's [inflate_table]: no over-subscribed set; an
    incomplete set only for a literal/List.length or distance code whose longest
    code has one bit; a set without codes is accepted. *)
Definition code_ok (kind : code_kind) (lens : list N) : bool :=
  if max_len lens =? 0 then true
  else if (code_left lens <? 0)%Z then false
  else if (0 <? code_left lens)%Z then
    match kind with
    | CODES => false
    | _ => max_len lens =? 1
    end
  else true.

(** Decode one symbol, reading the code most significant bit first. *)
Fixpoint decode_sym (lens : list N) (len : nat) (l : N) (code first : N)
    (bs : list bool) : option (option N * list bool) :=
  match len with
  | O => Some (None, bs)
  | S len' =>
      match bs with
      | [] => None
      | b :: bs' =>
          let code := code + (if b then 1 else 0) in
          let n := count lens l in
          if code <? first + n then
            Some (nth_error (symbols_of_len lens l 0) (N.to_nat (code - first)), bs')
          else decode_sym lens len' (l + 1) (2 * code) (2 * (first + n)) bs'
      end
  end.
Definition decode (lens : list N) (bs : list bool) : option (option N * list bool) :=
  decode_sym lens 15 1 0 0 bs.

Definition length_base : list (N * N) :=
  [(3,0);(4,0);(5,0);(6,0);(7,0);(8,0);(9,0);(10,0);(11,1);(13,1);(15,1);(17,1);
   (19,2);(23,2);(27,2);(31,2);(35,3);(43,3);(51,3);(59,3);(67,4);(83,4);(99,4);
   (115,4);(131,5);(163,5);(195,5);(227,5);(258,0)].
Definition dist_base : list (N * N) :=
  [(1,0);(2,0);(3,0);(4,0);(5,1);(7,1);(9,2);(13,2);(17,3);(25,3);(33,4);(49,4);
   (65,5);(97,5);(129,6);(193,6);(257,7);(385,7);(513,8);(769,8);(1025,9);
   (1537,9);(2049,10);(3073,10);(4097,11);(6145,11);(8193,12);(12289,12);
   (16385,13);(24577,13)].

(** Copy [n] bytes from [dist] bytes back; [out] is the output so far, most
    recent byte first. *)
Fixpoint copy_back (n : nat) (dist : nat) (out : bytes) : option bytes :=
  match n with
  | O => Some out
  | S n' =>
      match nth_error out (pred dist) with
      | Some b => copy_back n' dist (b :: out)
      | None => None
      end
  end.

(** The symbols of one compressed block, up to its end-of-block symbol. *)
Fixpoint inflate_codes (fuel : nat) (ll dd : list N) (bs : list bool)
    (out : bytes) : outcome (list bool * bytes) :=
  match fuel with
  | O => Unmodelled "fuel"
  | S fuel' =>
      match decode ll bs with
      | None => truncated
      | Some (None, _) => err "invalid literal/List.length code"
      | Some (Some sym, bs1) =>
          if sym <? 256 then inflate_codes fuel' ll dd bs1 (sym :: out)
          else if sym =? 256 then Ok (bs1, out)
          else
            match nth_error length_base (N.to_nat (sym - 257)) with
            | None => err "invalid literal/List.length code"
            | Some (lbase, lextra) =>
                match take_bits (N.to_nat lextra) bs1 with
                | None => truncated
                | Some (le, bs2) =>
                    match decode dd bs2 with
                    | None => truncated
                    | Some (None, _) => err "invalid distance code"
                    | Some (Some dsym, bs3) =>
                        match nth_error dist_base (N.to_nat dsym) with
                        | None => err "invalid distance code"
                        | Some (dbase, dextra) =>
                            match take_bits (N.to_nat dextra) bs3 with
                            | None => truncated
                            | Some (de, bs4) =>
                                match copy_back (N.to_nat (lbase + le))
                                        (N.to_nat (dbase + de)) out with
                                | None => err "invalid distance too far back"
                                | Some out' => inflate_codes fuel' ll dd bs4 out'
                                end
                            end
                        end
                    end
                end
            end
      end
  end.

Definition fixed_ll : list N :=
  repeat 8 144 ++ repeat 9 112 ++ repeat 7 24 ++ repeat 8 8.
Definition fixed_dd : list N := repeat 5 30.

Definition clen_order : list nat :=
  [16; 17; 18; 0; 8; 7; 9; 6; 10; 5; 11; 4; 12; 3; 13; 2; 14; 1; 15]%nat.

(** Code lengths of the code-List.length alphabet, read in [clen_order]. *)
Fixpoint read_clens (order : list nat) (n : nat) (bs : list bool)
    (acc : list (nat * N)) : option (list (nat * N) * list bool) :=
  match n, order with
  | S n', o :: order' =>
      match take_bits 3 bs with
      | Some (v, bs') => read_clens order' n' bs' ((o, v) :: acc)
      | None => None
      end
  | _, _ => Some (acc, bs)
  end.

Definition clens_table (assoc : list (nat * N)) : list N :=
  map (fun i => match find (fun p => Nat.eqb (fst p) i) assoc with
                | Some (_, v) => v
                | None => 0
                end) (seq 0 19).

(** The literal/List.length and distance code lengths of a dynamic block; [acc]
    holds them most recent first. *)
Fixpoint read_lens (fuel : nat) (cl : list N) (total : nat) (bs : list bool)
    (acc : list N) : outcome (list N * list bool) :=
  if Nat.leb total (List.length acc) then Ok (rev acc, bs)
  else
    match fuel with
    | O => Unmodelled "fuel"
    | S fuel' =>
        match decode cl bs with
        | None => truncated
        | Some (None, _) => err "invalid code lengths set"
        | Some (Some sym, bs1) =>
            if sym <? 16 then read_lens fuel' cl total bs1 (sym :: acc)
            else
              let '(nbits, base, prev) :=
                if sym =? 16 then (2%nat, 3, hd_error acc)
                else if sym =? 17 then (3%nat, 3, Some 0)
                else (7%nat, 11, Some 0) in
              match take_bits nbits bs1 with
              | None => truncated
              | Some (extra, bs2) =>
                  match prev with
                  | None => err "invalid bit List.length repeat"
                  | Some v =>
                      let k := N.to_nat (base + extra) in
                      if Nat.ltb total (List.length acc + k) then
                        err "invalid bit List.length repeat"
                      else read_lens fuel' cl total bs2 (repeat v k ++ acc)
                  end
              end
        end
    end.

(** Drop the bits left in the current byte; [used] bits were read so far. *)
Definition align (used : nat) (bs : list bool) : list bool :=
  skipn ((8 - used mod 8) mod 8) bs.

(** Blocks of a deflate stream (RFC 1951), as zlib's [inflate] reads them.
    [all] is the List.length of the whole bit string, from which the number of
    bits read so far follows. *)
Fixpoint inflate_blocks (fuel : nat) (all : nat) (bs : list bool) (out : bytes)
    : outcome (list bool * bytes) :=
  match fuel with
  | O => Unmodelled "fuel"
  | S fuel' =>
      match take_bits 1 bs with
      | None => truncated
      | Some (final, bs0) =>
          match take_bits 2 bs0 with
          | None => truncated
          | Some (btype, bs1) =>
              let continue r :=
                match r with
                | Ok (bs', out') =>
                    if final =? 1 then Ok (bs', out')
                    else inflate_blocks fuel' all bs' out'
                | other => other
                end in
              if btype =? 0 then
                let bs2 := align (all - List.length bs1) bs1 in
                match take_bits 16 bs2 with
                | None => truncated
                | Some (len, bs3) =>
                    match take_bits 16 bs3 with
                    | None => truncated
                    | Some (nlen, bs4) =>
                        if negb (len + nlen =? 65535) then
                          err "invalid stored block lengths"
                        else
                          let fix copy (n : nat) (bs : list bool) (out : bytes) :=
                            match n with
                            | O => Ok (bs, out)
                            | S n' =>
                                match take_bits 8 bs with
                                | None => truncated
                                | Some (b, bs') => copy n' bs' (b :: out)
                                end
                            end in
                          continue (copy (N.to_nat len) bs4 out)
                    end
                end
              else if btype =? 1 then
                continue (inflate_codes (S (List.length bs1)) fixed_ll fixed_dd bs1 out)
              else if btype =? 2 then
                match take_bits 5 bs1 with
                | None => truncated
                | Some (hlit, bs2) =>
                match take_bits 5 bs2 with
                | None => truncated
                | Some (hdist, bs3) =>
                match take_bits 4 bs3 with
                | None => truncated
                | Some (hclen, bs4) =>
                    let nlen := N.to_nat (hlit + 257) in
                    let ndist := N.to_nat (hdist + 1) in
                    if Nat.ltb 286 nlen || Nat.ltb 30 ndist then
                      err "too many List.length or distance symbols"
                    else
                      match read_clens clen_order (N.to_nat (hclen + 4)) bs4 [] with
                      | None => truncated
                      | Some (assoc, bs5) =>
                          let cl := clens_table assoc in
                          if negb (code_ok CODES cl) then err "invalid code lengths set"
                          else
                            match read_lens (S (List.length bs5)) cl (nlen + ndist) bs5 [] with
                            | Ok (lens, bs6) =>
                                let ll := firstn nlen lens in
                                let dd := skipn nlen lens in
                                if nth 256 ll 0 =? 0 then
                                  err "invalid code -- missing end-of-block"
                                else if negb (code_ok LENS ll) then
                                  err "invalid literal/lengths set"
                                else if negb (code_ok DISTS dd) then
                                  err "invalid distances set"
                                else continue (inflate_codes (S (List.length bs6)) ll dd bs6 out)
                            | Raise e => Raise e
                            | Unmodelled w => Unmodelled w
                            end
                      end
                end end end
              else err "invalid block type"
          end
      end
  end.

(** A bare deflate stream (what [wbits=-15] would read): no header, no
    checksum. *)
Definition inflate_raw (data : bytes) : outcome bytes :=
  let bs := bits_of data in
  r <- inflate_blocks (S (List.length bs)) (List.length bs) bs [] ;;
  Ok (rev (snd r)).

Definition adler32 (data : bytes) : N :=
  let '(a, b) := fold_left (fun '(a, b) x =>
                   let a' := (a + x) mod 65521 in (a', (b + a') mod 65521))
                   data (1, 0) in
  b * 65536 + a.

Definition be32 (b : bytes) : N :=
  fold_left (fun acc x => acc * 256 + x) (firstn 4 b) 0.

(** [zlib.decompress(data)] with the default [wbits=15]: a zlib container
    (RFC 1950) is required -- a two-byte header, the deflate stream, and the
    Adler-32 checksum of the output.  Bytes after the checksum are ignored. *)
Definition decompress (data : bytes) : outcome bytes :=
  match data with
  | cmf :: flg :: body =>
      if negb ((cmf * 256 + flg) mod 31 =? 0) then err "incorrect header check"
      else if negb (cmf mod 16 =? 8) then err "unknown compression method"
      else if 7 <? cmf / 16 then err "invalid window size"
      else if N.testbit flg 5 then
        if Nat.ltb (List.length body) 4 then truncated else err "need dictionary"
      else
        let bs := bits_of body in
        r <- inflate_blocks (S (List.length bs)) (List.length bs) bs [] ;;
        let '(rest, out_rev) := r in
        let out := rev out_rev in
        let tail := skipn (List.length body - List.length rest / 8) body in
        if Nat.ltb (List.length tail) 4 then truncated
        else if be32 tail =? adler32 out then Ok out
        else err "incorrect data check"
  | _ => truncated
  end.

End Zlib.

(* ================================================================= *)
(** ** [json.loads] *)

Module Json.

Definition err {A} (what : string) : outcome A :=
  Raise (Exn JSONDecodeError (Lib what)).

Definition is_ws (c : N) : bool :=
  (c =? 32) || (c =? 9) || (c =? 10) || (c =? 13).
Definition skip_ws (s : str) : str := Str.lstrip_with is_ws s.

Definition hex_value (c : N) : option N :=
  if Str.is_ascii_digit c then Some (c - 48)
  else if (97 <=? c) && (c <=? 102) then Some (c - 87)
  else if (65 <=? c) && (c <=? 70) then Some (c - 55)
  else None.

(** Four hexadecimal digits at the head of [s]. *)
Definition hex4 (s : str) : option (N * str) :=
  match s with
  | a :: b :: c :: d :: rest =>
      match hex_value a, hex_value b, hex_value c, hex_value d with
      | Some x, Some y, Some z, Some w =>
          Some (((x * 16 + y) * 16 + z) * 16 + w, rest)
      | _, _, _, _ => None
      end
  | _ => None
  end.

Definition quote : N := 34.
Definition backslash : N := 92.

Definition simple_escape (c : N) : option N :=
  if c =? quote then Some quote
  else if c =? backslash then Some backslash
  else if c =? ch "/" then Some (ch "/")
  else if c =? ch "b" then Some 8
  else if c =? ch "f" then Some 12
  else if c =? ch "n" then Some 10
  else if c =? ch "r" then Some 13
  else if c =? ch "t" then Some 9
  else None.

Definition is_high_surrogate (c : N) : bool := (55296 <=? c) && (c <=? 56319).
Definition is_low_surrogate (c : N) : bool := (56320 <=? c) && (c <=? 57343).

(** The scanner's string reader (strict mode), after the opening quote. *)
Fixpoint scanstring (fuel : nat) (s : str) : outcome (str * str) :=
  match fuel with
  | O => Unmodelled "fuel"
  | S fuel' =>
      match s with
      | [] => err "Unterminated string starting at"
      | c :: rest =>
          if c =? quote then Ok ([], rest)
          else if c =? backslash then
            match rest with
            | [] => err "Unterminated string starting at"
            | e :: rest2 =>
                if e =? ch "u" then
                  if Nat.ltb (List.length rest2) 5 then err "Invalid \uXXXX escape"
                  else
                    match hex4 rest2 with
                    | None => err "Invalid \uXXXX escape"
                    | Some (cp, rest3) =>
                        let plain :=
                          r <- scanstring fuel' rest3 ;; Ok (cp :: fst r, snd r) in
                        if is_high_surrogate cp && Nat.leb 7 (List.length rest3) then
                          match rest3 with
                          | b :: u :: rest4 =>
                              if (b =? backslash) && (u =? ch "u") then
                                match hex4 rest4 with
                                | None => err "Invalid \uXXXX escape"
                                | Some (c2, rest5) =>
                                    if is_low_surrogate c2 then
                                      r <- scanstring fuel' rest5 ;;
                                      Ok (65536 + (cp - 55296) * 1024 + (c2 - 56320)
                                          :: fst r, snd r)
                                    else plain
                                end
                              else plain
                          | _ => plain
                          end
                        else plain
                    end
                else
                  match simple_escape e with
                  | Some x => r <- scanstring fuel' rest2 ;; Ok (x :: fst r, snd r)
                  | None => err "Invalid \escape"
                  end
            end
          else if c <? 32 then err "Invalid control character at"
          else r <- scanstring fuel' rest ;; Ok (c :: fst r, snd r)
      end
  end.

Fixpoint span_digits (s : str) : str * str :=
  match s with
  | c :: t =>
      if Str.is_ascii_digit c
      then let '(ds, r) := span_digits t in (c :: ds, r)
      else ([], s)
  | [] => ([], [])
  end.

(** [int(text)] of a run of digits: CPython refuses more than 4300 digits. *)
Definition py_int (neg : bool) (digits : str) : outcome json :=
  if Nat.ltb 4300 (List.length digits) then
    Raise (Exn ValueError (Lib "Exceeds the limit (4300) for integer string conversion"))
  else
    let v := Str.digits_value digits in
    Ok (JInt (if neg then (- v)%Z else v)).

(** The scanner's number matcher: an optional minus sign, then a single zero
    or a run of digits that starts with a non-zero digit, then an optional
    fraction (a dot and at least one digit) and an optional exponent ([e] or
    [E], an optional sign, at least one digit).  [None] when no number starts
    here. *)
Definition match_number (s : str) : option (outcome json * str) :=
  let '(neg, s1) :=
    match s with
    | c :: t => if c =? ch "-" then (true, t) else (false, s)
    | [] => (false, s)
    end in
  match s1 with
  | [] => None
  | d :: t =>
      let int_part :=
        if (49 <=? d) && (d <=? 57) then
          let '(ds, r) := span_digits t in Some (d :: ds, r)
        else if d =? 48 then Some ([d], t)
        else None in
      match int_part with
      | None => None
      | Some (digits, r) =>
          let '(has_frac, r1) :=
            match r with
            | p :: f :: r' =>
                if (p =? ch ".") && Str.is_ascii_digit f
                then (true, snd (span_digits r'))
                else (false, r)
            | _ => (false, r)
            end in
          let '(has_exp, r2) :=
            match r1 with
            | e :: r' =>
                if (e =? ch "e") || (e =? ch "E") then
                  let r'' :=
                    match r' with
                    | sg :: (_ :: _) as r3 =>
                        if (sg =? ch "-") || (sg =? ch "+") then r3 else r'
                    | _ => r'
                    end in
                  match fst (span_digits r'') with
                  | [] => (false, r1)
                  | _ => (true, snd (span_digits r''))
                  end
                else (false, r1)
            | [] => (false, r1)
            end in
          if has_frac || has_exp
          then Some (Unmodelled "float literal", r2)
          else Some (py_int neg digits, r2)
      end
  end.

Definition nesting_limit : nat := 900.

(** The scanner ([scan_once]) with its array and object readers.  Nesting
    beyond [nesting_limit] is left unmodelled: CPython raises
    [RecursionError] at a depth that depends on the interpreter's stack. *)
Fixpoint scan_once (fuel depth : nat) (s : str) : outcome (json * str) :=
  match fuel with
  | O => Unmodelled "fuel"
  | S fuel' =>
      match s with
      | [] => err "Expecting value"
      | c :: rest =>
          if c =? quote then
            r <- scanstring (S (List.length rest)) rest ;; Ok (JStr (fst r), snd r)
          else if c =? ch "{" then
            match depth with
            | O => Unmodelled "recursion limit"
            | S depth' =>
                match skip_ws rest with
                | (x :: rest') as body =>
                    if x =? ch "}" then Ok (JDict [], rest')
                    else
                      r <- parse_members fuel' depth' body [] ;;
                      Ok (JDict (fst r), snd r)
                | [] => err "Expecting property name enclosed in double quotes"
                end
            end
          else if c =? ch "[" then
            match depth with
            | O => Unmodelled "recursion limit"
            | S depth' =>
                match skip_ws rest with
                | (x :: rest') as body =>
                    if x =? ch "]" then Ok (JList [], rest')
                    else
                      r <- parse_elems fuel' depth' body ;;
                      Ok (JList (fst r), snd r)
                | [] => err "Expecting value"
                end
            end
          else if (c =? ch "n") && Str.startswith (lit "ull") rest then
            Ok (JNull, skipn 3 rest)
          else if (c =? ch "t") && Str.startswith (lit "rue") rest then
            Ok (JBool true, skipn 3 rest)
          else if (c =? ch "f") && Str.startswith (lit "alse") rest then
            Ok (JBool false, skipn 4 rest)
          else if (c =? ch "N") && Str.startswith (lit "aN") rest then
            Ok (JFloat nan, skipn 2 rest)
          else if (c =? ch "I") && Str.startswith (lit "nfinity") rest then
            Ok (JFloat infinity, skipn 7 rest)
          else if (c =? ch "-") && Str.startswith (lit "Infinity") rest then
            Ok (JFloat neg_infinity, skipn 8 rest)
          else
            match match_number s with
            | None => err "Expecting value"
            | Some (v, rest') => j <- v ;; Ok (j, rest')
            end
      end
  end
with parse_elems (fuel depth : nat) (s : str) : outcome (list json * str) :=
  match fuel with
  | O => Unmodelled "fuel"
  | S fuel' =>
      r <- scan_once fuel' depth s ;;
      let '(v, rest) := r in
      match skip_ws rest with
      | x :: rest' =>
          if x =? ch "]" then Ok ([v], rest')
          else if x =? ch "," then
            r' <- parse_elems fuel' depth (skip_ws rest') ;;
            Ok (v :: fst r', snd r')
          else err "Expecting ',' delimiter"
      | [] => err "Expecting ',' delimiter"
      end
  end
with parse_members (fuel depth : nat) (s : str) (acc : list (str * json))
    : outcome (list (str * json) * str) :=
  match fuel with
  | O => Unmodelled "fuel"
  | S fuel' =>
      match s with
      | q :: s1 =>
          if negb (q =? quote) then
            err "Expecting property name enclosed in double quotes"
          else
            k <- scanstring (S (List.length s1)) s1 ;;
            let '(key, rest) := k in
            match skip_ws rest with
            | colon :: rest1 =>
                if negb (colon =? ch ":") then err "Expecting ':' delimiter"
                else
                  r <- scan_once fuel' depth (skip_ws rest1) ;;
                  let '(v, rest2) := r in
                  let acc' := dict_set key v acc in
                  match skip_ws rest2 with
                  | x :: rest3 =>
                      if x =? ch "}" then Ok (acc', rest3)
                      else if x =? ch "," then
                        parse_members fuel' depth (skip_ws rest3) acc'
                      else err "Expecting ',' delimiter"
                  | [] => err "Expecting ',' delimiter"
                  end
            | [] => err "Expecting ':' delimiter"
            end
      | [] => err "Expecting property name enclosed in double quotes"
      end
  end.

(** [json.loads(s)] for a [str]. *)
Definition loads (s : str) : outcome json :=
  match s with
  | 65279 :: _ => err "Unexpected UTF-8 BOM (decode using utf-8-sig)"
  | _ =>
      r <- scan_once (2 * List.length s + 2) nesting_limit (skip_ws s) ;;
      match skip_ws (snd r) with
      | [] => Ok (fst r)
      | _ :: _ => err "Extra data"
      end
  end.

End Json.

(* ================================================================= *)
(** ** [urllib.parse]: [urlparse], its netloc accessors, and [parse_qs] *)

Module Url.

Record parse_result : Type := ParseResult {
  scheme : str;
  netloc : str;
  path : str;
  params : str;
  query : str;
  fragment : str
}.

Definition value_error {A} (what : string) : outcome A :=
  Raise (Exn ValueError (Lib what)).

Definition c0_control_or_space (c : N) : bool := c <=? 32.
Definition unsafe_byte (c : N) : bool := (c =? 9) || (c =? 13) || (c =? 10).

Definition scheme_char (c : N) : bool :=
  Str.is_ascii_alpha c || Str.is_ascii_digit c
  || (c =? ch "+") || (c =? ch "-") || (c =? ch ".").

Definition netloc_delim (c : N) : bool :=
  (c =? ch "/") || (c =? ch "?") || (c =? ch "#").

(** [_splitnetloc(url, 2)]: the text between the two slashes and the first of
    [/], [?] and [#]. *)
Fixpoint span_netloc (s : str) : str * str :=
  match s with
  | c :: t =>
      if netloc_delim c then ([], s)
      else let '(n, r) := span_netloc t in (c :: n, r)
  | [] => ([], [])
  end.

(** The text after the last [@] of a netloc. *)
Definition hostinfo_of (netloc : str) : str :=
  match Str.rpartition (ch "@") netloc with
  | Some (_, h) => h
  | None => netloc
  end.

Definition is_hex (c : N) : bool :=
  Str.is_ascii_digit c || ((97 <=? c) && (c <=? 102)) || ((65 <=? c) && (c <=? 70)).

(** [_check_bracketed_host]: an IPvFuture literal is matched against
    [v<hex digits>.<anything>]; any other bracketed host goes to
    [ipaddress.ip_address], which is not modelled. *)
Definition check_bracketed_host (hostname : str) : outcome unit :=
  match hostname with
  | 118 :: rest =>
      match rest, Str.lstrip_with is_hex rest with
      | h :: _, 46 :: _ :: _ =>
          if is_hex h then Ok tt else value_error "IPvFuture address is invalid"
      | _, _ => value_error "IPvFuture address is invalid"
      end
  | _ => Unmodelled "ipaddress.ip_address"
  end.

Definition check_bracketed_netloc (netloc : str) : outcome unit :=
  let hostname_and_port := hostinfo_of netloc in
  match Str.partition (ch "[") hostname_and_port with
  | Some (before_bracket, bracketed) =>
      match before_bracket with
      | _ :: _ => value_error "Invalid IPv6 URL"
      | [] =>
          let '(hostname, port) :=
            match Str.partition (ch "]") bracketed with
            | Some (h, p) => (h, p)
            | None => (bracketed, [])
            end in
          match port with
          | c :: _ =>
              if c =? ch ":" then check_bracketed_host hostname
              else value_error "Invalid IPv6 URL"
          | [] => check_bracketed_host hostname
          end
      end
  | None =>
      check_bracketed_host
        match Str.partition (ch ":") hostname_and_port with
        | Some (h, _) => h
        | None => hostname_and_port
        end
  end.

(** [_checknetloc]: a netloc outside ASCII is normalised (NFKC) and refused
    when that introduces one of [/?#@:].  For code points below 256 the
    normal form introduces none of them; beyond, the Unicode tables are not
    modelled. *)
Definition checknetloc (netloc : str) : outcome unit :=
  if forallb (fun c => c <? 256) netloc then Ok tt
  else Unmodelled "unicodedata.normalize".

(** The steps of [urlsplit], in order.  Leading control characters and
    spaces are stripped, and tabs and line breaks removed everywhere. *)
Definition clean_url (url : str) : str :=
  filter (fun c => negb (unsafe_byte c)) (Str.lstrip_with c0_control_or_space url).

(** The scheme is what precedes the first [:], when that is a letter followed
    by scheme characters. *)
Definition split_scheme (url : str) : str * str :=
  match Str.partition (ch ":") url with
  | Some ((c0 :: _) as pre, post) =>
      if Str.is_ascii_alpha c0 && forallb scheme_char pre
      then (Str.lower pre, post)
      else ([], url)
  | _ => ([], url)
  end.

(** The netloc follows [//]; brackets in it must pair and enclose a valid
    host. *)
Definition split_netloc (url : str) : outcome (str * str) :=
  match url with
  | 47 :: 47 :: rest =>
      let '(netloc, url') := span_netloc rest in
      let has_open := Str.contains (ch "[") netloc in
      let has_close := Str.contains (ch "]") netloc in
      if xorb has_open has_close then value_error "Invalid IPv6 URL"
      else if has_open && has_close then
        _ <- check_bracketed_netloc netloc ;; Ok (netloc, url')
      else Ok (netloc, url')
  | _ => Ok ([], url)
  end.

(** [url.split(c, 1)] when [c] occurs, else the text and nothing. *)
Definition split_at (c : N) (url : str) : str * str :=
  match Str.partition c url with
  | Some (u, f) => (u, f)
  | None => (url, [])
  end.

Definition urlsplit (url : str) : outcome parse_result :=
  let '(scheme, url) := split_scheme (clean_url url) in
  r <- split_netloc url ;;
  let '(netloc, url) := r in
  let '(url, fragment) := split_at (ch "#") url in
  let '(url, query) := split_at (ch "?") url in
  _ <- checknetloc netloc ;;
  Ok (ParseResult scheme netloc url [] query fragment).

Definition uses_params : list str :=
  map lit [EmptyString; "ftp"; "hdl"; "prospero"; "http"; "imap"; "https"; "shttp";
           "rtsp"; "rtspu"; "sip"; "sips"; "mms"; "sftp"; "tel"]%string.

(** [_splitparams]: the parameters follow the first [;] of the last path
    segment. *)
Definition splitparams (url : str) : str * str :=
  match Str.rpartition (ch "/") url with
  | Some (dir, last) =>
      match Str.partition (ch ";") last with
      | Some (l, p) => (dir ++ ch "/" :: l, p)
      | None => (url, [])
      end
  | None =>
      match Str.partition (ch ";") url with
      | Some (l, p) => (l, p)
      | None => (url, [])
      end
  end.

Definition urlparse (url : str) : outcome parse_result :=
  r <- urlsplit url ;;
  if existsb (str_eqb (scheme r)) uses_params && Str.contains (ch ";") (path r)
  then
    let '(p, ps) := splitparams (path r) in
    Ok (ParseResult (scheme r) (netloc r) p ps (query r) (fragment r))
  else Ok r.

(** [parsed.username]: [None] without an [@]. *)
Definition username (r : parse_result) : option str :=
  match Str.rpartition (ch "@") (netloc r) with
  | Some (userinfo, _) =>
      match Str.partition (ch ":") userinfo with
      | Some (u, _) => Some u
      | None => Some userinfo
      end
  | None => None
  end.

(** [parsed._hostinfo]: the host text and the port text ([None] when empty). *)
Definition hostinfo (r : parse_result) : str * option str :=
  let h := hostinfo_of (netloc r) in
  let '(hostname, port) :=
    match Str.partition (ch "[") h with
    | Some (_, bracketed) =>
        match Str.partition (ch "]") bracketed with
        | Some (hn, p) =>
            (hn, match Str.partition (ch ":") p with
                 | Some (_, p') => p'
                 | None => []
                 end)
        | None => (bracketed, [])
        end
    | None =>
        match Str.partition (ch ":") h with
        | Some (hn, p) => (hn, p)
        | None => (h, [])
        end
    end in
  (hostname, match port with [] => None | _ => Some port end).

(** [parsed.hostname]: lower-cased up to the first [%]; a zone identifier
    after it is kept as written. *)
Definition hostname (r : parse_result) : option str :=
  match fst (hostinfo r) with
  | [] => None
  | h =>
      match Str.partition (ch "%") h with
      | Some (host, zone) => Some (Str.lower host ++ ch "%" :: zone)
      | None => Some (Str.lower h)
      end
  end.

(** [parsed.port]. *)
Definition port (r : parse_result) : outcome (option Z) :=
  match snd (hostinfo r) with
  | None => Ok None
  | Some p =>
      if forallb Str.is_ascii_digit p then
        if Nat.ltb 4300 (List.length p) then
          value_error "Exceeds the limit (4300) for integer string conversion"
        else if (Str.digits_value p <=? 65535)%Z then Ok (Some (Str.digits_value p))
        else Raise (Exn ValueError (Text (lit "Port out of range 0-65535")))
      else value_error "Port could not be cast to integer value"
  end.

(** [unquote_to_bytes] on an ASCII run: [%XX] with two hexadecimal digits is
    one byte; any other [%] stands for itself. *)
Fixpoint percent_decode (s : str) : bytes :=
  match s with
  | [] => []
  | c :: t =>
      match t with
      | a :: b :: t' =>
          match Json.hex_value a, Json.hex_value b with
          | Some x, Some y =>
              if c =? ch "%" then (16 * x + y) :: percent_decode t'
              else c :: percent_decode t
          | _, _ => c :: percent_decode t
          end
      | _ => c :: percent_decode t
      end
  end.

(** [unquote]: every maximal ASCII run is percent-decoded and read as UTF-8
    with errors replaced; [run] is the pending ASCII run, reversed. *)
Fixpoint unquote_runs (s : str) (run : str) : str :=
  let flush := Utf8.decode_replace (percent_decode (rev run)) in
  match s with
  | [] => flush
  | c :: t =>
      if c <? 128 then unquote_runs t (c :: run)
      else flush ++ c :: unquote_runs t []
  end.

Definition unquote (s : str) : str :=
  if Str.contains (ch "%") s then unquote_runs s [] else s.

(** [parse_qsl(qs)] with the defaults: fields are separated by [&]; a field
    without [=] or with an empty value is dropped. *)
Definition parse_field (name_value : str) : option (str * str) :=
  match Str.partition (ch "=") name_value with
  | Some (n, v) =>
      match v with
      | [] => None
      | _ => Some (unquote (Str.replace (ch "+") 32 n),
                   unquote (Str.replace (ch "+") 32 v))
      end
  | None => None
  end.

Definition parse_qsl (qs : str) : list (str * str) :=
  match qs with
  | [] => []
  | _ => flat_map (fun f => match parse_field f with
                            | Some p => [p]
                            | None => []
                            end) (Str.split (ch "&") qs)
  end.

(** [parse_qs(qs)]: the values of each name, in order of appearance. *)
Definition add_value (d : list (str * list str)) (nv : str * str)
    : list (str * list str) :=
  match dict_lookup (fst nv) d with
  | Some vs => dict_set (fst nv) (vs ++ [snd nv]) d
  | None => dict_set (fst nv) [snd nv] d
  end.

Definition parse_qs (qs : str) : list (str * list str) :=
  fold_left add_value (parse_qsl qs) [].

End Url.

(* ================================================================= *)
(** ** Built-in operations on the values of a configuration *)

Module Builtins.

Definition type_error {A} (what : string) : outcome A :=
  Raise (Exn TypeError (Lib what)).

(** [v[k]] for a string key. *)
Definition getitem (v : json) (k : str) : outcome json :=
  match v with
  | JDict d =>
      match dict_lookup k d with
      | Some x => Ok x
      | None => Raise (Exn KeyError (Repr k))
      end
  | JList _ => type_error "list indices must be integers or slices, not str"
  | JStr _ => type_error "string indices must be integers, not 'str'"
  | _ => type_error "object is not subscriptable"
  end.

(** [v[0]]. *)
Definition getitem0 (v : json) : outcome json :=
  match v with
  | JList (x :: _) => Ok x
  | JList [] => Raise (Exn IndexError (Text (lit "list index out of range")))
  | JStr (c :: _) => Ok (JStr [c])
  | JStr [] => Raise (Exn IndexError (Text (lit "string index out of range")))
  | JDict _ => Raise (Exn KeyError (Lib "0"))
  | _ => type_error "object is not subscriptable"
  end.

(** [v.get(k, default)]: only a [dict] has the method. *)
Definition get (v : json) (k : str) (default : json) : outcome json :=
  match v with
  | JDict d =>
      Ok match dict_lookup k d with
         | Some x => x
         | None => default
         end
  | _ => Raise (Exn AttributeError (Lib "object has no attribute 'get'"))
  end.

(** Truth value of an object, as [if v:] tests it. *)
Definition truthy (v : json) : bool :=
  match v with
  | JNull => false
  | JBool b => b
  | JInt z => negb (z =? 0)%Z
  | JFloat f => negb (PrimFloat.eqb f zero)
  | JStr s => match s with [] => false | _ => true end
  | JList l => match l with [] => false | _ => true end
  | JDict d => match d with [] => false | _ => true end
  end.

(** [str(v)], as an f-string formats [v].  The [repr] of floats and of
    containers is not modelled. *)
Definition py_str (v : json) : outcome str :=
  match v with
  | JStr s => Ok s
  | JInt z => Ok (Str.str_of_Z z)
  | JBool true => Ok (lit "True")
  | JBool false => Ok (lit "False")
  | JNull => Ok (lit "None")
  | JFloat _ => Unmodelled "float repr"
  | JList _ | JDict _ => Unmodelled "container repr"
  end.

(** [int.from_bytes(b, 'big')]. *)
Definition int_from_bytes_big (b : bytes) : N :=
  fold_left (fun acc x => acc * 256 + x) b 0.

(** [json.loads(v)] for an arbitrary object [v]. *)
Definition json_loads (v : json) : outcome json :=
  match v with
  | JStr s => Json.loads s
  | _ => type_error "the JSON object must be str, bytes or bytearray"
  end.

End Builtins.
Import Builtins.

(* ================================================================= *)
(** ** Console *)

Module Console.

(** What the terminal delivers to one [input()] call: a line (without its
    newline) or an interrupt.  An exhausted [stdin] is end of file. *)
Inductive stdin_event : Type :=
  | Line (s : str)
  | CtrlC.

Record console : Type := { stdin : list stdin_event; stdout : list str }.

Definition io (A : Type) : Type := console -> outcome A * console.

Definition ret {A} (a : A) : io A := fun w => (Ok a, w).
Definition lift {A} (m : outcome A) : io A := fun w => (m, w).
Definition iobind {A B} (m : io A) (k : A -> io B) : io B :=
  fun w => match m w with
           | (Ok a, w') => k a w'
           | (Raise e, w') => (Raise e, w')
           | (Unmodelled y, w') => (Unmodelled y, w')
           end.

Definition io_try {A} (body : io A) (catches : exn_class -> bool)
    (handler : exn -> io A) : io A :=
  fun w => match body w with
           | (Raise e, w') =>
               if catches (class_of e) then handler e w' else (Raise e, w')
           | r => r
           end.

Definition write (s : str) : io unit :=
  fun w => (Ok tt, {| stdin := stdin w; stdout := stdout w ++ [s] |}).

(** [print(s)]. *)
Definition print (s : str) : io unit := write (s ++ [10]).

(** A text without lone surrogates (U+D800 to U+DFFF): one that the UTF-8
    encoder of the output stream accepts. *)
Definition encodable (s : str) : bool :=
  forallb (fun c => negb ((55296 <=? c) && (c <=? 57343))) s.

(** [input(prompt)].  The prompt is encoded before anything is written or
    read; with a prompt that holds a lone surrogate the call fails there, in a
    way that depends on the error handler of the stream and is not
    modelled. *)
Definition input (prompt : str) : io str :=
  fun w =>
    if encodable prompt then
      let out := stdout w ++ [prompt] in
      match stdin w with
      | Line s :: rest => (Ok s, {| stdin := rest; stdout := out |})
      | CtrlC :: rest =>
          (Raise (Exn KeyboardInterrupt (Text [])), {| stdin := rest; stdout := out |})
      | [] =>
          (Raise (Exn EOFError (Text (lit "EOF when reading a line"))),
           {| stdin := []; stdout := out |})
      end
    else (Unmodelled "encoding of a lone surrogate", w).

(** [sys.exit(msg)]: raises [SystemExit]; uncaught, the interpreter prints
    the message to standard error and the process ends with status 1. *)
Definition sys_exit {A} (m : message) : io A := lift (Raise (Exn SystemExit m)).

End Console.
Import Console.

Notation "x <~ m ;; k" := (iobind m (fun x => k))
  (at level 61, m at next level, right associativity) : py_scope.

(* ================================================================= *)
(** ** The program: [vlesslinker.py] *)

(** *** [decode_vpn_url], lines 15-65 *)

(** Lines 35-46: the compressed reading of the decoded bytes.  A four-byte
    big-endian length, then a zlib stream whose output must have that length
    and hold UTF-8 JSON text. *)
Definition try_zlib (raw_data : bytes) : outcome json :=
  if Nat.leb 4 (List.length raw_data) then
    let expected_length := int_from_bytes_big (firstn 4 raw_data) in
    decompressed <- Zlib.decompress (skipn 4 raw_data) ;;
    if N.of_nat (List.length decompressed) =? expected_length then
      text <- Utf8.decode decompressed ;;
      Json.loads text
    else Raise (Exn ValueError (Text (lit "Length mismatch after decompression")))
  else Raise (Exn ValueError (Text (lit "Data too short for zlib format"))).

(** Lines 49-53: the fallback, the whole buffer as JSON text. *)
Definition plain_json (raw_data : bytes) : outcome json :=
  try_except
    (text <- Utf8.decode raw_data ;; Json.loads text)
    is_Exception
    (fun e => Raise (Exn ValueError (Fmt (lit "JSON decode error: ") e))).

(** Lines 34-53: the compressed reading first; when it fails with
    [zlib.error] or a [ValueError], the fallback. *)
Definition parse_raw_data (raw_data : bytes) : outcome json :=
  try_except (try_zlib raw_data)
    (fun c => match c with ZlibError => true | _ => is_ValueError c end)
    (fun _ => plain_json raw_data).

(** Lines 17-53: from the [vpn://] text to [json_data]. *)
Definition decode_payload (vpn_url : str) : outcome json :=
  if negb (Str.startswith (lit "vpn://") vpn_url) then
    Raise (Exn ValueError (Text (lit "Invalid VPN URL format")))
  else
    let encoded_data := Str.strip (skipn 6 vpn_url) in
    let missing_padding := (List.length encoded_data mod 4)%nat in
    let encoded_data :=
      match missing_padding with
      | O => encoded_data
      | _ => encoded_data ++ repeat (ch "=") (4 - missing_padding)
      end in
    raw_data <-
      try_except (Base64.urlsafe_b64decode encoded_data) is_Exception
        (fun e => Raise (Exn ValueError (Fmt (lit "Base64 decode error: ") e))) ;;
    parse_raw_data raw_data.

(** Lines 55-65: a configuration nested under
    [containers[0].xray.last_config] replaces the decoded value. *)
Definition extract_nested (json_data : json) : outcome json :=
  match json_data with
  | JDict d =>
      match dict_lookup (lit "containers") d with
      | Some (JList (container :: _)) =>
          match container with
          | JDict c =>
              match dict_lookup (lit "xray") c with
              | Some (JDict xray_config) =>
                  match dict_lookup (lit "last_config") xray_config with
                  | Some last_config => json_loads last_config
                  | None => Ok json_data
                  end
              | _ => Ok json_data
              end
          | _ => Ok json_data
          end
      | _ => Ok json_data
      end
  | _ => Ok json_data
  end.

Definition decode_vpn_url (vpn_url : str) : outcome json :=
  json_data <- decode_payload vpn_url ;;
  extract_nested json_data.

(** *** [from_vless_url], lines 67-125 *)

(** [int(x)] for [x = parsed.port]: [None] is not a number. *)
Definition py_int (x : option Z) : outcome Z :=
  match x with
  | Some z => Ok z
  | None => type_error "int() argument must be a string, a bytes-like object or a real number, not 'NoneType'"
  end.

(** [params.get(k, [default])[0]]. *)
Definition first_value (params : list (str * list str)) (k default : str)
    : outcome str :=
  match match dict_lookup k params with
        | Some vs => vs
        | None => [default]
        end with
  | v :: _ => Ok v
  | [] => Raise (Exn IndexError (Text (lit "list index out of range")))
  end.

Definition opt_str (o : option str) : json :=
  match o with
  | Some s => JStr s
  | None => JNull
  end.

Definition from_vless_url (vless_url : str) : outcome json :=
  parsed <- Url.urlparse vless_url ;;
  let uuid := Url.username parsed in
  let address := Url.hostname parsed in
  p <- Url.port parsed ;;
  port <- py_int p ;;
  let params := Url.parse_qs (Url.query parsed) in
  network <- first_value params (lit "type") (lit "tcp") ;;
  security <- first_value params (lit "security") (lit "none") ;;
  public_key <- first_value params (lit "pbk") [] ;;
  server_name <- first_value params (lit "sni") [] ;;
  fingerprint <- first_value params (lit "fp") [] ;;
  short_id <- first_value params (lit "sid") [] ;;
  flow <- first_value params (lit "flow") [] ;;
  spiderx <- first_value params (lit "spx") [] ;;
  Ok (JDict
    [(lit "inbounds",
      JList [JDict [(lit "listen", JStr (lit "127.0.0.1"));
                    (lit "port", JInt 10808);
                    (lit "protocol", JStr (lit "socks"));
                    (lit "settings", JDict [(lit "udp", JBool true)])]]);
     (lit "log", JDict [(lit "loglevel", JStr (lit "error"))]);
     (lit "outbounds",
      JList [JDict
        [(lit "protocol", JStr (lit "vless"));
         (lit "settings",
          JDict [(lit "vnext",
            JList [JDict
              [(lit "address", opt_str address);
               (lit "port", JInt port);
               (lit "users",
                JList [JDict [(lit "id", opt_str uuid);
                              (lit "encryption", JStr (lit "none"));
                              (lit "flow", JStr flow)]])]])]);
         (lit "streamSettings",
          JDict [(lit "network", JStr network);
                 (lit "security", JStr security);
                 (lit "realitySettings",
                  JDict [(lit "serverName", JStr server_name);
                         (lit "fingerprint", JStr fingerprint);
                         (lit "publicKey", JStr public_key);
                         (lit "shortId", JStr short_id);
                         (lit "spiderX", JStr spiderx)])])]])]).

(** *** [get_vless_name], lines 127-134 *)

Definition get_vless_name (address : json) : io json :=
  io_try
    (a <~ lift (py_str address) ;;
     line <~ input (lit "Enter VLESS name (leave empty to use '" ++ a ++ lit "'): ") ;;
     let name := Str.strip line in
     ret match name with
         | [] => address
         | _ => JStr name
         end)
    (fun c => match c with KeyboardInterrupt => true | _ => false end)
    (fun _ =>
       _ <~ print ([10; 10] ++
                   lit "Program interrupted by user. Using server address as name.") ;;
       ret address).

(** *** [to_vless_url], lines 136-182 *)

(** [if v: url += f"{prefix}{v}"]. *)
Definition append_if (v : json) (prefix : str) (url : str) : outcome str :=
  if truthy v then s <- py_str v ;; Ok (url ++ prefix ++ s) else Ok url.

Definition to_vless_url (data : json) : io str :=
  io_try
    (out <~ lift (o <- getitem data (lit "outbounds") ;; getitem0 o) ;;
     vnext <~ lift (s <- getitem out (lit "settings") ;;
                    v <- getitem s (lit "vnext") ;; getitem0 v) ;;
     user <~ lift (u <- getitem vnext (lit "users") ;; getitem0 u) ;;
     stream <~ lift (getitem out (lit "streamSettings")) ;;
     uuid <~ lift (getitem user (lit "id")) ;;
     address <~ lift (getitem vnext (lit "address")) ;;
     port <~ lift (getitem vnext (lit "port")) ;;
     flow <~ lift (get user (lit "flow") (JStr [])) ;;
     network <~ lift (get stream (lit "network") (JStr (lit "tcp"))) ;;
     security <~ lift (get stream (lit "security") (JStr (lit "none"))) ;;
     rs <~ lift (get stream (lit "realitySettings") (JDict [])) ;;
     server_name <~ lift (get rs (lit "serverName") (JStr [])) ;;
     fingerprint <~ lift (get rs (lit "fingerprint") (JStr [])) ;;
     public_key <~ lift (get rs (lit "publicKey") (JStr [])) ;;
     short_id <~ lift (get rs (lit "shortId") (JStr [])) ;;
     spiderx <~ lift (get rs (lit "spiderX") (JStr [])) ;;
     url <~ lift (u <- py_str uuid ;; a <- py_str address ;; p <- py_str port ;;
                  Ok (lit "vless://" ++ u ++ lit "@" ++ a ++ lit ":" ++ p
                      ++ lit "?encryption=none")) ;;
     url <~ lift (append_if flow (lit "&flow=") url) ;;
     url <~ lift (append_if security (lit "&security=") url) ;;
     url <~ lift (append_if server_name (lit "&sni=") url) ;;
     url <~ lift (append_if fingerprint (lit "&fp=") url) ;;
     url <~ lift (append_if public_key (lit "&pbk=") url) ;;
     url <~ lift (append_if short_id (lit "&sid=") url) ;;
     url <~ lift (append_if spiderx (lit "&spx=") url) ;;
     url <~ lift (append_if network (lit "&type=") url) ;;
     custom_name <~ get_vless_name address ;;
     name <~ lift (py_str custom_name) ;;
     ret (url ++ lit "#" ++ name))
    is_Exception
    (fun e => sys_exit (Fmt (lit "Error generating VLESS URL: ") e)).

(** Lines 138-174 of [to_vless_url]: the URI up to its fragment, and the
    address the prompt will offer as the default name. *)
Definition url_head (data : json) : outcome (str * json) :=
  out <- (o <- getitem data (lit "outbounds") ;; getitem0 o) ;;
  vnext <- (s <- getitem out (lit "settings") ;;
            v <- getitem s (lit "vnext") ;; getitem0 v) ;;
  user <- (u <- getitem vnext (lit "users") ;; getitem0 u) ;;
  stream <- getitem out (lit "streamSettings") ;;
  uuid <- getitem user (lit "id") ;;
  address <- getitem vnext (lit "address") ;;
  port <- getitem vnext (lit "port") ;;
  flow <- get user (lit "flow") (JStr []) ;;
  network <- get stream (lit "network") (JStr (lit "tcp")) ;;
  security <- get stream (lit "security") (JStr (lit "none")) ;;
  rs <- get stream (lit "realitySettings") (JDict []) ;;
  server_name <- get rs (lit "serverName") (JStr []) ;;
  fingerprint <- get rs (lit "fingerprint") (JStr []) ;;
  public_key <- get rs (lit "publicKey") (JStr []) ;;
  short_id <- get rs (lit "shortId") (JStr []) ;;
  spiderx <- get rs (lit "spiderX") (JStr []) ;;
  url <- (u <- py_str uuid ;; a <- py_str address ;; p <- py_str port ;;
          Ok (lit "vless://" ++ u ++ lit "@" ++ a ++ lit ":" ++ p
              ++ lit "?encryption=none")) ;;
  url <- append_if flow (lit "&flow=") url ;;
  url <- append_if security (lit "&security=") url ;;
  url <- append_if server_name (lit "&sni=") url ;;
  url <- append_if fingerprint (lit "&fp=") url ;;
  url <- append_if public_key (lit "&pbk=") url ;;
  url <- append_if short_id (lit "&sid=") url ;;
  url <- append_if spiderx (lit "&spx=") url ;;
  url <- append_if network (lit "&type=") url ;;
  Ok (url, address).

(** Lines 176-179: the prompt and the fragment. *)
Definition url_tail (url : str) (address : json) : io str :=
  custom_name <~ get_vless_name address ;;
  name <~ lift (py_str custom_name) ;;
  ret (url ++ lit "#" ++ name).

(* ================================================================= *)
(** ** [json.dumps(obj, indent=2, ensure_ascii=False)] *)

Module Dumps.

Definition hex_digit (v : N) : N := if v <? 10 then 48 + v else 87 + v.

(** The replacement of one character inside a string: the quote, the
    backslash and the control characters are escaped; everything else,
    non-ASCII included, is written as it is. *)
Definition escape_char (c : N) : str :=
  if c =? Json.quote then [Json.backslash; Json.quote]
  else if c =? Json.backslash then [Json.backslash; Json.backslash]
  else if c =? 10 then [Json.backslash; ch "n"]
  else if c =? 13 then [Json.backslash; ch "r"]
  else if c =? 9 then [Json.backslash; ch "t"]
  else if c =? 8 then [Json.backslash; ch "b"]
  else if c =? 12 then [Json.backslash; ch "f"]
  else if c <? 32 then
    [Json.backslash; ch "u"; ch "0"; ch "0"; hex_digit (c / 16); hex_digit (c mod 16)]
  else [c].

Definition encode_basestring (s : str) : str :=
  Json.quote :: flat_map escape_char s ++ [Json.quote].

(** A line break followed by the indentation of a nesting level. *)
Definition newline_indent (level : nat) : str := 10 :: repeat 32 (2 * level).

Fixpoint join (sep : str) (items : list str) : str :=
  match items with
  | [] => []
  | [x] => x
  | x :: rest => x ++ sep ++ join sep rest
  end.

(** The encoder: [level] is the current nesting level, [budget] the nesting
    still allowed before the interpreter's recursion limit, beyond which the
    behaviour is not modelled. *)
Fixpoint iterencode (budget level : nat) (o : json) {struct o} : outcome str :=
  match o with
  | JNull => Ok (lit "null")
  | JBool true => Ok (lit "true")
  | JBool false => Ok (lit "false")
  | JInt z => Ok (Str.str_of_Z z)
  | JFloat _ => Unmodelled "float repr"
  | JStr s => Ok (encode_basestring s)
  | JList [] => Ok (lit "[]")
  | JList l =>
      match budget with
      | O => Unmodelled "recursion limit"
      | S budget' =>
          items <-
            (fix each (l : list json) : outcome (list str) :=
               match l with
               | [] => Ok []
               | x :: rest =>
                   s <- iterencode budget' (S level) x ;;
                   r <- each rest ;;
                   Ok (s :: r)
               end) l ;;
          Ok (lit "[" ++ newline_indent (S level)
              ++ join (lit "," ++ newline_indent (S level)) items
              ++ newline_indent level ++ lit "]")
      end
  | JDict [] => Ok (lit "{}")
  | JDict d =>
      match budget with
      | O => Unmodelled "recursion limit"
      | S budget' =>
          items <-
            (fix each (d : list (str * json)) : outcome (list str) :=
               match d with
               | [] => Ok []
               | (k, v) :: rest =>
                   s <- iterencode budget' (S level) v ;;
                   r <- each rest ;;
                   Ok ((encode_basestring k ++ lit ": " ++ s) :: r)
               end) d ;;
          Ok (lit "{" ++ newline_indent (S level)
              ++ join (lit "," ++ newline_indent (S level)) items
              ++ newline_indent level ++ lit "}")
      end
  end.

Definition dumps (o : json) : outcome str := iterencode Json.nesting_limit 0 o.

End Dumps.

(* ================================================================= *)
(** ** The interactive loop: [main], lines 184-262 *)

Module Main.

(** [s.endswith(suffix)]. *)
Definition endswith (suffix s : str) : bool := Str.startswith (rev suffix) (rev s).

(** [s.lower()], left unmodelled outside Latin-1. *)
Definition lower_text (s : str) : outcome str :=
  if forallb (fun c => c <? 256) s then Ok (Str.lower s)
  else Unmodelled "str.lower beyond Latin-1".

Definition is_surrogate (c : N) : bool := (55296 <=? c) && (c <=? 57343).

(** [print(s)] for a text computed from the input: what the stream does with
    a lone surrogate depends on its error handler and is not modelled. *)
Definition print_text (s : str) : io unit :=
  if existsb is_surrogate s then lift (Unmodelled "encoding of a lone surrogate")
  else print s.

Definition separator : str := [10] ++ repeat (ch "=") 60 ++ [10].

Definition exit_words : list str := map lit ["exit"; "quit"; "q"]%string.
Definition choices : list str := map lit ["1"; "2"]%string.

Definition source_prompt : str :=
  lit "Enter VLESS URL, VPN URL, JSON, or JSON file path: ".
Definition hint : str :=
  [10] ++ lit "Enter 'exit' or 'quit' (or press Ctrl+C) to close the program.".
Definition goodbye_interrupted : str :=
  [10; 10] ++ lit "Program interrupted by user. Goodbye!".

Definition interrupt_only (c : exn_class) : bool :=
  match c with
  | KeyboardInterrupt => true
  | _ => false
  end.

(** Lines 220-229: ask until the choice is [1] or [2]; [None] when the
    prompt is interrupted and [main] returns (line 225).  Every round reads
    one line, so the number of lines waiting bounds the rounds. *)
Fixpoint ask_choice (rounds : nat) : io (option str) :=
  match rounds with
  | O => lift (Unmodelled "fuel")
  | S rounds' =>
      answer <~ io_try
        (line <~ input (lit "Enter choice (1 or 2): ") ;; ret (Some (Str.strip line)))
        interrupt_only
        (fun _ => _ <~ print goodbye_interrupted ;; ret None) ;;
      match answer with
      | None => ret None
      | Some choice =>
          if existsb (str_eqb choice) choices then ret (Some choice)
          else _ <~ print (lit "Invalid choice. Please enter 1 or 2.") ;;
               ask_choice rounds'
      end
  end.

(** How the [try] statement of lines 207-262 is left: on to the next round of
    the loop, or out of [main] by the [return] of line 225. *)
Inductive flow : Type :=
  | Continue
  | Return.

Section Environment.

(** [str(e)] for a caught exception, and [os.path.exists]. *)
Variable exn_text : exn -> str.
Variable path_exists : str -> bool.

(** Lines 208-253: the body of the [try] statement. *)
Definition convert (src : str) : io flow :=
  if Str.startswith (lit "vless://") src then
    result <~ lift (from_vless_url src) ;;
    _ <~ print separator ;;
    text <~ lift (Dumps.dumps result) ;;
    _ <~ print_text text ;;
    ret Continue
  else if Str.startswith (lit "vpn://") src then
    _ <~ print ([10] ++ lit "Choose conversion type:") ;;
    _ <~ print (lit "1. vpn:// to vless://") ;;
    _ <~ print (lit "2. vpn:// to json") ;;
    choice <~ (fun w => ask_choice (S (List.length (stdin w))) w) ;;
    match choice with
    | None => ret Return
    | Some choice =>
        config <~ lift (decode_vpn_url src) ;;
        _ <~ print separator ;;
        if str_eqb choice (lit "1") then
          vless_url <~ to_vless_url config ;;
          _ <~ print_text vless_url ;;
          ret Continue
        else
          text <~ lift (Dumps.dumps config) ;;
          _ <~ print_text text ;;
          ret Continue
    end
  else
    is_file <~ lift (if path_exists src
                     then low <- lower_text src ;; Ok (endswith (lit ".json") low)
                     else Ok false) ;;
    data <~ lift (if is_file : bool then Unmodelled "file contents"
                  else Json.loads src) ;;
    _ <~ print separator ;;
    vless_url <~ to_vless_url data ;;
    _ <~ print_text vless_url ;;
    ret Continue.

(** Lines 255-262: the handlers, in the order they are written.  The classes
    of the model have no [FileNotFoundError], which only the reading of a
    file raises. *)
Definition handle (e : exn) : io flow :=
  if is_ValueError (class_of e) then
    _ <~ print_text (lit "Error: " ++ exn_text e) ;; ret Continue
  else
    match class_of e with
    | JSONDecodeError =>
        _ <~ print (lit "Error: Input data is neither valid JSON, VLESS URL, nor VPN URL.") ;;
        ret Continue
    | _ => _ <~ print_text (lit "Error: " ++ exn_text e) ;; ret Continue
    end.

(** Lines 190-262: the [while True] loop.  Every round reads at least one
    line, so the number of lines waiting bounds the rounds. *)
Fixpoint loop (rounds : nat) : io unit :=
  match rounds with
  | O => lift (Unmodelled "fuel")
  | S rounds' =>
      _ <~ print hint ;;
      entered <~ io_try
        (line <~ input source_prompt ;; ret (Some (Str.strip line)))
        interrupt_only
        (fun _ => _ <~ print goodbye_interrupted ;; ret None) ;;
      match entered with
      | None => ret tt
      | Some src =>
          low <~ lift (lower_text src) ;;
          if existsb (str_eqb low) exit_words then print (lit "Goodbye!")
          else
            match src with
            | [] => _ <~ print (lit "Empty input. Please try again.") ;; loop rounds'
            | _ =>
                next <~ io_try (convert src) is_Exception handle ;;
                match next with
                | Continue => loop rounds'
                | Return => ret tt
                end
            end
      end
  end.

Definition session : io unit := fun w => loop (S (List.length (stdin w))) w.

Definition main : io unit :=
  _ <~ print (lit "VlessLinker v1.0") ;;
  _ <~ print (lit "VLess " ++ [8596] ++ lit " Json Converter (with VPN:// support)") ;;
  _ <~ print (repeat (ch "=") 60) ;;
  session.

End Environment.

End Main.

(* ================================================================= *)
(** ** Vocabulary of the specification *)

(** A path into a JSON value: object keys and array positions. *)
Inductive path_step : Type :=
  | Key (k : string)
  | Index (i : nat).

Fixpoint json_path (p : list path_step) (j : json) : option json :=
  match p with
  | [] => Some j
  | Key k :: p' =>
      match j with
      | JDict d =>
          match dict_lookup (lit k) d with
          | Some v => json_path p' v
          | None => None
          end
      | _ => None
      end
  | Index i :: p' =>
      match j with
      | JList l =>
          match nth_error l i with
          | Some v => json_path p' v
          | None => None
          end
      | _ => None
      end
  end.

(** [containers[0].xray.last_config]. *)
Definition last_config_path : list path_step :=
  [Key "containers"; Index 0; Key "xray"; Key "last_config"].

(** The places [to_vless_url] descends into. *)
Definition outbound_path : list path_step := [Key "outbounds"; Index 0].
Definition vnext_path : list path_step :=
  outbound_path ++ [Key "settings"; Key "vnext"; Index 0].
Definition user_path : list path_step := vnext_path ++ [Key "users"; Index 0].
Definition stream_path : list path_step := outbound_path ++ [Key "streamSettings"].
Definition reality_path : list path_step := stream_path ++ [Key "realitySettings"].

Definition is_object_at (p : list path_step) (data : json) : bool :=
  match json_path p data with
  | Some (JDict _) => true
  | _ => false
  end.

(** A field with the default the program reads it with. *)
Definition field (p : list path_step) (k : string) (default : json) (data : json)
    : json :=
  match json_path (p ++ [Key k]) data with
  | Some v => v
  | None => default
  end.

(** The text an f-string shows for a value. *)
Definition text_of (v : json) : str :=
  match py_str v with
  | Ok s => s
  | _ => []
  end.

(** The optional query parameters of a [vless://] URI, in the order the
    specification fixes, each with the value the configuration holds. *)
Definition optional_fields (data : json) : list (string * json) :=
  [("flow", field user_path "flow" (JStr []) data);
   ("security", field stream_path "security" (JStr (lit "none")) data);
   ("sni", field reality_path "serverName" (JStr []) data);
   ("fp", field reality_path "fingerprint" (JStr []) data);
   ("pbk", field reality_path "publicKey" (JStr []) data);
   ("sid", field reality_path "shortId" (JStr []) data);
   ("spx", field reality_path "spiderX" (JStr []) data);
   ("type", field stream_path "network" (JStr (lit "tcp")) data)]%string.

Definition query_param (kv : string * json) : str :=
  lit "&" ++ lit (fst kv) ++ lit "=" ++ text_of (snd kv).

(** The URI of a configuration for a given display name. *)
Definition vless_uri (data : json) (name : str) : str :=
  lit "vless://" ++ text_of (field user_path "id" JNull data)
  ++ lit "@" ++ text_of (field vnext_path "address" JNull data)
  ++ lit ":" ++ text_of (field vnext_path "port" JNull data)
  ++ lit "?encryption=none"
  ++ flat_map query_param (filter (fun kv => truthy (snd kv)) (optional_fields data))
  ++ lit "#" ++ name.

(** The big-endian four-byte prefix of a [vpn://] payload. *)
Definition be32 (n : N) : bytes :=
  [n / 16777216 mod 256; n / 65536 mod 256; n / 256 mod 256; n mod 256].

(** Characters a field value must avoid to survive being written into a
    URI unescaped and read back: tab, line breaks, [#], [&], [+] and [%]. *)
Definition plain_char (c : N) : bool :=
  negb (Url.unsafe_byte c) && negb (c =? ch "#") && negb (c =? ch "&")
  && negb (c =? ch "+") && negb (c =? ch "%").

Definition plain (v : json) : bool :=
  match v with
  | JStr s => forallb plain_char s
  | _ => false
  end.

Definition is_byte (b : N) : Prop := b < 256.

(** A port text that [parsed.port] accepts: ASCII digits, within the
    interpreter's limit on digits, denoting at most 65535. *)
Definition valid_port (p : str) : bool :=
  forallb Str.is_ascii_digit p && Nat.leb (List.length p) 4300
  && (Str.digits_value p <=? 65535)%Z.

(** The configuration [from_vless_url] builds from the parts of a URI. *)
Definition vless_config (uuid address : option str) (port : Z)
    (flow security server_name fingerprint public_key short_id spiderx network : str)
    : json :=
  JDict
    [(lit "inbounds",
      JList [JDict [(lit "listen", JStr (lit "127.0.0.1"));
                    (lit "port", JInt 10808);
                    (lit "protocol", JStr (lit "socks"));
                    (lit "settings", JDict [(lit "udp", JBool true)])]]);
     (lit "log", JDict [(lit "loglevel", JStr (lit "error"))]);
     (lit "outbounds",
      JList [JDict
        [(lit "protocol", JStr (lit "vless"));
         (lit "settings",
          JDict [(lit "vnext",
            JList [JDict
              [(lit "address", opt_str address);
               (lit "port", JInt port);
               (lit "users",
                JList [JDict [(lit "id", opt_str uuid);
                              (lit "encryption", JStr (lit "none"));
                              (lit "flow", JStr flow)]])]])]);
         (lit "streamSettings",
          JDict [(lit "network", JStr network);
                 (lit "security", JStr security);
                 (lit "realitySettings",
                  JDict [(lit "serverName", JStr server_name);
                         (lit "fingerprint", JStr fingerprint);
                         (lit "publicKey", JStr public_key);
                         (lit "shortId", JStr short_id);
                         (lit "spiderX", JStr spiderx)])])]])].

(** JSON text, written with ['] for the double quote. *)
Definition json_text (s : string) : str := Str.replace (ch "'") Json.quote (lit s).

(** [bs] is a UTF-8 serialization of [j]: decoded and parsed, it gives [j]. *)
Definition serializes (bs : bytes) (j : json) : Prop :=
  (text <- Utf8.decode bs ;; Json.loads text) = Ok j.

(** The compressed reading of a buffer fails the way lines 48-49 catch. *)
Definition compressed_reading_fails (raw_data : bytes) : Prop :=
  exists e, try_zlib raw_data = Raise e
            /\ (class_of e = ZlibError \/ is_ValueError (class_of e) = true).

(* ================================================================= *)
(** * Auxiliary definitions of the statements and proofs *)

(** The numbers below [n], for checks by enumeration. *)
Definition below (n : nat) : list N := map N.of_nat (seq 0 n).

(** The character the decoder sees for the sextet [v]. *)
Definition b64c (v : N) : N := Base64.urlsafe_translate (Base64.urlsafe_char v).

(** Lines 24-26: the payload right-padded to a multiple of four. *)
Definition pad4 (e : str) : str :=
  match (List.length e mod 4)%nat with
  | O => e
  | _ => e ++ repeat (ch "=") (4 - List.length e mod 4)
  end.

(** What [decode_vpn_url] does once the payload is decoded to bytes. *)
Definition decode_raw (raw_data : bytes) : outcome json :=
  json_data <- parse_raw_data raw_data ;; extract_nested json_data.


(** A JSON value with the given [containers[0].xray.last_config] entry. *)
Definition nested (last_config : json) : json :=
  JDict [(lit "containers",
          JList [JDict [(lit "xray", JDict [(lit "last_config", last_config)])]])].

(** A small configuration: its text, the zlib stream of that text, and its
    value. *)
Definition sample_body : bytes := Utf8.encode (json_text "{'log':{'loglevel':'error'}}").
Definition sample_packed : bytes :=
  [120; 156; 171; 86; 202; 201; 79; 87; 178; 170; 6; 81; 57; 169; 101; 169; 57;
   74; 86; 74; 169; 69; 69; 249; 69; 74; 181; 181; 0; 141; 13; 9; 247].
Definition sample_json : json :=
  JDict [(lit "log", JDict [(lit "loglevel", JStr (lit "error"))])].

(** A wrapper object that nests the empty configuration. *)
Definition wrapper_text : str := json_text "{'containers':[{'xray':{'last_config':'{}'}}]}".
Definition wrapper_json : json :=
  JDict [(lit "containers",
          JList [JDict [(lit "xray", JDict [(lit "last_config", JStr (lit "{}"))])]])].
Definition wrapper_packed : bytes :=
  [120; 156; 171; 86; 74; 206; 207; 43; 73; 204; 204; 75; 45; 42; 86; 178; 138;
   174; 86; 170; 40; 74; 172; 84; 178; 170; 86; 202; 73; 44; 46; 137; 7; 202;
   165; 101; 166; 43; 89; 41; 85; 215; 42; 213; 214; 198; 214; 2; 0; 140; 175;
   16; 218].

(** What follows the pure head of [to_vless_url]. *)
Definition after_head (r : outcome (str * json)) : io str :=
  fun w => match r with
           | Ok (url, address) => url_tail url address w
           | Raise e => (Raise e, w)
           | Unmodelled y => (Unmodelled y, w)
           end.

(** The formatting part of [url_head] (lines 158-174). *)
Definition format_head (uuid address port flow network security server_name
    fingerprint public_key short_id spiderx : json) : outcome (str * json) :=
  url <- (u <- py_str uuid ;; a <- py_str address ;; p <- py_str port ;;
          Ok (lit "vless://" ++ u ++ lit "@" ++ a ++ lit ":" ++ p
              ++ lit "?encryption=none")) ;;
  url <- append_if flow (lit "&flow=") url ;;
  url <- append_if security (lit "&security=") url ;;
  url <- append_if server_name (lit "&sni=") url ;;
  url <- append_if fingerprint (lit "&fp=") url ;;
  url <- append_if public_key (lit "&pbk=") url ;;
  url <- append_if short_id (lit "&sid=") url ;;
  url <- append_if spiderx (lit "&spx=") url ;;
  url <- append_if network (lit "&type=") url ;;
  Ok (url, address).

(** The four objects lines 138-141 descend into are there. *)
Definition required_objects (data : json) : bool :=
  is_object_at outbound_path data && is_object_at vnext_path data
  && is_object_at user_path data && is_object_at stream_path data.

(** The prompt [get_vless_name] shows for the address [a]. *)
Definition name_prompt (a : str) : str :=
  lit "Enter VLESS name (leave empty to use '" ++ a ++ lit "'): ".

(** The configuration of [vless://u@h:443?type=ws&security=tls&sni=example.com]. *)
Definition sample_config : json :=
  vless_config (Some (lit "u")) (Some (lit "h")) 443
               [] (lit "tls") (lit "example.com") [] [] [] [] (lit "ws").

(** A console with the given replies waiting and nothing written yet. *)
Definition console_of (events : list stdin_event) : console :=
  {| stdin := events; stdout := [] |}.

(** Characters of a netloc that [urlsplit] accepted without brackets. *)
Definition netloc_char (c : N) : bool :=
  (c <? 256) && negb (Url.unsafe_byte c) && negb (Url.netloc_delim c)
  && negb (c =? ch "[") && negb (c =? ch "]").
Definition user_char (c : N) : bool := netloc_char c && negb (c =? ch ":").
Definition host_char (c : N) : bool :=
  netloc_char c && negb (c =? ch ":") && negb (c =? ch "@").
(** Characters of a query that survive [clean_url] and the fragment split. *)
Definition query_char (c : N) : bool :=
  negb (Url.unsafe_byte c) && negb (c =? ch "#").

(** Characters [clean_url] keeps. *)
Definition clean (c : N) : bool := negb (Url.unsafe_byte c).

(** [digits_value] from an accumulator. *)
Definition dv (acc : Z) (s : str) : Z :=
  fold_left (fun a c => (10 * a + Z.of_N (c - 48))%Z) s acc.

(** The shape of the URIs [to_vless_url] writes: user [u], address [a], port
    digits [d], query [q] and display name. *)
Definition written (u a d q name : str) : str :=
  lit "vless" ++ ch ":" :: 47 :: 47
  :: (u ++ ch "@" :: a ++ ch ":" :: d) ++ ch "?" :: q ++ ch "#" :: name.

(** The truth value of a [str]. *)
Definition nonempty (s : str) : bool :=
  match s with
  | [] => false
  | _ => true
  end.

(** Characters of a key: plain, and no [=]. *)
Definition key_char (c : N) : bool := plain_char c && negb (c =? ch "=").

(** One written parameter, and the query of a list of them: blank values
    are left out (lines 159-174). *)
Definition param (kv : str * str) : str := ch "&" :: fst kv ++ ch "=" :: snd kv.

Definition written_query (kvs : list (str * str)) : str :=
  lit "encryption=none" ++ flat_map param (filter (fun kv => nonempty (snd kv)) kvs).

(** Names and values that are written and read back unchanged. *)
Definition plain_pairs (kvs : list (str * str)) : Prop :=
  Forall (fun kv => forallb key_char (fst kv) = true
                    /\ forallb plain_char (snd kv) = true) kvs.

(** A host that [parsed.hostname] returns as it is written. *)
Definition stable_host (a : str) : Prop :=
  a <> [] /\
  match Str.partition (ch "%") a with
  | Some (host, _) => Str.lower host = host
  | None => Str.lower a = a
  end.

(** The optional parameters in the order of lines 159-174. *)
Definition written_fields (flow security sni fp pbk sid spx network : str)
    : list (string * str) :=
  [("flow", flow); ("security", security); ("sni", sni); ("fp", fp);
   ("pbk", pbk); ("sid", sid); ("spx", spx); ("type", network)]%string.

(** The same, with the names as [str]. *)
Definition named (l : list (string * str)) : list (str * str) :=
  map (fun kv => (lit (fst kv), snd kv)) l.

(** The configuration of [vless://u@h:443] with a given [sni]. *)
Definition config_with_sni (sni : str) : json :=
  vless_config (Some (lit "u")) (Some (lit "h")) 443
               [] (lit "none") sni [] [] [] [] (lit "tcp").

Definition json_error (e : exn) : Prop :=
  class_of e = JSONDecodeError \/ class_of e = ValueError.

Definition zlib_error (e : exn) : Prop := class_of e = ZlibError.

(** Lines 69-125: what [from_vless_url] makes of the parsed URI. *)
Definition read_parsed (parsed : Url.parse_result) : outcome json :=
  let uuid := Url.username parsed in
  let address := Url.hostname parsed in
  p <- Url.port parsed ;;
  port <- py_int p ;;
  let params := Url.parse_qs (Url.query parsed) in
  network <- first_value params (lit "type") (lit "tcp") ;;
  security <- first_value params (lit "security") (lit "none") ;;
  public_key <- first_value params (lit "pbk") [] ;;
  server_name <- first_value params (lit "sni") [] ;;
  fingerprint <- first_value params (lit "fp") [] ;;
  short_id <- first_value params (lit "sid") [] ;;
  flow <- first_value params (lit "flow") [] ;;
  spiderx <- first_value params (lit "spx") [] ;;
  Ok (vless_config uuid address port flow security server_name fingerprint
                   public_key short_id spiderx network).

(** The value of the parameter [k] in a query: that of its first non-blank
    occurrence, or the default. *)
Definition query_value (qs k default : str) : str :=
  match find (fun p => str_eqb (fst p) k) (Url.parse_qsl qs) with
  | Some p => snd p
  | None => default
  end.

Definition values_of (k : str) (pairs : list (str * str)) : list str :=
  map snd (filter (fun p => str_eqb (fst p) k) pairs).

(** [urlsplit] once the scheme is split off. *)
Definition urlsplit_rest (scheme url : str) : outcome Url.parse_result :=
  r <- Url.split_netloc url ;;
  let '(netloc, url) := r in
  let '(url, fragment) := Url.split_at (ch "#") url in
  let '(url, query) := Url.split_at (ch "?") url in
  _ <- Url.checknetloc netloc ;;
  Ok (Url.ParseResult scheme netloc url [] query fragment).

(** A scheme as [urlsplit] recognises it: a letter, then letters, digits,
    [+], [-] and [.]. *)
Definition valid_scheme (s : str) : bool :=
  match s with
  | c0 :: _ => Str.is_ascii_alpha c0 && forallb Url.scheme_char s
  | [] => false
  end.

(** The line [get_vless_name] prints when the prompt is interrupted. *)
Definition interrupted_line : str :=
  ([10; 10] ++ lit "Program interrupted by user. Using server address as name.")
  ++ [10].

(** The display name for a reply: the reply stripped, or the address when
    nothing is left of it. *)
Definition chosen_name (reply a : str) : str :=
  match Str.strip reply with
  | [] => a
  | name => name
  end.

(** One round of the loop, with what follows it as a parameter. *)
Definition round (exn_text : exn -> str) (path_exists : str -> bool)
    (next : io unit) : io unit :=
  _ <~ print Main.hint ;;
  entered <~ io_try
    (line <~ input Main.source_prompt ;; ret (Some (Str.strip line)))
    Main.interrupt_only
    (fun _ => _ <~ print Main.goodbye_interrupted ;; ret None) ;;
  match entered with
  | None => ret tt
  | Some src =>
      low <~ lift (Main.lower_text src) ;;
      if existsb (str_eqb low) Main.exit_words then print (lit "Goodbye!")
      else
        match src with
        | [] => _ <~ print (lit "Empty input. Please try again.") ;; next
        | _ =>
            flow <~ io_try (Main.convert path_exists src) is_Exception
                           (Main.handle exn_text) ;;
            match flow with
            | Main.Continue => next
            | Main.Return => ret tt
            end
        end
  end.

(** What a round has on the console once the source line is read. *)
Definition asked (out : list str) : list str :=
  out ++ [Main.hint ++ [10]; Main.source_prompt].

Definition line_of (s : str) : str := s ++ [10].

(** [w'] is [w] after some of its waiting events were read. *)
Definition consumes (w w' : console) : Prop :=
  exists used, stdin w = used ++ stdin w'.

Definition steady {A} (m : io A) : Prop := forall w, consumes w (snd (m w)).

(** What the choice loop writes for the replies it refuses, up to the prompt
    that is answered. *)
Definition reprompts (invalid : list str) : list str :=
  flat_map (fun _ : str => [lit "Enter choice (1 or 2): ";
                            line_of (lit "Invalid choice. Please enter 1 or 2.")])
           invalid
  ++ [lit "Enter choice (1 or 2): "].

(** The lines the menu of a [vpn://] source prints, with the rounds of its
    question. *)
Definition menu (invalid : list str) : list str :=
  [line_of ([10] ++ lit "Choose conversion type:");
   line_of (lit "1. vpn:// to vless://");
   line_of (lit "2. vpn:// to json")]
  ++ reprompts invalid.

(** An event that makes the loop return: an interrupt, or one of the exit
    words. *)
Definition leaves (ev : stdin_event) : Prop :=
  match ev with
  | CtrlC => True
  | Line line =>
      exists low, Main.lower_text (Str.strip line) = Ok low
                  /\ In low Main.exit_words
  end.

(** An [io] computation that, when it returns, says [Continue]. *)
Definition goes_on (m : io Main.flow) : Prop :=
  forall w r w', m w = (Ok r, w') -> r = Main.Continue.

(** An environment for the examples: exceptions without text, no files. *)
Definition no_text (e : exn) : str := [].
Definition no_files (path : str) : bool := false.

(* ================================================================= *)
(** * Proofs *)

(** ** Outcomes and strings *)

Lemma bind_Ok_inv {A B} (m : outcome A) (k : A -> outcome B) (b : B) :
  bind m k = Ok b -> exists a, m = Ok a /\ k a = Ok b.
Proof. destruct m; simpl; intros H; try discriminate; eauto. Qed.

Lemma str_eqb_eq (a b : str) : str_eqb a b = true <-> a = b.
Proof.
  revert b; induction a as [|x a IH]; intros [|y b]; simpl; split; intros H;
    try reflexivity; try discriminate.
  - apply andb_true_iff in H as [H1 H2]. apply N.eqb_eq in H1. apply IH in H2.
    now subst.
  - injection H as -> ->. rewrite N.eqb_refl. simpl. now apply IH.
Qed.

Lemma str_eqb_refl (a : str) : str_eqb a a = true.
Proof. now apply str_eqb_eq. Qed.

Lemma startswith_app (p s : str) : Str.startswith p (p ++ s) = true.
Proof. induction p as [|x p IH]; simpl; [reflexivity|]. now rewrite N.eqb_refl. Qed.

Lemma skipn_app_exact {A} (p s : list A) : skipn (List.length p) (p ++ s) = s.
Proof. induction p; simpl; auto. Qed.

(** *** Stripping *)



Lemma lstrip_with_head (p : N -> bool) (x : N) (s : str) :
  p x = false -> Str.lstrip_with p (x :: s) = x :: s.
Proof. intros H; simpl; now rewrite H. Qed.





Lemma strip_no_space (s : str) :
  Forall (fun c => Str.isspace c = false) s -> Str.strip s = s.
Proof.
  intros H. unfold Str.strip.
  assert (L : forall t, Forall (fun c => Str.isspace c = false) t ->
                        Str.lstrip_with Str.isspace t = t).
  { intros [|x t] Ht; [reflexivity|]. inversion Ht; subst.
    now apply lstrip_with_head. }
  rewrite (L s H). unfold Str.rstrip_with.
  rewrite L; [apply rev_involutive|]. now apply Forall_rev.
Qed.

(** ** Base64: decoding inverts the RFC 4648 encoder *)

Lemma below_In (n : nat) (v : N) : v < N.of_nat n -> In v (below n).
Proof.
  intros H. unfold below. rewrite <- (N2Nat.id v). apply in_map.
  apply in_seq. lia.
Qed.

Lemma forall_below (n : nat) (P : N -> bool) :
  forallb P (below n) = true -> forall v, v < N.of_nat n -> P v = true.
Proof.
  intros H v Hv. rewrite forallb_forall in H. apply H. now apply below_In.
Qed.

Lemma forall_below2 (n m : nat) (P : N -> N -> bool) :
  forallb (fun a => forallb (P a) (below m)) (below n) = true ->
  forall a b, a < N.of_nat n -> b < N.of_nat m -> P a b = true.
Proof.
  intros H a b Ha Hb.
  apply (forall_below m (P a)); [|exact Hb].
  now apply (forall_below n (fun a => forallb (P a) (below m))).
Qed.

Lemma b64c_decodes (v : N) :
  v < 64 -> (b64c v =? ch "=") = false /\ Base64.table_a2b (b64c v) = Some v.
Proof.
  intros H.
  assert (E : (negb (b64c v =? ch "=")
               && match Base64.table_a2b (b64c v) with
                  | Some w => w =? v
                  | None => false
                  end) = true).
  { revert v H. apply (forall_below 64). vm_compute. reflexivity. }
  apply andb_true_iff in E as [E1 E2]. split.
  - now apply negb_true_iff.
  - destruct (Base64.table_a2b (b64c v)); [|discriminate].
    apply N.eqb_eq in E2. now subst.
Qed.

Lemma b64c_not_space (v : N) : v < 64 -> Str.isspace (Base64.urlsafe_char v) = false.
Proof.
  intros H. apply negb_true_iff. revert v H. apply (forall_below 64).
  vm_compute. reflexivity.
Qed.

(** One data character moves the decoder's state as follows. *)
Lemma a2b_step (v : N) (rest : bytes) (q l p : N) :
  v < 64 ->
  Base64.a2b_loop (b64c v :: rest) q l p =
    if q =? 0 then Base64.a2b_loop rest 1 v 0
    else if q =? 1 then
      map_ok (cons (N.lor (N.shiftl l 2 mod 256) (N.shiftr v 4)))
             (Base64.a2b_loop rest 2 (N.land v 15) 0)
    else if q =? 2 then
      map_ok (cons (N.lor (N.shiftl l 4 mod 256) (N.shiftr v 2)))
             (Base64.a2b_loop rest 3 (N.land v 3) 0)
    else map_ok (cons (N.lor (N.shiftl l 6 mod 256) v)) (Base64.a2b_loop rest 0 0 0).
Proof.
  intros H. destruct (b64c_decodes v H) as [E1 E2].
  cbn [Base64.a2b_loop]. now rewrite E1, E2.
Qed.

(** The bit arithmetic of a group, checked on all byte values. *)
Lemma sextet_bounds (a b : N) :
  a < 256 -> b < 256 ->
  a / 4 < 64 /\ (a mod 4) * 16 + b / 16 < 64
  /\ (a mod 16) * 4 + b / 64 < 64 /\ a mod 64 < 64.
Proof.
  intros Ha Hb.
  assert (E : ((a / 4 <? 64) && ((a mod 4) * 16 + b / 16 <? 64)
               && ((a mod 16) * 4 + b / 64 <? 64) && (a mod 64 <? 64)) = true).
  { revert a b Ha Hb. apply (forall_below2 256 256). vm_compute. reflexivity. }
  repeat (apply andb_true_iff in E as [E ?]).
  repeat split; now apply N.ltb_lt.
Qed.

Lemma group_bits (a b : N) :
  a < 256 -> b < 256 ->
  N.lor (N.shiftl (a / 4) 2 mod 256) (N.shiftr ((a mod 4) * 16 + b / 16) 4) = a
  /\ N.land ((a mod 4) * 16 + b / 16) 15 = b / 16
  /\ N.lor (N.shiftl (a / 16) 4 mod 256) (N.shiftr ((a mod 16) * 4 + b / 64) 2) = a
  /\ N.land ((a mod 16) * 4 + b / 64) 3 = b / 64
  /\ N.lor (N.shiftl (a / 64) 6 mod 256) (a mod 64) = a.
Proof.
  intros Ha Hb.
  assert (E : ((N.lor (N.shiftl (a / 4) 2 mod 256)
                      (N.shiftr ((a mod 4) * 16 + b / 16) 4) =? a)
               && (N.land ((a mod 4) * 16 + b / 16) 15 =? b / 16)
               && (N.lor (N.shiftl (a / 16) 4 mod 256)
                         (N.shiftr ((a mod 16) * 4 + b / 64) 2) =? a)
               && (N.land ((a mod 16) * 4 + b / 64) 3 =? b / 64)
               && (N.lor (N.shiftl (a / 64) 6 mod 256) (a mod 64) =? a)) = true).
  { revert a b Ha Hb. apply (forall_below2 256 256). vm_compute. reflexivity. }
  repeat (apply andb_true_iff in E as [E ?]).
  repeat split; now apply N.eqb_eq.
Qed.

Lemma list_ind3 {A} (P : list A -> Prop) :
  P [] -> (forall a, P [a]) -> (forall a b, P [a; b]) ->
  (forall a b c l, P l -> P (a :: b :: c :: l)) ->
  forall l, P l.
Proof.
  intros H0 H1 H2 H3.
  fix IH 1. intros [|a [|b [|c l]]].
  - exact H0.
  - apply H1.
  - apply H2.
  - apply H3, IH.
Qed.

Theorem a2b_base64_encode (raw : bytes) :
  Forall is_byte raw ->
  Base64.a2b_base64 (map Base64.urlsafe_translate (Base64.urlsafe_b64encode raw))
  = Ok raw.
Proof.
  unfold Base64.a2b_base64.
  induction raw as [|a|a b|a b c raw IH] using list_ind3; intros H.
  - reflexivity.
  - inversion H as [|? ? Ha _]; subst. unfold is_byte in Ha.
    assert (H0 : (0:N) < 256) by lia.
    destruct (sextet_bounds a 0 Ha H0) as (S1 & S2 & _).
    destruct (group_bits a 0 Ha H0) as (G1 & _).
    cbn [Base64.urlsafe_b64encode map].
    change (N.div 0 16) with 0 in *. rewrite N.add_0_r in *.
    fold (b64c (a / 4)). fold (b64c (a mod 4 * 16)).
    rewrite a2b_step by exact S1. cbn [N.eqb].
    rewrite a2b_step by exact S2. cbn [N.eqb Pos.eqb].
    rewrite G1. reflexivity.
  - inversion H as [|? ? Ha H']; subst. inversion H' as [|? ? Hb _]; subst.
    unfold is_byte in Ha, Hb.
    assert (H0 : (0:N) < 256) by lia.
    destruct (sextet_bounds a b Ha Hb) as (S1 & S2 & _).
    destruct (sextet_bounds b 0 Hb H0) as (_ & _ & S3 & _).
    destruct (group_bits a b Ha Hb) as (G1 & G2 & _).
    destruct (group_bits b 0 Hb H0) as (_ & _ & G3 & _).
    cbn [Base64.urlsafe_b64encode map].
    change (N.div 0 64) with 0 in *. rewrite N.add_0_r in *.
    fold (b64c (a / 4)). fold (b64c (a mod 4 * 16 + b / 16)).
    fold (b64c (b mod 16 * 4)).
    rewrite a2b_step by exact S1. cbn [N.eqb].
    rewrite a2b_step by exact S2. cbn [N.eqb Pos.eqb].
    rewrite a2b_step by exact S3. cbn [N.eqb Pos.eqb].
    rewrite G1, G2, G3. reflexivity.
  - inversion H as [|? ? Ha H']; subst. inversion H' as [|? ? Hb H'']; subst.
    inversion H'' as [|? ? Hc Hr]; subst.
    unfold is_byte in Ha, Hb, Hc.
    destruct (sextet_bounds a b Ha Hb) as (S1 & S2 & _).
    destruct (sextet_bounds b c Hb Hc) as (_ & _ & S3 & _).
    destruct (sextet_bounds c c Hc Hc) as (_ & _ & _ & S4).
    destruct (group_bits a b Ha Hb) as (G1 & G2 & _).
    destruct (group_bits b c Hb Hc) as (_ & _ & G3 & G4 & _).
    destruct (group_bits c c Hc Hc) as (_ & _ & _ & _ & G5).
    cbn [Base64.urlsafe_b64encode map].
    fold (b64c (a / 4)). fold (b64c (a mod 4 * 16 + b / 16)).
    fold (b64c (b mod 16 * 4 + c / 64)). fold (b64c (c mod 64)).
    rewrite a2b_step by exact S1. cbn [N.eqb].
    rewrite a2b_step by exact S2. cbn [N.eqb Pos.eqb].
    rewrite a2b_step by exact S3. cbn [N.eqb Pos.eqb].
    rewrite a2b_step by exact S4. cbn [N.eqb Pos.eqb].
    rewrite G1, G2, G3, G4, G5, (IH Hr). reflexivity.
Qed.

Lemma urlsafe_b64encode_chars (raw : bytes) :
  Forall is_byte raw ->
  Forall (fun c => c < 128 /\ Str.isspace c = false) (Base64.urlsafe_b64encode raw).
Proof.
  assert (C : forall v, v < 64 ->
              Base64.urlsafe_char v < 128 /\ Str.isspace (Base64.urlsafe_char v) = false).
  { intros v Hv.
    assert (E : ((Base64.urlsafe_char v <? 128)
                 && negb (Str.isspace (Base64.urlsafe_char v))) = true).
    { revert v Hv. apply (forall_below 64). vm_compute. reflexivity. }
    apply andb_true_iff in E as [E1 E2]. split; [now apply N.ltb_lt|].
    now apply negb_true_iff. }
  assert (P : ch "=" < 128 /\ Str.isspace (ch "=") = false)
    by (split; [reflexivity | vm_compute; reflexivity]).
  induction raw as [|a|a b|a b c raw IH] using list_ind3; intros H.
  - constructor.
  - inversion H as [|? ? Ha _]; subst. unfold is_byte in Ha.
    assert (H0 : (0:N) < 256) by lia.
    destruct (sextet_bounds a 0 Ha H0) as (S1 & S2 & _).
    change (N.div 0 16) with 0 in *. rewrite N.add_0_r in *.
    cbn [Base64.urlsafe_b64encode]. repeat constructor; auto; apply C; auto.
  - inversion H as [|? ? Ha H']; subst. inversion H' as [|? ? Hb _]; subst.
    unfold is_byte in Ha, Hb.
    assert (H0 : (0:N) < 256) by lia.
    destruct (sextet_bounds a b Ha Hb) as (S1 & S2 & _).
    destruct (sextet_bounds b 0 Hb H0) as (_ & _ & S3 & _).
    change (N.div 0 64) with 0 in *. rewrite N.add_0_r in *.
    cbn [Base64.urlsafe_b64encode]. repeat constructor; auto; apply C; auto.
  - inversion H as [|? ? Ha H']; subst. inversion H' as [|? ? Hb H'']; subst.
    inversion H'' as [|? ? Hc Hr]; subst.
    unfold is_byte in Ha, Hb, Hc.
    destruct (sextet_bounds a b Ha Hb) as (S1 & S2 & _).
    destruct (sextet_bounds b c Hb Hc) as (_ & _ & S3 & _).
    destruct (sextet_bounds c c Hc Hc) as (_ & _ & _ & S4).
    cbn [Base64.urlsafe_b64encode].
    repeat (constructor; [apply C; assumption|]). now apply IH.
Qed.

Lemma urlsafe_b64encode_length (raw : bytes) :
  (List.length (Base64.urlsafe_b64encode raw) mod 4 = 0)%nat.
Proof.
  induction raw as [|a|a b|a b c raw IH] using list_ind3; try reflexivity.
  cbn [Base64.urlsafe_b64encode List.length].
  replace (S (S (S (S (List.length (Base64.urlsafe_b64encode raw))))))
    with (List.length (Base64.urlsafe_b64encode raw) + 1 * 4)%nat by lia.
  now rewrite Nat.Div0.mod_add.
Qed.

Lemma urlsafe_b64decode_encode (raw : bytes) :
  Forall is_byte raw ->
  Base64.urlsafe_b64decode (Base64.urlsafe_b64encode raw) = Ok raw.
Proof.
  intros H. unfold Base64.urlsafe_b64decode.
  replace (Str.isascii (Base64.urlsafe_b64encode raw)) with true.
  - now apply a2b_base64_encode.
  - symmetry. apply forallb_forall. intros c Hc.
    pose proof (urlsafe_b64encode_chars raw H) as F.
    rewrite Forall_forall in F. apply N.ltb_lt. now apply F.
Qed.

(** ** [decode_vpn_url] *)

Lemma decode_payload_unfold (x : str) :
  decode_payload (lit "vpn://" ++ x) =
    (raw_data <-
       try_except (Base64.urlsafe_b64decode (pad4 (Str.strip x))) is_Exception
         (fun e => Raise (Exn ValueError (Fmt (lit "Base64 decode error: ") e))) ;;
     parse_raw_data raw_data).
Proof.
  unfold decode_payload. rewrite startswith_app. cbn [negb].
  change 6%nat with (List.length (lit "vpn://")). rewrite skipn_app_exact.
  reflexivity.
Qed.


Lemma decode_vpn_url_encoded (raw : bytes) :
  Forall is_byte raw ->
  decode_vpn_url (lit "vpn://" ++ Base64.urlsafe_b64encode raw) = decode_raw raw.
Proof.
  intros H. unfold decode_vpn_url, decode_raw. rewrite decode_payload_unfold.
  rewrite strip_no_space.
  - unfold pad4. rewrite urlsafe_b64encode_length.
    now rewrite urlsafe_b64decode_encode.
  - eapply Forall_impl; [|apply urlsafe_b64encode_chars, H]. now intros c [_ Hc].
Qed.









(** The nested-configuration step, by whether the path is there. *)
Lemma extract_nested_cases (j : json) :
  extract_nested j = match json_path last_config_path j with
                     | Some last_config => json_loads last_config
                     | None => Ok j
                     end.
Proof.
  unfold extract_nested, last_config_path. cbn [json_path].
  destruct j as [| | | | |l|d]; try reflexivity.
  destruct (dict_lookup (lit "containers") d) as [[| | | | |[|c cs]|]|];
    try reflexivity.
  cbn [nth_error].
  destruct c as [| | | | |l|c]; try reflexivity.
  destruct (dict_lookup (lit "xray") c) as [[| | | | |l|x]|]; try reflexivity.
  now destruct (dict_lookup (lit "last_config") x).
Qed.

(** C8, as amended: the nested-configuration step (lines 55-65) returns its
    argument unchanged, without failing, on every JSON value that has no
    [containers[0].xray.last_config] entry. *)
Theorem extract_nested_identity (j : json) :
  json_path last_config_path j = None -> extract_nested j = Ok j.
Proof.
  unfold last_config_path, extract_nested. cbn [json_path].
  destruct j as [| | | | |l|d]; try reflexivity.
  destruct (dict_lookup (lit "containers") d) as [[| | | | |[|container cs]|]|];
    try reflexivity.
  cbn [nth_error].
  destruct container as [| | | | | |c]; try reflexivity.
  destruct (dict_lookup (lit "xray") c) as [[| | | | | |x]|]; try reflexivity.
  destruct (dict_lookup (lit "last_config") x); [discriminate|reflexivity].
Qed.

Lemma extract_nested_identity_witness :
  json_path last_config_path (JDict [(lit "containers", JList [])]) = None
  /\ extract_nested (JDict [(lit "containers", JList [])])
     = Ok (JDict [(lit "containers", JList [])]).
Proof.
  split; [reflexivity|]. apply extract_nested_identity. reflexivity.
Defined.

(** C8 fails as stated.  A value whose [last_config] entry is there but is
    not a JSON-encoded string -- the number 5, or the text [x] -- is not
    returned unchanged: the entry is passed to [json.loads] as it is (line
    63), which raises [TypeError] for the number and [JSONDecodeError] for
    the text. *)
Lemma extract_nested_identity_counterexample :
  json_path last_config_path (nested (JInt 5)) = Some (JInt 5)
  /\ extract_nested (nested (JInt 5))
     = Raise (Exn TypeError (Lib "the JSON object must be str, bytes or bytearray"))
  /\ json_path last_config_path (nested (JStr (lit "x"))) = Some (JStr (lit "x"))
  /\ Json.loads (lit "x") = Raise (Exn JSONDecodeError (Lib "Expecting value"))
  /\ extract_nested (nested (JStr (lit "x")))
     = Raise (Exn JSONDecodeError (Lib "Expecting value")).
Proof. repeat split; vm_compute; reflexivity. Qed.

Lemma be32_bytes (n : N) : Forall is_byte (be32 n).
Proof.
  unfold be32, is_byte. repeat constructor; apply N.mod_lt; discriminate.
Qed.

Lemma int_from_bytes_be32 (n : N) (rest : bytes) :
  n < 4294967296 -> int_from_bytes_big (firstn 4 (be32 n ++ rest)) = n.
Proof.
  intros H. cbn [be32 firstn app int_from_bytes_big fold_left].
  assert (E2 : n / 65536 = n / 256 / 256)
    by (now rewrite N.Div0.div_div).
  assert (E3 : n / 16777216 = n / 256 / 256 / 256)
    by (now rewrite !N.Div0.div_div).
  assert (B : n / 16777216 < 256)
    by (apply N.Div0.div_lt_upper_bound; exact H).
  rewrite (N.mod_small (n / 16777216) 256 B), E3, E2.
  pose proof (N.div_mod n 256 ltac:(discriminate)) as D0.
  pose proof (N.div_mod (n / 256) 256 ltac:(discriminate)) as D1.
  pose proof (N.div_mod (n / 256 / 256) 256 ltac:(discriminate)) as D2.
  lia.
Qed.

(** The compressed reading of a buffer laid out as the program expects. *)
Lemma try_zlib_container (body packed : bytes) :
  N.of_nat (List.length body) < 4294967296 ->
  Zlib.decompress packed = Ok body ->
  try_zlib (be32 (N.of_nat (List.length body)) ++ packed)
  = (text <- Utf8.decode body ;; Json.loads text).
Proof.
  intros Hlen Hz. unfold try_zlib.
  replace (Nat.leb 4 (List.length (be32 (N.of_nat (List.length body)) ++ packed)))
    with true by (rewrite length_app; reflexivity).
  rewrite int_from_bytes_be32 by exact Hlen.
  change (skipn 4 (be32 (N.of_nat (List.length body)) ++ packed)) with packed.
  rewrite Hz. cbn [bind]. now rewrite N.eqb_refl.
Qed.

(** C2, as amended: a [vpn://] token whose payload is the base64url encoding
    of a four-byte big-endian length followed by a zlib-format (RFC 1950)
    stream decodes to the JSON value [j] that the decompressed bytes
    serialize, when those bytes have the announced length; the nested
    configuration step then applies, so the outcome is [j] itself whenever
    [j] has no [containers[0].xray.last_config] path. *)
Theorem compressed_container_decodes (body packed : bytes) (j : json) :
  Forall is_byte packed ->
  N.of_nat (List.length body) < 4294967296 ->
  Zlib.decompress packed = Ok body ->
  serializes body j ->
  let token := lit "vpn://"
               ++ Base64.urlsafe_b64encode
                    (be32 (N.of_nat (List.length body)) ++ packed) in
  decode_payload token = Ok j
  /\ decode_vpn_url token = extract_nested j
  /\ (json_path last_config_path j = None -> decode_vpn_url token = Ok j).
Proof.
  intros Hb Hlen Hz Hs token.
  assert (B : Forall is_byte (be32 (N.of_nat (List.length body)) ++ packed))
    by (apply Forall_app; split; [apply be32_bytes | exact Hb]).
  assert (P : parse_raw_data (be32 (N.of_nat (List.length body)) ++ packed) = Ok j).
  { unfold parse_raw_data. rewrite (try_zlib_container body packed Hlen Hz).
    unfold serializes in Hs. now rewrite Hs. }
  assert (D : decode_payload token = Ok j).
  { pose proof (decode_vpn_url_encoded _ B) as E.
    unfold token, decode_payload in *.
    rewrite startswith_app in *. cbn [negb] in *.
    change 6%nat with (List.length (lit "vpn://")) in *.
    rewrite skipn_app_exact in *.
    rewrite strip_no_space
      by (eapply Forall_impl; [|apply urlsafe_b64encode_chars, B];
          now intros c [_ Hc]).
    rewrite urlsafe_b64encode_length, urlsafe_b64decode_encode by exact B.
    exact P. }
  assert (V : decode_vpn_url token = extract_nested j)
    by (unfold decode_vpn_url; now rewrite D).
  repeat split; [exact D | exact V |].
  intros Hp. rewrite V, extract_nested_cases, Hp. reflexivity.
Qed.

Lemma compressed_container_decodes_witness :
  decode_vpn_url (lit "vpn://"
                  ++ Base64.urlsafe_b64encode
                       (be32 (N.of_nat (List.length sample_body)) ++ sample_packed))
  = Ok sample_json.
Proof.
  assert (B : Forall is_byte sample_packed)
    by (apply Forall_forall; intros b Hb; apply N.ltb_lt;
        revert b Hb; apply forallb_forall; vm_compute; reflexivity).
  assert (L : N.of_nat (List.length sample_body) < 4294967296)
    by (vm_compute; reflexivity).
  assert (Z : Zlib.decompress sample_packed = Ok sample_body)
    by (vm_compute; reflexivity).
  assert (S : serializes sample_body sample_json) by (vm_compute; reflexivity).
  apply (compressed_container_decodes sample_body sample_packed sample_json B L Z S).
  reflexivity.
Defined.

(** C2 fails as stated, at two inputs.  The raw-deflate compression of the
    text [{}] behind its length prefix is not decoded to the empty object:
    [zlib.decompress] refuses the stream for its missing header, and the
    fallback cannot read the buffer as text.  And a zlib-compressed wrapper
    object decodes to the configuration nested in it, not to itself. *)
Lemma compressed_container_counterexample :
  (Zlib.inflate_raw [171; 174; 5; 0] = Ok (Utf8.encode (lit "{}"))
   /\ serializes (Utf8.encode (lit "{}")) (JDict [])
   /\ decode_vpn_url (lit "vpn://"
                      ++ Base64.urlsafe_b64encode (be32 2 ++ [171; 174; 5; 0]))
      = Raise (Exn ValueError
                 (Fmt (lit "JSON decode error: ")
                      (Exn UnicodeDecodeError (Lib "invalid start byte")))))
  /\ (Zlib.decompress wrapper_packed = Ok (Utf8.encode wrapper_text)
      /\ serializes (Utf8.encode wrapper_text) wrapper_json
      /\ decode_vpn_url (lit "vpn://"
                         ++ Base64.urlsafe_b64encode
                              (be32 (N.of_nat (List.length (Utf8.encode wrapper_text)))
                               ++ wrapper_packed))
         = Ok (JDict [])
      /\ wrapper_json <> JDict []).
Proof.
  repeat split; try (vm_compute; reflexivity). discriminate.
Qed.

(** C3, as amended: a [vpn://] token whose payload is the base64url encoding
    of a bare UTF-8 serialization of [j] decodes to [j] through the fallback
    when the compressed reading of the buffer fails; the nested configuration
    step then applies, so the outcome is [j] itself whenever [j] has no
    [containers[0].xray.last_config] path. *)
Theorem bare_json_decodes (raw : bytes) (j : json) :
  Forall is_byte raw ->
  serializes raw j ->
  compressed_reading_fails raw ->
  let token := lit "vpn://" ++ Base64.urlsafe_b64encode raw in
  decode_payload token = Ok j
  /\ decode_vpn_url token = extract_nested j
  /\ (json_path last_config_path j = None -> decode_vpn_url token = Ok j).
Proof.
  intros Hb Hs (e & He & Hc) token.
  assert (P : parse_raw_data raw = Ok j).
  { unfold parse_raw_data, plain_json. rewrite He. cbn [try_except].
    assert (C : match class_of e with
                | ZlibError => true
                | _ => is_ValueError (class_of e)
                end = true).
    { destruct Hc as [-> | Hc]; [reflexivity|].
      rewrite Hc. now destruct (class_of e). }
    rewrite C. unfold serializes in Hs. now rewrite Hs. }
  assert (D : decode_payload token = Ok j).
  { unfold token, decode_payload.
    rewrite startswith_app. cbn [negb].
    change 6%nat with (List.length (lit "vpn://")).
    rewrite skipn_app_exact.
    rewrite strip_no_space
      by (eapply Forall_impl; [|apply urlsafe_b64encode_chars, Hb];
          now intros c [_ Hc']).
    rewrite urlsafe_b64encode_length, urlsafe_b64decode_encode by exact Hb.
    exact P. }
  assert (V : decode_vpn_url token = extract_nested j)
    by (unfold decode_vpn_url; now rewrite D).
  repeat split; [exact D | exact V |].
  intros Hp. rewrite V, extract_nested_cases, Hp. reflexivity.
Qed.

Lemma bare_json_decodes_witness :
  decode_vpn_url (lit "vpn://" ++ Base64.urlsafe_b64encode sample_body)
  = Ok sample_json.
Proof.
  assert (B : Forall is_byte sample_body)
    by (apply Forall_forall; intros b Hb; apply N.ltb_lt;
        revert b Hb; apply forallb_forall; vm_compute; reflexivity).
  assert (S : serializes sample_body sample_json) by (vm_compute; reflexivity).
  assert (F : compressed_reading_fails sample_body).
  { eexists. split; [vm_compute; reflexivity|]. left. reflexivity. }
  apply (bare_json_decodes sample_body sample_json B S F). reflexivity.
Defined.

(** C3 fails as stated on a wrapper object: its bare serialization decodes to
    the configuration nested in it. *)
Lemma bare_json_counterexample :
  serializes (Utf8.encode wrapper_text) wrapper_json
  /\ compressed_reading_fails (Utf8.encode wrapper_text)
  /\ decode_vpn_url (lit "vpn://" ++ Base64.urlsafe_b64encode (Utf8.encode wrapper_text))
     = Ok (JDict [])
  /\ wrapper_json <> JDict [].
Proof.
  split; [vm_compute; reflexivity|]. split.
  - eexists. split; [vm_compute; reflexivity|]. left. reflexivity.
  - split; [vm_compute; reflexivity | discriminate].
Qed.

(** ** [from_vless_url] *)

(** *** Query dictionaries *)

Lemma dict_lookup_Forall {V} (P : V -> Prop) (k : str) (d : list (str * V)) (v : V) :
  Forall (fun kv => P (snd kv)) d -> dict_lookup k d = Some v -> P v.
Proof.
  induction d as [|[k' v'] d IH]; simpl; intros F H; [discriminate|].
  inversion F; subst. destruct (str_eqb k' k).
  - injection H as <-. assumption.
  - now apply IH.
Qed.

Lemma dict_set_Forall {V} (P : V -> Prop) (k : str) (v : V) (d : list (str * V)) :
  P v -> Forall (fun kv => P (snd kv)) d ->
  Forall (fun kv => P (snd kv)) (dict_set k v d).
Proof.
  intros Hv. induction d as [|[k' v'] d IH]; simpl; intros F.
  - now repeat constructor.
  - inversion F; subst. destruct (str_eqb k' k); constructor; auto.
Qed.

Lemma parse_qs_values (qs : str) :
  Forall (fun kv => snd kv <> []) (Url.parse_qs qs).
Proof.
  unfold Url.parse_qs.
  assert (G : forall l d, Forall (fun kv : str * list str => snd kv <> []) d ->
                Forall (fun kv : str * list str => snd kv <> [])
                       (fold_left Url.add_value l d)).
  { induction l as [|nv l IH]; intros d F; simpl; [exact F|].
    apply IH. unfold Url.add_value.
    destruct (dict_lookup (fst nv) d) as [vs|];
      apply (dict_set_Forall (fun vs => vs <> [])); auto; try discriminate.
    now destruct vs. }
  apply G. constructor.
Qed.

Lemma first_value_total (qs : str) (k default : str) :
  exists v, first_value (Url.parse_qs qs) k default = Ok v.
Proof.
  unfold first_value.
  destruct (dict_lookup k (Url.parse_qs qs)) as [vs|] eqn:E.
  - pose proof (dict_lookup_Forall (fun vs => vs <> []) k _ vs
                  (parse_qs_values qs) E) as N.
    destruct vs as [|v vs]; [congruence|]. now exists v.
  - now exists default.
Qed.

(** [from_vless_url], once the URI is parsed and the port read. *)
Lemma from_vless_url_parsed (uri : str) (r : Url.parse_result) (n : Z) :
  Url.urlparse uri = Ok r -> Url.port r = Ok (Some n) ->
  exists flow security sni fp pbk sid spx network,
    from_vless_url uri
    = Ok (vless_config (Url.username r) (Url.hostname r) n
                       flow security sni fp pbk sid spx network)
    /\ first_value (Url.parse_qs (Url.query r)) (lit "flow") [] = Ok flow
    /\ first_value (Url.parse_qs (Url.query r)) (lit "security") (lit "none") = Ok security
    /\ first_value (Url.parse_qs (Url.query r)) (lit "sni") [] = Ok sni
    /\ first_value (Url.parse_qs (Url.query r)) (lit "fp") [] = Ok fp
    /\ first_value (Url.parse_qs (Url.query r)) (lit "pbk") [] = Ok pbk
    /\ first_value (Url.parse_qs (Url.query r)) (lit "sid") [] = Ok sid
    /\ first_value (Url.parse_qs (Url.query r)) (lit "spx") [] = Ok spx
    /\ first_value (Url.parse_qs (Url.query r)) (lit "type") (lit "tcp") = Ok network.
Proof.
  intros Hr Hp. unfold from_vless_url. rewrite Hr. cbn [bind]. rewrite Hp.
  cbn [bind py_int].
  destruct (first_value_total (Url.query r) (lit "type") (lit "tcp")) as [network E1].
  destruct (first_value_total (Url.query r) (lit "security") (lit "none")) as [security E2].
  destruct (first_value_total (Url.query r) (lit "pbk") []) as [pbk E3].
  destruct (first_value_total (Url.query r) (lit "sni") []) as [sni E4].
  destruct (first_value_total (Url.query r) (lit "fp") []) as [fp E5].
  destruct (first_value_total (Url.query r) (lit "sid") []) as [sid E6].
  destruct (first_value_total (Url.query r) (lit "flow") []) as [flow E7].
  destruct (first_value_total (Url.query r) (lit "spx") []) as [spx E8].
  exists flow, security, sni, fp, pbk, sid, spx, network.
  rewrite E1, E2, E3, E4, E5, E6, E7, E8. cbn [bind].
  repeat split; reflexivity.
Qed.

Lemma port_cases (r : Url.parse_result) :
  match snd (Url.hostinfo r) with
  | None => Url.port r = Ok None
  | Some p =>
      if valid_port p then Url.port r = Ok (Some (Str.digits_value p))
      else exists m, Url.port r = Raise (Exn ValueError m)
  end.
Proof.
  unfold Url.port, valid_port.
  destruct (snd (Url.hostinfo r)) as [p|]; [|reflexivity].
  destruct (forallb Str.is_ascii_digit p); cbn [andb]; [|eexists; reflexivity].
  rewrite Nat.leb_antisym. destruct (Nat.ltb 4300 (List.length p));
    cbn [negb andb]; [eexists; reflexivity|].
  destruct (Str.digits_value p <=? 65535)%Z; [reflexivity | eexists; reflexivity].
Qed.

Lemma vless_config_port u a n f s sni fp pbk sid spx t :
  json_path (vnext_path ++ [Key "port"])
            (vless_config u a n f s sni fp pbk sid spx t) = Some (JInt n).
Proof. reflexivity. Qed.

Lemma vless_config_address u a n f s sni fp pbk sid spx t :
  json_path (vnext_path ++ [Key "address"])
            (vless_config u a n f s sni fp pbk sid spx t) = Some (opt_str a).
Proof. reflexivity. Qed.

(** C5, as amended.  For a URI that [urlparse] accepts: when the port is
    absent, [from_vless_url] fails with the [TypeError] of [int(None)]; when
    it is present but not a run of ASCII digits denoting at most 65535, with
    the [ValueError] of [parsed.port]; otherwise it returns a configuration
    whose [vnext[0].port] is that number, as an integer. *)
Theorem port_required (uri : str) (r : Url.parse_result) :
  Url.urlparse uri = Ok r ->
  match snd (Url.hostinfo r) with
  | None => exists m, from_vless_url uri = Raise (Exn TypeError m)
  | Some p =>
      if valid_port p then
        exists c, from_vless_url uri = Ok c
                  /\ json_path (vnext_path ++ [Key "port"]) c
                     = Some (JInt (Str.digits_value p))
      else exists m, from_vless_url uri = Raise (Exn ValueError m)
  end.
Proof.
  intros Hr. pose proof (port_cases r) as C.
  destruct (snd (Url.hostinfo r)) as [p|].
  - destruct (valid_port p).
    + destruct (from_vless_url_parsed uri r _ Hr C)
        as (f & s & sni & fp & pbk & sid & spx & t & E & _).
      eexists. split; [exact E|]. apply vless_config_port.
    + destruct C as [m C]. exists m. unfold from_vless_url.
      rewrite Hr. cbn [bind]. now rewrite C.
  - eexists. unfold from_vless_url. rewrite Hr. cbn [bind]. rewrite C.
    reflexivity.
Qed.

Lemma port_required_witness :
  exists c, from_vless_url (lit "vless://u@host:1234?type=ws&security=tls&sni=example.com")
            = Ok c
            /\ json_path (vnext_path ++ [Key "port"]) c = Some (JInt 1234).
Proof.
  assert (H : Url.urlparse (lit "vless://u@host:1234?type=ws&security=tls&sni=example.com")
              = Ok (Url.ParseResult (lit "vless") (lit "u@host:1234") [] []
                      (lit "type=ws&security=tls&sni=example.com") []))
    by (vm_compute; reflexivity).
  exact (port_required _ _ H).
Defined.

(** C5 fails as stated: a numeric port above 65535 is refused, and the
    failures carry no "missing or invalid port" message of the program. *)
Lemma port_required_counterexample :
  (r <- Url.urlparse (lit "vless://u@h:99999") ;; Ok (snd (Url.hostinfo r)))
  = Ok (Some (lit "99999"))
  /\ from_vless_url (lit "vless://u@h:99999")
     = Raise (Exn ValueError (Text (lit "Port out of range 0-65535"))).
Proof. split; vm_compute; reflexivity. Qed.

(** C10, as amended.  The address [from_vless_url] stores in
    [vnext[0].address] is the URI's host with the part before its first [%]
    lower-cased; what follows a [%] is kept as written.  So for a host
    without [%] the address is the lower-cased host, and a host with a
    capital letter before any [%] is stored differently from how it was
    written. *)
Theorem address_lowercased (uri : str) (r : Url.parse_result) (c : json) (h : str) :
  Url.urlparse uri = Ok r ->
  from_vless_url uri = Ok c ->
  fst (Url.hostinfo r) = h -> h <> [] ->
  json_path (vnext_path ++ [Key "address"]) c
  = Some (JStr match Str.partition (ch "%") h with
               | Some (host, zone) => Str.lower host ++ ch "%" :: zone
               | None => Str.lower h
               end)
  /\ (Str.partition (ch "%") h = None ->
      json_path (vnext_path ++ [Key "address"]) c = Some (JStr (Str.lower h)))
  /\ (forall host zone, Str.partition (ch "%") h = Some (host, zone) ->
      json_path (vnext_path ++ [Key "address"]) c
      = Some (JStr (Str.lower host ++ ch "%" :: zone))).
Proof.
  intros Hr Hc Hh Hne.
  assert (A : json_path (vnext_path ++ [Key "address"]) c
              = Some (opt_str (Url.hostname r))).
  { pose proof (port_cases r) as C.
    destruct (snd (Url.hostinfo r)) as [p|].
    - destruct (valid_port p).
      + destruct (from_vless_url_parsed uri r _ Hr C)
          as (f & s & sni & fp & pbk & sid & spx & t & E & _).
        rewrite Hc in E. injection E as ->. apply vless_config_address.
      + destruct C as [m C]. exfalso. unfold from_vless_url in Hc.
        rewrite Hr in Hc. cbn [bind] in Hc. rewrite C in Hc. discriminate.
    - exfalso. unfold from_vless_url in Hc.
      rewrite Hr in Hc. cbn [bind] in Hc. rewrite C in Hc. discriminate. }
  assert (H : Url.hostname r
              = Some match Str.partition (ch "%") h with
                     | Some (host, zone) => Str.lower host ++ ch "%" :: zone
                     | None => Str.lower h
                     end).
  { unfold Url.hostname. rewrite Hh. destruct h as [|x h]; [congruence|].
    now destruct (Str.partition (ch "%") (x :: h)) as [[host zone]|]. }
  rewrite H in A. cbn [opt_str] in A.
  split; [exact A|]. split.
  - intros E. now rewrite E in A.
  - intros host zone E. now rewrite E in A.
Qed.

Lemma address_lowercased_witness :
  exists c, from_vless_url (lit "vless://u@Example.COM:443") = Ok c
            /\ json_path (vnext_path ++ [Key "address"]) c
               = Some (JStr (Str.lower (lit "Example.COM"))).
Proof.
  assert (Hr : Url.urlparse (lit "vless://u@Example.COM:443")
               = Ok (Url.ParseResult (lit "vless") (lit "u@Example.COM:443") [] [] [] []))
    by (vm_compute; reflexivity).
  assert (Hc : from_vless_url (lit "vless://u@Example.COM:443")
               = Ok (vless_config (Some (lit "u")) (Some (lit "example.com")) 443
                                  [] (lit "none") [] [] [] [] [] (lit "tcp")))
    by (vm_compute; reflexivity).
  assert (Hne : lit "Example.COM" <> []) by discriminate.
  destruct (address_lowercased _ _ _ (lit "Example.COM") Hr Hc eq_refl Hne)
    as (_ & A & _).
  eexists. split; [exact Hc|]. apply A. reflexivity.
Defined.

(** C10 fails as stated on a host with a [%]: the text after it keeps its
    capitals, so the stored address is not the lower-cased host. *)
Lemma address_lowercased_counterexample :
  (r <- Url.urlparse (lit "vless://u@HOST%Ab:443") ;; Ok (fst (Url.hostinfo r)))
  = Ok (lit "HOST%Ab")
  /\ (c <- from_vless_url (lit "vless://u@HOST%Ab:443") ;;
      Ok (json_path (vnext_path ++ [Key "address"]) c))
     = Ok (Some (JStr (lit "host%Ab")))
  /\ Str.lower (lit "HOST%Ab") = lit "host%ab"
  /\ lit "host%Ab" <> lit "host%ab".
Proof. repeat split; try (vm_compute; reflexivity). discriminate. Qed.

(** ** [to_vless_url] *)

Lemma io_chain {A} (m : outcome A) (k : A -> io str)
    (k' : A -> outcome (str * json)) :
  (forall a w, k a w = after_head (k' a) w) ->
  forall w, iobind (lift m) k w = after_head (bind m k') w.
Proof. intros H w. destruct m; cbn; auto. Qed.

(** [to_vless_url] is its pure head followed by the prompt, under the
    handler that turns every [Exception] into [sys.exit]. *)
Lemma to_vless_url_split (data : json) (w : console) :
  to_vless_url data w =
    io_try (after_head (url_head data)) is_Exception
           (fun e => sys_exit (Fmt (lit "Error generating VLESS URL: ") e)) w.
Proof.
  unfold to_vless_url, io_try.
  replace (after_head (url_head data) w) with
    ((out <~ lift (o <- getitem data (lit "outbounds") ;; getitem0 o) ;;
     vnext <~ lift (s <- getitem out (lit "settings") ;;
                    v <- getitem s (lit "vnext") ;; getitem0 v) ;;
     user <~ lift (u <- getitem vnext (lit "users") ;; getitem0 u) ;;
     stream <~ lift (getitem out (lit "streamSettings")) ;;
     uuid <~ lift (getitem user (lit "id")) ;;
     address <~ lift (getitem vnext (lit "address")) ;;
     port <~ lift (getitem vnext (lit "port")) ;;
     flow <~ lift (get user (lit "flow") (JStr [])) ;;
     network <~ lift (get stream (lit "network") (JStr (lit "tcp"))) ;;
     security <~ lift (get stream (lit "security") (JStr (lit "none"))) ;;
     rs <~ lift (get stream (lit "realitySettings") (JDict [])) ;;
     server_name <~ lift (get rs (lit "serverName") (JStr [])) ;;
     fingerprint <~ lift (get rs (lit "fingerprint") (JStr [])) ;;
     public_key <~ lift (get rs (lit "publicKey") (JStr [])) ;;
     short_id <~ lift (get rs (lit "shortId") (JStr [])) ;;
     spiderx <~ lift (get rs (lit "spiderX") (JStr [])) ;;
     url <~ lift (u <- py_str uuid ;; a <- py_str address ;; p <- py_str port ;;
                  Ok (lit "vless://" ++ u ++ lit "@" ++ a ++ lit ":" ++ p
                      ++ lit "?encryption=none")) ;;
     url <~ lift (append_if flow (lit "&flow=") url) ;;
     url <~ lift (append_if security (lit "&security=") url) ;;
     url <~ lift (append_if server_name (lit "&sni=") url) ;;
     url <~ lift (append_if fingerprint (lit "&fp=") url) ;;
     url <~ lift (append_if public_key (lit "&pbk=") url) ;;
     url <~ lift (append_if short_id (lit "&sid=") url) ;;
     url <~ lift (append_if spiderx (lit "&spx=") url) ;;
     url <~ lift (append_if network (lit "&type=") url) ;;
     custom_name <~ get_vless_name address ;;
     name <~ lift (py_str custom_name) ;;
     ret (url ++ lit "#" ++ name)) w); [reflexivity|].
  unfold url_head. revert w.
  do 25 (apply io_chain; intros ? ?).
  reflexivity.
Qed.

Lemma append_if_no_raise (v : json) (prefix url : str) (e : exn) :
  append_if v prefix url <> Raise e.
Proof.
  unfold append_if. destruct (truthy v); [|discriminate].
  destruct v as [|[|]| | | | |]; discriminate.
Qed.

Lemma py_str_no_raise (v : json) (e : exn) : py_str v <> Raise e.
Proof. destruct v as [|[|]| | | | |]; discriminate. Qed.

Lemma bind_no_raise {A B} (m : outcome A) (k : A -> outcome B) :
  (forall e, m <> Raise e) -> (forall a e, k a <> Raise e) ->
  forall e, bind m k <> Raise e.
Proof.
  intros Hm Hk e. destruct m as [a|e'|y]; cbn [bind].
  - apply Hk.
  - destruct (Hm e' eq_refl).
  - discriminate.
Qed.

Lemma format_head_no_raise uuid address port flow network security sni fp pbk
    sid spx (e : exn) :
  format_head uuid address port flow network security sni fp pbk sid spx
  <> Raise e.
Proof.
  unfold format_head. revert e.
  repeat (apply bind_no_raise;
          [first [intro; apply append_if_no_raise | intro; apply py_str_no_raise
                 | idtac] | intro]);
    try discriminate.
Qed.

Ltac raise_case :=
  cbn [bind getitem getitem0 get type_error class_of is_Exception];
  reflexivity.

(** The reading part of [url_head] (lines 138-156), against the paths of the
    specification. *)
Lemma url_head_reads (data : json) :
  match url_head data with
  | Raise e => is_Exception (class_of e) = true
  | r =>
      required_objects data = true
      /\ r = format_head (field user_path "id" JNull data)
                         (field vnext_path "address" JNull data)
                         (field vnext_path "port" JNull data)
                         (field user_path "flow" (JStr []) data)
                         (field stream_path "network" (JStr (lit "tcp")) data)
                         (field stream_path "security" (JStr (lit "none")) data)
                         (field reality_path "serverName" (JStr []) data)
                         (field reality_path "fingerprint" (JStr []) data)
                         (field reality_path "publicKey" (JStr []) data)
                         (field reality_path "shortId" (JStr []) data)
                         (field reality_path "spiderX" (JStr []) data)
  end.
Proof.
  unfold url_head.
  destruct data as [| | | | | |d]; try raise_case.
  cbn [getitem].
  destruct (dict_lookup (lit "outbounds") d) as [o|] eqn:E1; [|raise_case].
  cbn [bind].
  destruct o as [| | | |[|c cs]|[|out outs]|]; try raise_case.
  cbn [getitem0 bind].
  destruct out as [| | | | | |od]; try raise_case.
  cbn [getitem].
  destruct (dict_lookup (lit "settings") od) as [s|] eqn:E2; [|raise_case].
  cbn [bind].
  destruct s as [| | | | | |sd]; try raise_case.
  cbn [getitem].
  destruct (dict_lookup (lit "vnext") sd) as [v|] eqn:E3; [|raise_case].
  cbn [bind].
  destruct v as [| | | |[|c cs]|[|vnext vs]|]; try raise_case.
  cbn [getitem0 bind].
  destruct vnext as [| | | | | |vd]; try raise_case.
  cbn [getitem].
  destruct (dict_lookup (lit "users") vd) as [us|] eqn:E4; [|raise_case].
  cbn [bind].
  destruct us as [| | | |[|c cs]|[|user users]|]; try raise_case.
  { cbn [getitem0 bind].
    destruct (dict_lookup (lit "streamSettings") od); raise_case. }
  cbn [getitem0 bind].
  destruct (dict_lookup (lit "streamSettings") od) as [stream|] eqn:E5;
    [|raise_case].
  cbn [bind].
  destruct user as [| | | | | |ud]; try raise_case.
  cbn [getitem].
  destruct (dict_lookup (lit "id") ud) as [uuid|] eqn:E6; [|raise_case].
  cbn [bind].
  destruct (dict_lookup (lit "address") vd) as [address|] eqn:E7; [|raise_case].
  cbn [bind].
  destruct (dict_lookup (lit "port") vd) as [port|] eqn:E8; [|raise_case].
  cbn [bind get].
  destruct stream as [| | | | | |td]; try raise_case.
  cbn [bind get].
  assert (F : forall rs,
             match dict_lookup (lit "realitySettings") td with
             | Some x => x
             | None => JDict []
             end = JDict rs ->
             required_objects (JDict d) = true
             /\ field user_path "id" JNull (JDict d) = uuid
             /\ field vnext_path "address" JNull (JDict d) = address
             /\ field vnext_path "port" JNull (JDict d) = port
             /\ field user_path "flow" (JStr []) (JDict d)
                = match dict_lookup (lit "flow") ud with
                  | Some x => x
                  | None => JStr []
                  end
             /\ field stream_path "network" (JStr (lit "tcp")) (JDict d)
                = match dict_lookup (lit "network") td with
                  | Some x => x
                  | None => JStr (lit "tcp")
                  end
             /\ field stream_path "security" (JStr (lit "none")) (JDict d)
                = match dict_lookup (lit "security") td with
                  | Some x => x
                  | None => JStr (lit "none")
                  end
             /\ forall k default,
                  field reality_path k default (JDict d)
                  = match dict_lookup (lit k) rs with
                    | Some x => x
                    | None => default
                    end).
  { intros rs R.
    unfold required_objects, is_object_at, field, reality_path, user_path,
      vnext_path, stream_path, outbound_path.
    cbn [app json_path nth_error].
    rewrite E1. cbn [json_path nth_error]. rewrite E2, E5.
    cbn [json_path nth_error]. rewrite E3. cbn [json_path nth_error].
    rewrite E4, E7, E8. cbn [json_path nth_error]. rewrite E6.
    repeat split; try reflexivity.
    - now destruct (dict_lookup (lit "flow") ud).
    - now destruct (dict_lookup (lit "network") td).
    - now destruct (dict_lookup (lit "security") td).
    - intros k default.
      destruct (dict_lookup (lit "realitySettings") td) as [x|].
      + subst x. cbn [json_path]. now destruct (dict_lookup (lit k) rs).
      + injection R as <-. reflexivity. }
  destruct (match dict_lookup (lit "realitySettings") td with
            | Some x => x
            | None => JDict []
            end) as [| | | | | |rs] eqn:R; try raise_case.
  destruct (F rs eq_refl) as (Q & F1 & F2 & F3 & F4 & F5 & F6 & F7).
  rewrite !F7, F1, F2, F3, F4, F5, F6. cbn [get bind].
  change (lit "serverName") with (lit "serverName"%string).
  match goal with
  | |- match ?X with _ => _ end =>
      replace X with
        (format_head uuid address port
           match dict_lookup (lit "flow") ud with
           | Some x => x
           | None => JStr []
           end
           match dict_lookup (lit "network") td with
           | Some x => x
           | None => JStr (lit "tcp")
           end
           match dict_lookup (lit "security") td with
           | Some x => x
           | None => JStr (lit "none")
           end
           match dict_lookup (lit "serverName") rs with
           | Some x => x
           | None => JStr []
           end
           match dict_lookup (lit "fingerprint") rs with
           | Some x => x
           | None => JStr []
           end
           match dict_lookup (lit "publicKey") rs with
           | Some x => x
           | None => JStr []
           end
           match dict_lookup (lit "shortId") rs with
           | Some x => x
           | None => JStr []
           end
           match dict_lookup (lit "spiderX") rs with
           | Some x => x
           | None => JStr []
           end) by reflexivity
  end.
  match goal with
  | |- match ?X with _ => _ end =>
      pose proof (format_head_no_raise
                    uuid address port
                    match dict_lookup (lit "flow") ud with
                    | Some x => x
                    | None => JStr []
                    end
                    match dict_lookup (lit "network") td with
                    | Some x => x
                    | None => JStr (lit "tcp")
                    end
                    match dict_lookup (lit "security") td with
                    | Some x => x
                    | None => JStr (lit "none")
                    end
                    match dict_lookup (lit "serverName") rs with
                    | Some x => x
                    | None => JStr []
                    end
                    match dict_lookup (lit "fingerprint") rs with
                    | Some x => x
                    | None => JStr []
                    end
                    match dict_lookup (lit "publicKey") rs with
                    | Some x => x
                    | None => JStr []
                    end
                    match dict_lookup (lit "shortId") rs with
                    | Some x => x
                    | None => JStr []
                    end
                    match dict_lookup (lit "spiderX") rs with
                    | Some x => x
                    | None => JStr []
                    end) as NR;
      destruct X as [a|e|y]
  end.
  - split; [exact Q | reflexivity].
  - destruct (NR e eq_refl).
  - split; [exact Q | reflexivity].
Qed.

Lemma py_str_text (v : json) (s : str) : py_str v = Ok s -> text_of v = s.
Proof. unfold text_of. now intros ->. Qed.

Lemma append_if_Ok (v : json) (prefix url url' : str) :
  append_if v prefix url = Ok url' ->
  url' = url ++ (if truthy v then prefix ++ text_of v else []).
Proof.
  unfold append_if. destruct (truthy v).
  - intros H. apply bind_Ok_inv in H as (s & Hs & H). injection H as <-.
    now rewrite (py_str_text v s Hs).
  - intros H. injection H as <-. now rewrite app_nil_r.
Qed.

Lemma flat_map_filter_cons {A B} (f : A -> list B) (p : A -> bool) (x : A)
    (l : list A) :
  flat_map f (filter p (x :: l))
  = (if p x then f x else []) ++ flat_map f (filter p l).
Proof. cbn [filter]. now destruct (p x). Qed.

(** The head that [format_head] builds is the URI of the specification
    without its fragment. *)
Lemma format_head_uri (data : json) (u0 : str) (a : json) :
  format_head (field user_path "id" JNull data)
              (field vnext_path "address" JNull data)
              (field vnext_path "port" JNull data)
              (field user_path "flow" (JStr []) data)
              (field stream_path "network" (JStr (lit "tcp")) data)
              (field stream_path "security" (JStr (lit "none")) data)
              (field reality_path "serverName" (JStr []) data)
              (field reality_path "fingerprint" (JStr []) data)
              (field reality_path "publicKey" (JStr []) data)
              (field reality_path "shortId" (JStr []) data)
              (field reality_path "spiderX" (JStr []) data)
  = Ok (u0, a) ->
  a = field vnext_path "address" JNull data
  /\ forall name, u0 ++ lit "#" ++ name = vless_uri data name.
Proof.
  unfold format_head. intros H.
  apply bind_Ok_inv in H as (url & Hurl & H).
  apply bind_Ok_inv in Hurl as (u & Hu & Hurl).
  apply bind_Ok_inv in Hurl as (ad & Ha & Hurl).
  apply bind_Ok_inv in Hurl as (p & Hp & Hurl).
  assert (Eurl : url = lit "vless://" ++ u ++ lit "@" ++ ad ++ lit ":" ++ p
                       ++ lit "?encryption=none") by congruence.
  clear Hurl. subst url.
  apply bind_Ok_inv in H as (url1 & H1 & H). apply append_if_Ok in H1.
  apply bind_Ok_inv in H as (url2 & H2 & H). apply append_if_Ok in H2.
  apply bind_Ok_inv in H as (url3 & H3 & H). apply append_if_Ok in H3.
  apply bind_Ok_inv in H as (url4 & H4 & H). apply append_if_Ok in H4.
  apply bind_Ok_inv in H as (url5 & H5 & H). apply append_if_Ok in H5.
  apply bind_Ok_inv in H as (url6 & H6 & H). apply append_if_Ok in H6.
  apply bind_Ok_inv in H as (url7 & H7 & H). apply append_if_Ok in H7.
  apply bind_Ok_inv in H as (url8 & H8 & H). apply append_if_Ok in H8.
  assert (E8 : u0 = url8) by congruence.
  assert (Ea : a = field vnext_path "address" JNull data) by congruence.
  clear H. subst u0. split; [exact Ea|].
  intros name. subst url8 url7 url6 url5 url4 url3 url2 url1.
  unfold vless_uri, optional_fields.
  rewrite (py_str_text _ _ Hu), (py_str_text _ _ Ha), (py_str_text _ _ Hp).
  rewrite !flat_map_filter_cons.
  change (flat_map query_param (filter (fun kv => truthy (snd kv)) []))
    with (@nil N).
  unfold query_param. cbn [fst snd].
  change (lit "&flow=") with (lit "&" ++ lit "flow" ++ lit "=").
  change (lit "&security=") with (lit "&" ++ lit "security" ++ lit "=").
  change (lit "&sni=") with (lit "&" ++ lit "sni" ++ lit "=").
  change (lit "&fp=") with (lit "&" ++ lit "fp" ++ lit "=").
  change (lit "&pbk=") with (lit "&" ++ lit "pbk" ++ lit "=").
  change (lit "&sid=") with (lit "&" ++ lit "sid" ++ lit "=").
  change (lit "&spx=") with (lit "&" ++ lit "spx" ++ lit "=").
  change (lit "&type=") with (lit "&" ++ lit "type" ++ lit "=").
  rewrite app_nil_r. repeat rewrite <- app_assoc. reflexivity.
Qed.

Lemma url_head_uri (data : json) (u0 : str) (a : json) :
  url_head data = Ok (u0, a) ->
  required_objects data = true
  /\ a = field vnext_path "address" JNull data
  /\ forall name, u0 ++ lit "#" ++ name = vless_uri data name.
Proof.
  intros H. pose proof (url_head_reads data) as R. rewrite H in R.
  destruct R as [Q R]. split; [exact Q|]. now apply format_head_uri.
Qed.

Lemma get_vless_name_cases (address : json) (w : console) :
  get_vless_name address w =
    match py_str address with
    | Ok a =>
        if encodable (name_prompt a) then
          let out := stdout w ++ [name_prompt a] in
          match stdin w with
          | Line s :: rest =>
              (Ok match Str.strip s with
                  | [] => address
                  | name => JStr name
                  end, {| stdin := rest; stdout := out |})
          | CtrlC :: rest =>
              (Ok address,
               {| stdin := rest;
                  stdout := out ++ [([10; 10] ++ lit "Program interrupted by user. Using server address as name.") ++ [10]] |})
          | [] =>
              (Raise (Exn EOFError (Text (lit "EOF when reading a line"))),
               {| stdin := []; stdout := out |})
          end
        else (Unmodelled "encoding of a lone surrogate", w)
    | Raise e => (Raise e, w)
    | Unmodelled y => (Unmodelled y, w)
    end.
Proof.
  unfold get_vless_name, io_try, iobind, lift, input, ret, print, write.
  destruct (py_str address) as [a|e|y] eqn:E.
  - fold (name_prompt a). destruct (encodable (name_prompt a)); [|reflexivity].
    destruct (stdin w) as [|[s|] rest]; cbn; try reflexivity.
    now destruct (Str.strip s).
  - destruct (py_str_no_raise address e E).
  - reflexivity.
Qed.

Lemma get_vless_name_Ok (address custom : json) (w w' : console) :
  get_vless_name address w = (Ok custom, w') ->
  exists prompt more, stdout w' = stdout w ++ prompt :: more.
Proof.
  rewrite get_vless_name_cases.
  destruct (py_str address) as [a|e|y]; try discriminate.
  destruct (encodable (name_prompt a)); try discriminate.
  cbv zeta. destruct (stdin w) as [|[s|] rest]; intros H; try discriminate;
    injection H as _ <-; cbn [stdout].
  - now exists (name_prompt a), [].
  - rewrite <- app_assoc. eexists _, _. reflexivity.
Qed.

Lemma get_vless_name_reply (address : json) (w1 w2 : console) :
  hd_error (stdin w1) = hd_error (stdin w2) ->
  fst (get_vless_name address w1) = fst (get_vless_name address w2).
Proof.
  rewrite !get_vless_name_cases.
  destruct (py_str address) as [a|e|y]; try reflexivity.
  destruct (encodable (name_prompt a)); try reflexivity. cbv zeta.
  destruct (stdin w1) as [|[s1|] r1], (stdin w2) as [|[s2|] r2]; cbn [hd_error];
    intros H; try discriminate; try reflexivity.
  injection H as ->. reflexivity.
Qed.

(** How [to_vless_url] ends, given what its head produced. *)
Lemma to_vless_url_outcome (data : json) (w : console) :
  to_vless_url data w =
    match url_head data with
    | Ok (u0, address) =>
        match get_vless_name address w with
        | (Ok custom, w') =>
            match py_str custom with
            | Ok name => (Ok (u0 ++ lit "#" ++ name), w')
            | Raise e => (Raise e, w')
            | Unmodelled y => (Unmodelled y, w')
            end
        | (Raise e, w') =>
            if is_Exception (class_of e)
            then (Raise (Exn SystemExit (Fmt (lit "Error generating VLESS URL: ") e)), w')
            else (Raise e, w')
        | (Unmodelled y, w') => (Unmodelled y, w')
        end
    | Raise e =>
        if is_Exception (class_of e)
        then (Raise (Exn SystemExit (Fmt (lit "Error generating VLESS URL: ") e)), w)
        else (Raise e, w)
    | Unmodelled y => (Unmodelled y, w)
    end.
Proof.
  rewrite to_vless_url_split. unfold io_try, after_head.
  destruct (url_head data) as [[u0 address]|e|y]; try reflexivity.
  unfold url_tail, iobind, lift, ret.
  destruct (get_vless_name address w) as [[custom|e|y] w']; try reflexivity.
  destruct (py_str custom) as [name|e|y] eqn:E; try reflexivity.
  destruct (py_str_no_raise custom e E).
Qed.

(** What a run of [to_vless_url] that returns a URI went through. *)
Lemma to_vless_url_Ok (data : json) (w w' : console) (url : str) :
  to_vless_url data w = (Ok url, w') ->
  exists u0 address custom name,
    url_head data = Ok (u0, address)
    /\ get_vless_name address w = (Ok custom, w')
    /\ py_str custom = Ok name
    /\ url = u0 ++ lit "#" ++ name.
Proof.
  rewrite to_vless_url_outcome.
  destruct (url_head data) as [[u0 address]|e|y] eqn:H.
  - destruct (get_vless_name address w) as [[custom|e|y] w1] eqn:G.
    + destruct (py_str custom) as [name|e|y] eqn:P; try discriminate.
      intros E. injection E as <- <-. now exists u0, address, custom, name.
    + destruct (is_Exception (class_of e)); discriminate.
    + discriminate.
  - destruct (is_Exception (class_of e)); discriminate.
  - discriminate.
Qed.

(** C7: for every configuration [to_vless_url] accepts, the URI it returns
    is [vless://{uuid}@{address}:{port}?encryption=none], then, in the order
    flow, security, sni, fp, pbk, sid, spx, type, one [&key=value] for each
    field whose value is non-empty (true in a condition), then [#] and the
    display name that [get_vless_name] obtained. *)
Theorem to_vless_url_format (data : json) (w w' : console) (url : str) :
  to_vless_url data w = (Ok url, w') ->
  exists custom name,
    get_vless_name (field vnext_path "address" JNull data) w = (Ok custom, w')
    /\ py_str custom = Ok name
    /\ url = vless_uri data name.
Proof.
  intros E.
  destruct (to_vless_url_Ok data w w' url E)
    as (u0 & address & custom & name & H & G & P & ->).
  destruct (url_head_uri data u0 address H) as (_ & -> & U).
  exists custom, name. split; [exact G|]. split; [exact P|]. apply U.
Qed.

Lemma to_vless_url_format_witness :
  let url := lit "vless://u@h:443?encryption=none&security=tls&sni=example.com&type=ws#my name" in
  let w := console_of [Line (lit " my name ")] in
  let w' := {| stdin := [];
               stdout := [lit "Enter VLESS name (leave empty to use 'h'): "] |} in
  to_vless_url sample_config w = (Ok url, w')
  /\ exists custom name,
       get_vless_name (field vnext_path "address" JNull sample_config) w
       = (Ok custom, w')
       /\ py_str custom = Ok name
       /\ url = vless_uri sample_config name.
Proof.
  assert (H : to_vless_url sample_config (console_of [Line (lit " my name ")])
              = (Ok (lit "vless://u@h:443?encryption=none&security=tls&sni=example.com&type=ws#my name"),
                 {| stdin := [];
                    stdout := [lit "Enter VLESS name (leave empty to use 'h'): "] |}))
    by (vm_compute; reflexivity).
  split; [exact H | exact (to_vless_url_format _ _ _ _ H)].
Defined.

(** Only strings: "non-empty" is what the condition tests. *)
Lemma truthy_str (s : str) : truthy (JStr s) = true <-> s <> [].
Proof. destruct s; cbn; split; congruence. Qed.

(** C4, as amended: when one of [outbounds[0]], [settings.vnext[0]],
    [users[0]] and [streamSettings] is absent or is not an object,
    [to_vless_url] calls [sys.exit] -- it raises [SystemExit] with the message
    "Error generating VLESS URL: " followed by the cause, an ordinary
    exception -- and leaves the console untouched. *)
Theorem to_vless_url_exits (data : json) (w : console) :
  is_object_at outbound_path data = false
  \/ is_object_at vnext_path data = false
  \/ is_object_at user_path data = false
  \/ is_object_at stream_path data = false ->
  exists cause,
    is_Exception (class_of cause) = true
    /\ to_vless_url data w
       = (Raise (Exn SystemExit (Fmt (lit "Error generating VLESS URL: ") cause)), w).
Proof.
  intros Hbad. rewrite to_vless_url_outcome.
  pose proof (url_head_reads data) as R.
  assert (Q : required_objects data = false).
  { unfold required_objects.
    destruct Hbad as [-> | [-> | [-> | ->]]];
      rewrite ?andb_false_r; reflexivity. }
  destruct (url_head data) as [[u0 address]|e|y].
  - destruct R as [R _]. congruence.
  - exists e. rewrite R. split; reflexivity.
  - destruct R as [R _]. congruence.
Qed.

Lemma to_vless_url_exits_witness :
  exists cause,
    is_Exception (class_of cause) = true
    /\ to_vless_url (JDict [(lit "outbounds", JList [])]) (console_of [])
       = (Raise (Exn SystemExit (Fmt (lit "Error generating VLESS URL: ") cause)),
          console_of []).
Proof.
  apply to_vless_url_exits. left. reflexivity.
Defined.

(** C4 fails as stated: on a configuration without [outbounds] the outcome is
    [SystemExit], the request to end the process, which is not an
    [Exception] and which no handler of the program catches. *)
Lemma to_vless_url_exits_counterexample :
  to_vless_url (JDict []) (console_of [])
  = (Raise (Exn SystemExit
              (Fmt (lit "Error generating VLESS URL: ")
                   (Exn KeyError (Repr (lit "outbounds"))))),
     console_of [])
  /\ is_Exception SystemExit = false.
Proof. split; vm_compute; reflexivity. Qed.

(** C6, as amended: [to_vless_url] obtains the display name by prompting on
    the console.  Its outcome is determined by the configuration and the
    console's next reply -- two runs on the same configuration that receive
    the same reply have the same outcome -- and every run that returns a URI
    has written the prompt.  [decode_vpn_url] and [from_vless_url] take no
    console: they are functions of their argument. *)
Theorem to_vless_url_reply (data : json) (w1 w2 : console) :
  hd_error (stdin w1) = hd_error (stdin w2) ->
  fst (to_vless_url data w1) = fst (to_vless_url data w2)
  /\ forall url w', to_vless_url data w1 = (Ok url, w') ->
       exists prompt more, stdout w' = stdout w1 ++ prompt :: more.
Proof.
  intros H. split.
  - rewrite !to_vless_url_outcome.
    destruct (url_head data) as [[u0 address]|e|y].
    + pose proof (get_vless_name_reply address w1 w2 H) as G.
      destruct (get_vless_name address w1) as [o1 w1'],
               (get_vless_name address w2) as [o2 w2'].
      cbn [fst] in G. subst o2. destruct o1 as [custom|e|y]; try reflexivity.
      * now destruct (py_str custom).
      * now destruct (is_Exception (class_of e)).
    + now destruct (is_Exception (class_of e)).
    + reflexivity.
  - intros url w' E.
    destruct (to_vless_url_Ok data w1 w' url E)
      as (u0 & address & custom & name & _ & G & _).
    now apply get_vless_name_Ok in G.
Qed.

(** ** Splitting text at a character *)

Lemma contains_false (c : N) (s : str) :
  Str.contains c s = false <-> ~ In c s.
Proof.
  unfold Str.contains. split.
  - intros H Hin. assert (E : existsb (N.eqb c) s = true).
    { apply existsb_exists. exists c. split; [exact Hin | apply N.eqb_refl]. }
    congruence.
  - intros H. destruct (existsb (N.eqb c) s) eqn:E; [|reflexivity].
    apply existsb_exists in E as (x & Hx & Ex). apply N.eqb_eq in Ex. now subst.
Qed.

Lemma contains_app (c : N) (s t : str) :
  Str.contains c (s ++ t) = Str.contains c s || Str.contains c t.
Proof. unfold Str.contains. apply existsb_app. Qed.

(** A character class [p] excludes [c]. *)
Lemma forallb_not_In (p : N -> bool) (c : N) (s : str) :
  p c = false -> forallb p s = true -> ~ In c s.
Proof.
  intros Hc H Hin. rewrite forallb_forall in H. specialize (H c Hin). congruence.
Qed.

Lemma partition_spec (c : N) (s a b : str) :
  Str.partition c s = Some (a, b) -> s = a ++ c :: b /\ ~ In c a.
Proof.
  revert a. induction s as [|x s IH]; intros a; simpl; [discriminate|].
  destruct (x =? c) eqn:E.
  - intros H. injection H as <- <-. apply N.eqb_eq in E. subst. split; auto.
  - destruct (Str.partition c s) as [[a' b']|]; [|discriminate].
    intros H. injection H as <- <-. destruct (IH a' eq_refl) as [-> N].
    split; [reflexivity|]. intros [H|H]; [|contradiction].
    apply N.eqb_neq in E. congruence.
Qed.

Lemma partition_None (c : N) (s : str) :
  Str.partition c s = None <-> ~ In c s.
Proof.
  induction s as [|x s IH]; simpl; [tauto|].
  destruct (x =? c) eqn:E.
  - apply N.eqb_eq in E. subst. split; [discriminate|]. intros H. tauto.
  - apply N.eqb_neq in E. destruct (Str.partition c s) as [[a b]|].
    + split; [discriminate|]. intros H. exfalso.
      assert (N : ~ In c s) by tauto. apply IH in N. discriminate.
    + split; [|reflexivity]. intros _ [H|H]; [congruence|].
      now apply (proj1 IH).
Qed.

Lemma partition_app (c : N) (a b : str) :
  ~ In c a -> Str.partition c (a ++ c :: b) = Some (a, b).
Proof.
  induction a as [|x a IH]; simpl; intros H.
  - now rewrite N.eqb_refl.
  - destruct (x =? c) eqn:E; [apply N.eqb_eq in E; tauto|].
    rewrite IH by tauto. reflexivity.
Qed.

Lemma rpartition_spec (c : N) (s a b : str) :
  Str.rpartition c s = Some (a, b) -> s = a ++ c :: b /\ ~ In c b.
Proof.
  unfold Str.rpartition.
  destruct (Str.partition c (rev s)) as [[x y]|] eqn:E; [|discriminate].
  intros H. injection H as <- <-. apply partition_spec in E as [E N].
  split.
  - rewrite <- (rev_involutive s), E, rev_app_distr. simpl.
    now rewrite <- app_assoc.
  - now rewrite <- in_rev.
Qed.

Lemma rpartition_None (c : N) (s : str) :
  Str.rpartition c s = None -> ~ In c s.
Proof.
  unfold Str.rpartition.
  destruct (Str.partition c (rev s)) as [[x y]|] eqn:E; [discriminate|].
  intros _. apply partition_None in E. now rewrite in_rev.
Qed.

Lemma rpartition_app (c : N) (a b : str) :
  ~ In c b -> Str.rpartition c (a ++ c :: b) = Some (a, b).
Proof.
  intros H. unfold Str.rpartition.
  rewrite rev_app_distr. simpl. rewrite <- app_assoc. simpl.
  rewrite partition_app by now rewrite <- in_rev.
  now rewrite !rev_involutive.
Qed.

Lemma split_no_sep (c : N) (s : str) : ~ In c s -> Str.split c s = [s].
Proof.
  induction s as [|x s IH]; simpl; intros H; [reflexivity|].
  destruct (x =? c) eqn:E; [apply N.eqb_eq in E; tauto|].
  rewrite IH by tauto. reflexivity.
Qed.

Lemma split_app_sep (c : N) (a b : str) :
  ~ In c a -> Str.split c (a ++ c :: b) = a :: Str.split c b.
Proof.
  induction a as [|x a IH]; simpl; intros H.
  - now rewrite N.eqb_refl.
  - destruct (x =? c) eqn:E; [apply N.eqb_eq in E; tauto|].
    rewrite IH by tauto. reflexivity.
Qed.

Lemma filter_id {A} (p : A -> bool) (l : list A) :
  forallb p l = true -> filter p l = l.
Proof.
  induction l as [|x l IH]; simpl; [reflexivity|].
  intros H. apply andb_true_iff in H as [-> H]. now rewrite IH.
Qed.

Lemma forallb_filter {A} (p : A -> bool) (l : list A) :
  forallb p (filter p l) = true.
Proof.
  induction l as [|x l IH]; simpl; [reflexivity|].
  destruct (p x) eqn:E; simpl; [now rewrite E|exact IH].
Qed.

Lemma forallb_filter_other {A} (p q : A -> bool) (l : list A) :
  forallb q l = true -> forallb q (filter p l) = true.
Proof.
  induction l as [|x l IH]; simpl; [reflexivity|].
  intros H. apply andb_true_iff in H as [Hx H].
  destruct (p x); simpl; [rewrite Hx|]; auto.
Qed.

Lemma forallb_impl {A} (p q : A -> bool) (l : list A) :
  (forall x, p x = true -> q x = true) -> forallb p l = true -> forallb q l = true.
Proof.
  intros I H. rewrite forallb_forall in *. auto.
Qed.

Lemma replace_id (c d : N) (s : str) : ~ In c s -> Str.replace c d s = s.
Proof.
  unfold Str.replace.
  induction s as [|x s IH]; simpl; intros H; [reflexivity|].
  destruct (x =? c) eqn:E; [apply N.eqb_eq in E; tauto|].
  rewrite IH by tauto. reflexivity.
Qed.

Lemma span_netloc_spec (s n r : str) :
  Url.span_netloc s = (n, r) ->
  s = n ++ r /\ forallb (fun c => negb (Url.netloc_delim c)) n = true.
Proof.
  revert n r. induction s as [|x s IH]; intros n r; simpl.
  - intros H. injection H as <- <-. auto.
  - destruct (Url.netloc_delim x) eqn:E.
    + intros H. injection H as <- <-. auto.
    + destruct (Url.span_netloc s) as [n' r']. intros H. injection H as <- <-.
      destruct (IH n' r' eq_refl) as [-> F]. simpl. now rewrite E.
Qed.

Lemma span_netloc_app (n : str) (c : N) (r : str) :
  forallb (fun c => negb (Url.netloc_delim c)) n = true ->
  Url.netloc_delim c = true ->
  Url.span_netloc (n ++ c :: r) = (n, c :: r).
Proof.
  intros F Hc. induction n as [|x n IH]; simpl.
  - now rewrite Hc.
  - simpl in F. apply andb_true_iff in F as [Hx F].
    apply negb_true_iff in Hx. rewrite Hx, (IH F). reflexivity.
Qed.

Lemma forallb_app_inv {A} (p : A -> bool) (a b : list A) :
  forallb p (a ++ b) = true -> forallb p a = true /\ forallb p b = true.
Proof. rewrite forallb_app. apply andb_true_iff. Qed.

(** ** Reading back a URI that [to_vless_url] wrote *)

Lemma filter_cons_true {A} (p : A -> bool) (x : A) (l : list A) :
  p x = true -> filter p (x :: l) = x :: filter p l.
Proof. intros H. simpl. now rewrite H. Qed.

Lemma host_char_user (c : N) : host_char c = true -> user_char c = true.
Proof.
  unfold host_char, user_char. intros H.
  apply andb_true_iff in H as [H _]. exact H.
Qed.

Lemma user_char_netloc (c : N) : user_char c = true -> netloc_char c = true.
Proof. unfold user_char. intros H. now apply andb_true_iff in H as [H _]. Qed.

Lemma netloc_char_parts (c : N) :
  netloc_char c = true ->
  c < 256 /\ clean c = true /\ Url.netloc_delim c = false
  /\ c <> ch "[" /\ c <> ch "]".
Proof.
  unfold netloc_char, clean. intros H.
  repeat (apply andb_true_iff in H as [H ?]).
  apply N.ltb_lt in H.
  repeat match goal with
         | X : negb _ = true |- _ => apply negb_true_iff in X
         end.
  repeat split; auto.
  - now rewrite H3.
  - now apply N.eqb_neq.
  - now apply N.eqb_neq.
Qed.

Lemma digit_host_char (c : N) : Str.is_ascii_digit c = true -> host_char c = true.
Proof.
  intros H.
  assert (B : c < 256).
  { unfold Str.is_ascii_digit in H. apply andb_true_iff in H as [_ H].
    apply N.leb_le in H. lia. }
  assert (E : forall x, x < 256 ->
               (negb (Str.is_ascii_digit x) || host_char x) = true).
  { apply (forall_below 256). vm_compute. reflexivity. }
  specialize (E c B). rewrite H in E. exact E.
Qed.

(** *** Decimal numbers: [int(str(n))] is [n] *)

Lemma dv_shift (s : str) (acc : Z) :
  dv acc s = (acc * 10 ^ Z.of_nat (List.length s) + dv 0 s)%Z.
Proof.
  revert acc. induction s as [|c s IH]; intros acc.
  - cbn. lia.
  - cbn [dv fold_left List.length]. fold (dv (10 * acc + Z.of_N (c - 48))%Z s).
    fold (dv (10 * 0 + Z.of_N (c - 48))%Z s).
    rewrite (IH (10 * acc + Z.of_N (c - 48))%Z), (IH (10 * 0 + Z.of_N (c - 48))%Z).
    rewrite Nat2Z.inj_succ, Z.pow_succ_r by lia. lia.
Qed.

Lemma digits_value_cons (c : N) (s : str) :
  Str.digits_value (c :: s)
  = (Z.of_N (c - 48) * 10 ^ Z.of_nat (List.length s) + Str.digits_value s)%Z.
Proof.
  unfold Str.digits_value. cbn [fold_left].
  fold (dv (10 * 0 + Z.of_N (c - 48))%Z s). fold (dv 0 s).
  rewrite dv_shift. lia.
Qed.

Lemma dec_digits_value (fuel : nat) (n : N) (acc : str) :
  n < 10 ^ N.of_nat fuel ->
  Str.digits_value (Str.dec_digits fuel n acc)
  = (Z.of_N n * 10 ^ Z.of_nat (List.length acc) + Str.digits_value acc)%Z.
Proof.
  revert n acc. induction fuel as [|fuel IH]; intros n acc H.
  - change (10 ^ N.of_nat 0) with 1 in H. assert (n = 0) by lia. subst.
    cbn [Str.dec_digits]. lia.
  - cbn [Str.dec_digits].
    pose proof (N.div_mod n 10 ltac:(discriminate)) as D.
    pose proof (N.mod_lt n 10 ltac:(discriminate)) as M.
    destruct (n <? 10) eqn:E.
    + apply N.ltb_lt in E. rewrite digits_value_cons.
      rewrite N.mod_small by exact E. clear D M.
      replace (48 + n - 48) with n by lia. reflexivity.
    + apply N.ltb_ge in E.
      rewrite IH.
      * rewrite digits_value_cons. cbn [List.length].
        rewrite Nat2Z.inj_succ, Z.pow_succ_r by lia.
        set (r := n mod 10) in *. set (q := n / 10) in *.
        replace (48 + r - 48) with r by lia.
        assert (Z.of_N n = 10 * Z.of_N q + Z.of_N r)%Z by lia.
        set (P := (10 ^ Z.of_nat (List.length acc))%Z). lia.
      * rewrite Nat2N.inj_succ, N.pow_succ_r' in H.
        apply N.Div0.div_lt_upper_bound. exact H.
Qed.

Lemma dec_digits_chars (fuel : nat) (n : N) (acc : str) :
  forallb Str.is_ascii_digit acc = true ->
  forallb Str.is_ascii_digit (Str.dec_digits fuel n acc) = true.
Proof.
  revert n acc. induction fuel as [|fuel IH]; intros n acc H; [exact H|].
  cbn [Str.dec_digits].
  assert (D : forallb Str.is_ascii_digit ((48 + n mod 10) :: acc) = true).
  { cbn [forallb]. rewrite H, andb_true_r.
    pose proof (N.mod_lt n 10 ltac:(discriminate)).
    set (r := n mod 10) in *.
    unfold Str.is_ascii_digit. apply andb_true_iff.
    split; apply N.leb_le; lia. }
  destruct (n <? 10); [exact D | now apply IH].
Qed.

Lemma dec_digits_length (fuel : nat) (n : N) (acc : str) :
  (List.length (Str.dec_digits fuel n acc) <= fuel + List.length acc)%nat.
Proof.
  revert n acc. induction fuel as [|fuel IH]; intros n acc; [cbn; lia|].
  cbn [Str.dec_digits]. destruct (n <? 10).
  - cbn [List.length]. lia.
  - specialize (IH (n / 10) ((48 + n mod 10) :: acc)). cbn [List.length] in IH. lia.
Qed.

Lemma dec_digits_length_ge (fuel : nat) (n : N) (acc : str) :
  (List.length acc <= List.length (Str.dec_digits fuel n acc))%nat.
Proof.
  revert n acc. induction fuel as [|fuel IH]; intros n acc; [cbn; lia|].
  cbn [Str.dec_digits]. destruct (n <? 10).
  - cbn [List.length]. lia.
  - specialize (IH (n / 10) ((48 + n mod 10) :: acc)). cbn [List.length] in IH. lia.
Qed.

Lemma str_of_N_fuel (n : N) : n < 10 ^ N.of_nat (S (N.to_nat (N.log2 n))).
Proof.
  rewrite Nat2N.inj_succ, N2Nat.id.
  destruct (N.eq_dec n 0) as [->|Hn]; [cbn; lia|].
  assert (P : n < 2 ^ N.succ (N.log2 n)) by (apply N.log2_spec; lia).
  eapply N.lt_le_trans; [exact P|].
  apply N.pow_le_mono_l. lia.
Qed.

(** *** Port numbers *)

Lemma port_digits (n : N) :
  n < 65536 ->
  forallb Str.is_ascii_digit (Str.str_of_N n) = true
  /\ Str.str_of_N n <> []
  /\ (List.length (Str.str_of_N n) <= 4300)%nat
  /\ Str.digits_value (Str.str_of_N n) = Z.of_N n.
Proof.
  intros H. unfold Str.str_of_N. repeat split.
  - now apply dec_digits_chars.
  - intros C. apply (f_equal (@List.length N)) in C. revert C.
    cbn [Str.dec_digits]. destruct (n <? 10); [discriminate|].
    pose proof (dec_digits_length_ge (N.to_nat (N.log2 n)) (n / 10)
                  [48 + n mod 10]) as G.
    cbn [List.length] in *. lia.
  - pose proof (dec_digits_length (S (N.to_nat (N.log2 n))) n []) as L.
    assert (N.log2 n < 16).
    { destruct (N.eq_dec n 0) as [->|Hn]; [reflexivity|].
      apply N.log2_lt_pow2; lia. }
    cbn [List.length] in L. lia.
  - rewrite dec_digits_value by apply str_of_N_fuel. cbn. lia.
Qed.

Lemma digits_value_nonneg (s : str) : (0 <= Str.digits_value s)%Z.
Proof.
  unfold Str.digits_value.
  assert (G : forall acc, (0 <= acc)%Z ->
              (0 <= fold_left (fun a c => 10 * a + Z.of_N (c - 48)) s acc)%Z).
  { induction s as [|c s IH]; intros acc Ha; cbn [fold_left]; [exact Ha|].
    apply IH. pose proof (N2Z.is_nonneg (c - 48)). lia. }
  apply G. lia.
Qed.

Lemma forallb_netloc_clean (s : str) :
  forallb netloc_char s = true -> forallb clean s = true.
Proof.
  apply forallb_impl. intros c H. now destruct (netloc_char_parts c H) as (_ & ? & _).
Qed.

Lemma forallb_query_clean (s : str) :
  forallb query_char s = true -> forallb clean s = true.
Proof.
  apply forallb_impl. intros c H. unfold query_char in H.
  now apply andb_true_iff in H as [H _].
Qed.

Section Written.

Variables u a d q name : str.
Hypothesis Hu : forallb user_char u = true.
Hypothesis Ha : forallb host_char a = true.
Hypothesis Hd : forallb Str.is_ascii_digit d = true.
Hypothesis Hq : forallb query_char q = true.

Let netloc : str := u ++ ch "@" :: a ++ ch ":" :: d.

Lemma written_netloc_chars : forallb netloc_char netloc = true.
Proof.
  unfold netloc. rewrite forallb_app. cbn [forallb]. rewrite forallb_app.
  cbn [forallb].
  rewrite (forallb_impl _ _ u user_char_netloc Hu).
  rewrite (forallb_impl _ _ a (fun c H => user_char_netloc c (host_char_user c H)) Ha).
  rewrite (forallb_impl _ _ d (fun c H => user_char_netloc c
                                            (host_char_user c (digit_host_char c H))) Hd).
  reflexivity.
Qed.

Lemma clean_url_written :
  Url.clean_url (written u a d q name) = written u a d q (filter clean name).
Proof.
  unfold Url.clean_url.
  replace (Str.lstrip_with Url.c0_control_or_space (written u a d q name))
    with (written u a d q name) by reflexivity.
  change (filter (fun c => negb (Url.unsafe_byte c))) with (filter clean).
  unfold written. fold netloc.
  rewrite filter_app. rewrite (filter_id clean (lit "vless")) by reflexivity.
  f_equal.
  do 3 (rewrite filter_cons_true by reflexivity; f_equal).
  rewrite filter_app. rewrite (filter_id clean netloc)
    by apply forallb_netloc_clean, written_netloc_chars.
  f_equal. rewrite filter_cons_true by reflexivity. f_equal.
  rewrite filter_app. rewrite (filter_id clean q) by now apply forallb_query_clean.
  now rewrite filter_cons_true by reflexivity.
Qed.

Lemma split_scheme_written (rest : str) :
  Url.split_scheme (lit "vless" ++ ch ":" :: rest) = (lit "vless", rest).
Proof.
  unfold Url.split_scheme. rewrite partition_app.
  - reflexivity.
  - apply (forallb_not_In (fun c => negb (c =? ch ":"))); reflexivity.
Qed.

Lemma split_netloc_written (rest : str) :
  Url.split_netloc (47 :: 47 :: netloc ++ ch "?" :: rest)
  = Ok (netloc, ch "?" :: rest).
Proof.
  pose proof written_netloc_chars as F.
  unfold Url.split_netloc.
  rewrite span_netloc_app; [| |reflexivity].
  - assert (O : Str.contains (ch "[") netloc = false).
    { apply contains_false.
      apply (forallb_not_In netloc_char); [reflexivity | exact F]. }
    assert (C : Str.contains (ch "]") netloc = false).
    { apply contains_false.
      apply (forallb_not_In netloc_char); [reflexivity | exact F]. }
    now rewrite O, C.
  - revert F. apply forallb_impl. intros c H.
    destruct (netloc_char_parts c H) as (_ & _ & -> & _). reflexivity.
Qed.

Lemma urlparse_written :
  Url.urlparse (written u a d q name)
  = Ok (Url.ParseResult (lit "vless") netloc [] [] q (filter clean name)).
Proof.
  unfold Url.urlparse, Url.urlsplit. rewrite clean_url_written.
  unfold written at 1. fold netloc. rewrite split_scheme_written.
  rewrite split_netloc_written. cbn [bind].
  assert (S1 : Url.split_at (ch "#") (ch "?" :: q ++ ch "#" :: filter clean name)
               = (ch "?" :: q, filter clean name)).
  { unfold Url.split_at. rewrite app_comm_cons, partition_app; [reflexivity|].
    intros [H|H]; [discriminate|].
    revert H. apply (forallb_not_In query_char); [reflexivity | exact Hq]. }
  rewrite S1.
  assert (S2 : Url.split_at (ch "?") (ch "?" :: q) = ([], q)) by reflexivity.
  rewrite S2.
  assert (K : Url.checknetloc netloc = Ok tt).
  { unfold Url.checknetloc.
    replace (forallb (fun c => c <? 256) netloc) with true; [reflexivity|].
    symmetry. generalize written_netloc_chars. apply forallb_impl.
    intros c H. destruct (netloc_char_parts c H) as (B & _).
    now apply N.ltb_lt. }
  rewrite K. cbn [bind]. reflexivity.
Qed.

Let parsed : Url.parse_result :=
  Url.ParseResult (lit "vless") netloc [] [] q (filter clean name).

Lemma host_no_at : ~ In (ch "@") (a ++ ch ":" :: d).
Proof.
  intros H. apply in_app_or in H as [H|[H|H]].
  - revert H. apply (forallb_not_In host_char); [reflexivity | exact Ha].
  - discriminate.
  - revert H. apply (forallb_not_In Str.is_ascii_digit); [reflexivity | exact Hd].
Qed.

Lemma written_username : Url.username parsed = Some u.
Proof.
  unfold Url.username, parsed. cbn [Url.netloc]. unfold netloc.
  rewrite rpartition_app by apply host_no_at.
  replace (Str.partition (ch ":") u) with (@None (str * str)); [reflexivity|].
  symmetry. apply partition_None.
  apply (forallb_not_In user_char); [reflexivity | exact Hu].
Qed.

Lemma written_hostinfo :
  d <> [] -> Url.hostinfo parsed = (a, Some d).
Proof.
  intros Hne. unfold Url.hostinfo, Url.hostinfo_of, parsed.
  cbn [Url.netloc]. unfold netloc.
  rewrite rpartition_app by apply host_no_at.
  replace (Str.partition (ch "[") (a ++ ch ":" :: d)) with (@None (str * str)).
  - rewrite partition_app.
    + now destruct d.
    + apply (forallb_not_In host_char); [reflexivity | exact Ha].
  - symmetry. apply partition_None. intros H.
    apply in_app_or in H as [H|[H|H]].
    + revert H. apply (forallb_not_In host_char); [reflexivity | exact Ha].
    + discriminate.
    + revert H. apply (forallb_not_In Str.is_ascii_digit); [reflexivity | exact Hd].
Qed.

End Written.

(** *** The query of a written URI *)

Lemma plain_char_parts (c : N) :
  plain_char c = true ->
  query_char c = true /\ c <> ch "&" /\ c <> ch "+" /\ c <> ch "%".
Proof.
  unfold plain_char, query_char. intros H.
  apply andb_true_iff in H as [H H5]. apply andb_true_iff in H as [H H4].
  apply andb_true_iff in H as [H H3]. apply andb_true_iff in H as [H1 H2].
  rewrite H1, H2. repeat split; try reflexivity;
    apply N.eqb_neq; now apply negb_true_iff.
Qed.

Lemma key_char_plain (c : N) : key_char c = true -> plain_char c = true.
Proof. unfold key_char. intros H. now apply andb_true_iff in H as [H _]. Qed.

Lemma plain_not_In (c : N) (s : str) :
  plain_char c = false -> forallb plain_char s = true -> ~ In c s.
Proof. apply forallb_not_In. Qed.

Lemma plain_pairs_filter (p : str * str -> bool) (kvs : list (str * str)) :
  plain_pairs kvs -> plain_pairs (filter p kvs).
Proof.
  unfold plain_pairs. rewrite !Forall_forall. intros H kv Hin.
  apply filter_In in Hin as [Hin _]. auto.
Qed.

Lemma unquote_plain (s : str) : forallb plain_char s = true -> Url.unquote s = s.
Proof.
  intros H. unfold Url.unquote.
  replace (Str.contains (ch "%") s) with false; [reflexivity|].
  symmetry. apply contains_false. now apply (plain_not_In (ch "%")).
Qed.

Lemma parse_field_param (k v : str) :
  forallb key_char k = true -> forallb plain_char v = true -> v <> [] ->
  Url.parse_field (k ++ ch "=" :: v) = Some (k, v).
Proof.
  intros Hk Hv Hne. unfold Url.parse_field.
  rewrite partition_app
    by (apply (forallb_not_In key_char); [reflexivity | exact Hk]).
  destruct v as [|x v]; [congruence|].
  assert (Pk : forallb plain_char k = true)
    by (revert Hk; apply forallb_impl, key_char_plain).
  rewrite !replace_id by (now apply (plain_not_In (ch "+"))).
  now rewrite !unquote_plain.
Qed.

(** Splitting the written parameters at [&]. *)
Lemma split_params (kvs : list (str * str)) (x : str) :
  ~ In (ch "&") x -> plain_pairs kvs ->
  Str.split (ch "&") (x ++ flat_map param kvs)
  = x :: map (fun kv => fst kv ++ ch "=" :: snd kv) kvs.
Proof.
  revert x. induction kvs as [|[k v] kvs IH]; intros x Hx P.
  - cbn [flat_map map]. rewrite app_nil_r. now apply split_no_sep.
  - inversion P as [|? ? [Pk Pv] P']; subst. cbn [fst snd] in *.
    cbn [flat_map map param fst snd].
    change (param (k, v) ++ flat_map param kvs)
      with (ch "&" :: (k ++ ch "=" :: v) ++ flat_map param kvs).
    rewrite split_app_sep by exact Hx. f_equal.
    apply IH; [|exact P'].
    intros H. apply in_app_or in H as [H|[H|H]].
    + revert H. apply (forallb_not_In key_char); [reflexivity | exact Pk].
    + discriminate.
    + revert H. now apply (plain_not_In (ch "&")).
Qed.

Lemma parse_qsl_written (kvs : list (str * str)) :
  plain_pairs kvs ->
  Url.parse_qsl (written_query kvs)
  = (lit "encryption", lit "none") :: filter (fun kv => nonempty (snd kv)) kvs.
Proof.
  intros P. unfold Url.parse_qsl, written_query.
  set (kept := filter (fun kv => nonempty (snd kv)) kvs).
  assert (Pk : plain_pairs kept) by now apply plain_pairs_filter.
  assert (Nk : Forall (fun kv => snd kv <> []) kept).
  { apply Forall_forall. intros kv Hin. apply filter_In in Hin as [_ H].
    destruct kv as [k [|x v]]; cbn in *; [discriminate H | discriminate]. }
  replace (lit "encryption=none" ++ flat_map param kept)
    with (101 :: (lit "ncryption=none" ++ flat_map param kept)) by reflexivity.
  cbv beta iota.
  replace (101 :: (lit "ncryption=none" ++ flat_map param kept))
    with (lit "encryption=none" ++ flat_map param kept) by reflexivity.
  rewrite split_params; [| |exact Pk].
  - cbn [flat_map]. 
    replace (Url.parse_field (lit "encryption=none"))
      with (Some (lit "encryption", lit "none")) by reflexivity.
    cbn [app]. f_equal.
    clear -Pk Nk. induction kept as [|[k v] kept IH]; [reflexivity|].
    inversion Pk as [|? ? [Hk Hv] Pk']; subst.
    inversion Nk as [|? ? Hne Nk']; subst. cbn [fst snd] in *.
    cbn [map flat_map fst snd]. rewrite parse_field_param by assumption.
    cbn [app]. f_equal. now apply IH.
  - apply (forallb_not_In (fun c => negb (c =? ch "&"))); reflexivity.
Qed.

(** *** Dictionaries with distinct keys *)

Lemma str_eqb_neq (a b : str) : str_eqb a b = false <-> a <> b.
Proof.
  split.
  - intros H E. apply str_eqb_eq in E. congruence.
  - intros H. destruct (str_eqb a b) eqn:E; [|reflexivity].
    apply str_eqb_eq in E. contradiction.
Qed.

Lemma dict_lookup_set {V} (k k1 : str) (v : V) (d : list (str * V)) :
  dict_lookup k (dict_set k1 v d)
  = if str_eqb k1 k then Some v else dict_lookup k d.
Proof.
  induction d as [|[k' v'] d IH]; cbn [dict_set dict_lookup].
  - reflexivity.
  - destruct (str_eqb k' k1) eqn:E1; cbn [dict_lookup].
    + apply str_eqb_eq in E1. subst k'. now destruct (str_eqb k1 k).
    + rewrite IH. destruct (str_eqb k' k) eqn:E2; [|reflexivity].
      apply str_eqb_eq in E2. subst k'.
      apply str_eqb_neq in E1.
      replace (str_eqb k1 k) with false; [reflexivity|].
      symmetry. apply str_eqb_neq. congruence.
Qed.

Lemma dict_lookup_None_not_In {V} (k : str) (d : list (str * V)) :
  ~ In k (map fst d) -> dict_lookup k d = None.
Proof.
  induction d as [|[k' v'] d IH]; cbn [dict_lookup map fst]; intros H.
  - reflexivity.
  - replace (str_eqb k' k) with false.
    + apply IH. intros Hin. apply H. now right.
    + symmetry. apply str_eqb_neq. intros E. apply H. now left.
Qed.

(** [parse_qs] over pairs whose names are distinct. *)
Lemma fold_add_value_lookup (pairs : list (str * str)) (d : list (str * list str))
    (k : str) :
  NoDup (map fst pairs) ->
  (forall p, In p pairs -> dict_lookup (fst p) d = None) ->
  dict_lookup k (fold_left Url.add_value pairs d)
  = match dict_lookup k d with
    | Some vs => Some vs
    | None => option_map (fun v => [v]) (dict_lookup k pairs)
    end.
Proof.
  revert d. induction pairs as [|[k1 v1] pairs IH]; intros d ND F.
  - cbn. now destruct (dict_lookup k d).
  - cbn [fold_left]. inversion ND as [|? ? N1 ND']; subst.
    assert (E1 : dict_lookup k1 d = None) by (apply (F (k1, v1)); now left).
    unfold Url.add_value at 2. cbn [fst snd]. rewrite E1.
    rewrite IH; [|exact ND'|].
    + rewrite dict_lookup_set. cbn [dict_lookup].
      destruct (str_eqb k1 k) eqn:E.
      * apply str_eqb_eq in E. subst k1. now rewrite E1.
      * reflexivity.
    + intros p Hp. rewrite dict_lookup_set.
      replace (str_eqb k1 (fst p)) with false; [apply F; now right|].
      symmetry. apply str_eqb_neq. intros E. apply N1. rewrite E. now apply in_map.
Qed.

Lemma parse_qs_lookup (qs : str) (pairs : list (str * str)) (k : str) :
  Url.parse_qsl qs = pairs -> NoDup (map fst pairs) ->
  dict_lookup k (Url.parse_qs qs) = option_map (fun v => [v]) (dict_lookup k pairs).
Proof.
  intros E ND. unfold Url.parse_qs. rewrite E.
  now rewrite fold_add_value_lookup.
Qed.

(** Dropping the blank values keeps the names among the names, and so keeps
    them distinct. *)
Lemma kept_names (kvs : list (str * str)) (k : str) :
  In k (map fst (filter (fun kv => nonempty (snd kv)) kvs)) -> In k (map fst kvs).
Proof.
  intros Hin. apply in_map_iff in Hin as (y & Ey & Hy).
  apply filter_In in Hy as [Hy _]. apply in_map_iff. now exists y.
Qed.

Lemma kept_names_distinct (kvs : list (str * str)) :
  NoDup (map fst kvs) ->
  NoDup (map fst (filter (fun kv => nonempty (snd kv)) kvs)).
Proof.
  induction kvs as [|[k v] kvs IH]; cbn [map filter fst snd]; intros H;
    [constructor|].
  inversion H as [|? ? N H']; subst.
  destruct (nonempty v); cbn [map fst]; [|now apply IH].
  constructor; [|now apply IH].
  intros Hin. apply N. now apply kept_names.
Qed.

Lemma dict_lookup_filter (k : str) (kvs : list (str * str)) :
  NoDup (map fst kvs) ->
  dict_lookup k (filter (fun kv => nonempty (snd kv)) kvs)
  = match dict_lookup k kvs with
    | Some v => if nonempty v then Some v else None
    | None => None
    end.
Proof.
  induction kvs as [|[k1 v1] kvs IH]; cbn [map fst filter snd dict_lookup];
    intros ND; [reflexivity|].
  inversion ND as [|? ? N1 ND']; subst.
  destruct (nonempty v1) eqn:E1; cbn [dict_lookup].
  - destruct (str_eqb k1 k); [now rewrite E1 | now apply IH].
  - destruct (str_eqb k1 k) eqn:E.
    + apply str_eqb_eq in E. subst k1. rewrite E1.
      apply dict_lookup_None_not_In.
      intros Hin. apply N1. now apply kept_names.
    + now apply IH.
Qed.

(** The value [from_vless_url] reads back for a written parameter. *)
Lemma first_value_written (kvs : list (str * str)) (k v default : str) :
  plain_pairs kvs ->
  NoDup (lit "encryption" :: map fst kvs) ->
  dict_lookup k kvs = Some v ->
  (v = [] -> default = []) ->
  first_value (Url.parse_qs (written_query kvs)) k default = Ok v.
Proof.
  intros P ND L D. unfold first_value.
  rewrite (parse_qs_lookup _ _ k (parse_qsl_written kvs P)).
  - cbn [dict_lookup]. inversion ND as [|? ? N1 ND']; subst.
    replace (str_eqb (lit "encryption") k) with false.
    + rewrite dict_lookup_filter by exact ND'. rewrite L.
      destruct v as [|x v]; cbn [nonempty option_map]; [|reflexivity].
      now rewrite D.
    + symmetry. apply str_eqb_neq. intros <-. apply N1.
      clear -L. induction kvs as [|[k' v'] kvs IH]; [discriminate|].
      cbn [dict_lookup] in L. cbn [map fst].
      destruct (str_eqb k' (lit "encryption")) eqn:E.
      * left. now apply str_eqb_eq.
      * right. now apply IH.
  - cbn [map fst]. inversion ND as [|? ? N1 ND']; subst. constructor.
    + intros Hin. apply N1. now apply kept_names.
    + now apply kept_names_distinct.
Qed.

Lemma written_query_chars (kvs : list (str * str)) :
  plain_pairs kvs -> forallb query_char (written_query kvs) = true.
Proof.
  intros P. unfold written_query. rewrite forallb_app.
  replace (forallb query_char (lit "encryption=none")) with true by reflexivity.
  cbn [andb].
  apply plain_pairs_filter with (p := fun kv => nonempty (snd kv)) in P.
  induction (filter (fun kv => nonempty (snd kv)) kvs) as [|[k v] l IH];
    [reflexivity|].
  inversion P as [|? ? [Hk Hv] P']; subst. cbn [fst snd] in *.
  cbn [flat_map]. rewrite forallb_app, (IH P'), andb_true_r.
  unfold param. cbn [fst snd forallb]. rewrite forallb_app. cbn [forallb].
  replace (forallb query_char k) with true.
  - replace (forallb query_char v) with true; [reflexivity|].
    symmetry. revert Hv. apply forallb_impl. intros c H.
    now destruct (plain_char_parts c H).
  - symmetry. revert Hk. apply forallb_impl. intros c H.
    now destruct (plain_char_parts c (key_char_plain c H)).
Qed.

(** *** Lower-casing a host *)

Lemma lower_char_idem (c : N) : Str.lower_char (Str.lower_char c) = Str.lower_char c.
Proof.
  unfold Str.lower_char, Str.is_ascii_upper.
  destruct ((65 <=? c) && (c <=? 90)) eqn:U.
  - apply andb_true_iff in U as [U1 U2].
    apply N.leb_le in U1. apply N.leb_le in U2.
    replace ((65 <=? c + 32) && (c + 32 <=? 90)) with false
      by (symmetry; apply andb_false_iff; right; apply N.leb_gt; lia).
    replace (192 <=? c + 32) with false by (symmetry; apply N.leb_gt; lia).
    reflexivity.
  - destruct ((192 <=? c) && (c <=? 222) && negb (c =? 215)) eqn:L.
    + apply andb_true_iff in L as [L _]. apply andb_true_iff in L as [L1 L2].
      apply N.leb_le in L1. apply N.leb_le in L2.
      replace ((65 <=? c + 32) && (c + 32 <=? 90)) with false
        by (symmetry; apply andb_false_iff; right; apply N.leb_gt; lia).
      replace (c + 32 <=? 222) with false by (symmetry; apply N.leb_gt; lia).
      now rewrite andb_false_r.
    + now rewrite U, L.
Qed.

Lemma lower_idem (s : str) : Str.lower (Str.lower s) = Str.lower s.
Proof.
  unfold Str.lower. rewrite map_map. apply map_ext. intros c. apply lower_char_idem.
Qed.

Lemma lower_char_host (c : N) :
  host_char c = true ->
  host_char (Str.lower_char c) = true
  /\ (Str.lower_char c = ch "%" -> c = ch "%").
Proof.
  intros H.
  assert (B : c < 256).
  { unfold host_char in H. apply andb_true_iff in H as [H _].
    apply andb_true_iff in H as [H _]. now apply netloc_char_parts in H as [H _]. }
  revert c B H.
  assert (G : forall c, c < N.of_nat 256 ->
            (negb (host_char c)
             || (host_char (Str.lower_char c)
                 && (negb (Str.lower_char c =? ch "%") || (c =? ch "%")))) = true).
  { apply forall_below. vm_compute. reflexivity. }
  intros c B H. specialize (G c B). rewrite H in G. cbn [negb orb] in G.
  apply andb_true_iff in G as [G1 G2]. split; [exact G1|].
  intros E. rewrite E in G2. cbn in G2. now apply N.eqb_eq.
Qed.

Lemma lower_host (s : str) :
  forallb host_char s = true -> forallb host_char (Str.lower s) = true.
Proof.
  unfold Str.lower. induction s as [|c s IH]; cbn [map forallb]; [reflexivity|].
  intros H. apply andb_true_iff in H as [H1 H2].
  rewrite (proj1 (lower_char_host c H1)). now apply IH.
Qed.

Lemma lower_no_percent (s : str) :
  forallb host_char s = true -> ~ In (ch "%") s -> ~ In (ch "%") (Str.lower s).
Proof.
  unfold Str.lower. intros H N1 Hin. apply in_map_iff in Hin as (c & E & Hc).
  rewrite forallb_forall in H.
  apply (lower_char_host c (H c Hc)) in E. subst c. contradiction.
Qed.

Lemma hostname_stable (r : Url.parse_result) (a : str) :
  forallb host_char (fst (Url.hostinfo r)) = true ->
  Url.hostname r = Some a ->
  stable_host a /\ forallb host_char a = true.
Proof.
  unfold Url.hostname. intros Hc.
  destruct (fst (Url.hostinfo r)) as [|c0 h0] eqn:Eh; [discriminate|].
  remember (c0 :: h0) as h eqn:Eqh.
  destruct (Str.partition (ch "%") h) as [[host zone]|] eqn:Ep; intros E;
    injection E as <-.
  - apply partition_spec in Ep as [Eq Np].
    rewrite Eq in Hc. apply forallb_app_inv in Hc as [Hh Hz].
    assert (Np' := lower_no_percent host Hh Np).
    split; [split|].
    + now destruct (Str.lower host).
    + rewrite partition_app by exact Np'. apply lower_idem.
    + rewrite forallb_app, (lower_host host Hh). exact Hz.
  - apply partition_None in Ep.
    assert (Np' := lower_no_percent h Hc Ep).
    split; [split|].
    + rewrite Eqh. discriminate.
    + apply partition_None in Np'. rewrite Np'. apply lower_idem.
    + now apply lower_host.
Qed.

Lemma stable_hostname (r : Url.parse_result) (a : str) :
  fst (Url.hostinfo r) = a -> stable_host a -> Url.hostname r = Some a.
Proof.
  unfold Url.hostname, stable_host. intros -> [Hne Hs].
  destruct a as [|c0 a0]; [contradiction|].
  destruct (Str.partition (ch "%") (c0 :: a0)) as [[host zone]|] eqn:Ep.
  - apply partition_spec in Ep as [Eq _]. now rewrite Hs, Eq.
  - now rewrite Hs.
Qed.

(** *** The port, written in decimal *)

Lemma port_written (r : Url.parse_result) (n : Z) :
  (0 <= n <= 65535)%Z ->
  snd (Url.hostinfo r) = Some (Str.str_of_Z n) ->
  Url.port r = Ok (Some n).
Proof.
  intros Hn E. unfold Url.port. rewrite E.
  assert (S : Str.str_of_Z n = Str.str_of_N (Z.to_N n)) by now destruct n.
  rewrite S.
  destruct (port_digits (Z.to_N n)) as (D1 & _ & D3 & D4); [lia|].
  rewrite D1, D4, Z2N.id by lia.
  replace (Nat.ltb 4300 (List.length (Str.str_of_N (Z.to_N n)))) with false
    by (symmetry; apply Nat.ltb_ge; exact D3).
  replace (n <=? 65535)%Z with true by (symmetry; apply Z.leb_le; lia).
  reflexivity.
Qed.

(** *** The netloc of a URI that [urlparse] accepts *)

Lemma split_scheme_rest (p : N -> bool) (url s rest : str) :
  Url.split_scheme url = (s, rest) -> forallb p url = true -> forallb p rest = true.
Proof.
  unfold Url.split_scheme.
  destruct (Str.partition (ch ":") url) as [[pre post]|] eqn:Ep.
  - apply partition_spec in Ep as [Eq _].
    destruct pre as [|c0 pre].
    + intros E. now injection E as _ <-.
    + destruct (Str.is_ascii_alpha c0 && forallb Url.scheme_char (c0 :: pre));
        intros E; injection E as _ <-; [|trivial].
      rewrite Eq. intros H. apply forallb_app_inv in H as [_ H].
      cbn [forallb] in H. now apply andb_true_iff in H as [_ H].
  - intros E. now injection E as _ <-.
Qed.

Lemma split_netloc_cases (url : str) :
  (exists rest, url = 47 :: 47 :: rest) \/ Url.split_netloc url = Ok ([], url).
Proof.
  assert (D : forall c : N, c = 47 \/
            forall (A : Type) (x y : A),
              match c with 47 => x | _ => y end = y).
  { intros c. destruct c as [|p]; [now right|].
    do 6 (destruct p as [p|p|]; try (now right)). now left. }
  destruct url as [|c1 [|c2 rest]]; [now right| |].
  - right. destruct (D c1) as [->|E]; [reflexivity|].
    unfold Url.split_netloc. apply E.
  - destruct (D c1) as [->|E1]; [|right; unfold Url.split_netloc; apply E1].
    destruct (D c2) as [->|E2]; [left; now exists rest|].
    right. unfold Url.split_netloc. apply E2.
Qed.

Lemma split_netloc_chars (url n rest : str) :
  Url.split_netloc url = Ok (n, rest) ->
  forallb clean url = true ->
  forallb clean n = true
  /\ forallb (fun c => negb (Url.netloc_delim c)) n = true
  /\ Str.contains (ch "[") n = Str.contains (ch "]") n.
Proof.
  destruct (split_netloc_cases url) as [[url0 ->]|E].
  2:{ rewrite E. intros H. now injection H as <- <-. }
  unfold Url.split_netloc.
  destruct (Url.span_netloc url0) as [nl url'] eqn:Es.
  apply span_netloc_spec in Es as [Eq Hd].
  intros E Hc. cbn [forallb] in Hc.
  apply andb_true_iff in Hc as [_ Hc]. apply andb_true_iff in Hc as [_ Hc].
  rewrite Eq in Hc. apply forallb_app_inv in Hc as [Hc _].
  destruct (Str.contains (ch "[") nl) eqn:O, (Str.contains (ch "]") nl) eqn:C;
    cbn [xorb andb] in E; try discriminate.
  - destruct (Url.check_bracketed_netloc nl); try discriminate.
    cbn [bind] in E. injection E as <- <-. rewrite O, C. auto.
  - injection E as <- <-. rewrite O, C. auto.
Qed.

Lemma urlparse_netloc (uri : str) (r : Url.parse_result) :
  Url.urlparse uri = Ok r ->
  Str.contains (ch "[") (Url.netloc r) = false ->
  forallb netloc_char (Url.netloc r) = true.
Proof.
  intros H Hb.
  assert (G : forallb clean (Url.netloc r) = true
              /\ forallb (fun c => negb (Url.netloc_delim c)) (Url.netloc r) = true
              /\ Str.contains (ch "[") (Url.netloc r) = Str.contains (ch "]") (Url.netloc r)
              /\ forallb (fun c => c <? 256) (Url.netloc r) = true).
  { unfold Url.urlparse in H.
    destruct (Url.urlsplit uri) as [r0|e|y] eqn:Hs; try discriminate.
    cbn [bind] in H.
    assert (Er : Url.netloc r = Url.netloc r0).
    { destruct (existsb _ _ && _); [|now injection H as <-].
      destruct (Url.splitparams (Url.path r0)). now injection H as <-. }
    rewrite Er. clear H Er Hb.
    unfold Url.urlsplit in Hs.
    destruct (Url.split_scheme (Url.clean_url uri)) as [s url1] eqn:Es.
    apply split_scheme_rest with (p := clean) in Es;
      [|apply (forallb_filter clean)].
    destruct (Url.split_netloc url1) as [[nl url2]|e|y] eqn:En; try discriminate.
    cbn [bind] in Hs.
    destruct (Url.split_at (ch "#") url2) as [url3 fragment].
    destruct (Url.split_at (ch "?") url3) as [url4 query].
    unfold Url.checknetloc in Hs.
    destruct (forallb (fun c => c <? 256) nl) eqn:Eb; try discriminate.
    cbn [bind] in Hs. injection Hs as <-. cbn [Url.netloc].
    destruct (split_netloc_chars _ _ _ En Es) as (G1 & G2 & G3).
    auto. }
  destruct G as (G1 & G2 & G3 & G4).
  rewrite Hb in G3. symmetry in G3.
  apply contains_false in Hb. apply contains_false in G3.
  rewrite forallb_forall in *. intros c Hc.
  unfold netloc_char. rewrite (G4 c Hc).
  specialize (G1 c Hc). unfold clean in G1. rewrite G1, (G2 c Hc). cbn [andb].
  apply andb_true_iff. split; apply negb_true_iff, N.eqb_neq; congruence.
Qed.

Lemma netloc_parts (r : Url.parse_result) (u : str) :
  forallb netloc_char (Url.netloc r) = true ->
  Url.username r = Some u ->
  forallb user_char u = true /\ forallb host_char (fst (Url.hostinfo r)) = true.
Proof.
  unfold Url.username, Url.hostinfo, Url.hostinfo_of. intros Hc.
  destruct (Str.rpartition (ch "@") (Url.netloc r)) as [[ui hi]|] eqn:Er;
    [|discriminate].
  apply rpartition_spec in Er as [Eq Nat].
  rewrite Eq in Hc. apply forallb_app_inv in Hc as [Hui Hhi].
  cbn [forallb] in Hhi. apply andb_true_iff in Hhi as [_ Hhi].
  intros Hu. split.
  - assert (G : forallb netloc_char u = true /\ ~ In (ch ":") u).
    { destruct (Str.partition (ch ":") ui) as [[u1 pw]|] eqn:Ep;
        injection Hu as <-.
      - apply partition_spec in Ep as [Eu Nc]. rewrite Eu in Hui.
        now apply forallb_app_inv in Hui as [Hui _].
      - now apply partition_None in Ep. }
    destruct G as [G1 G2]. rewrite forallb_forall in *. intros c Hin.
    unfold user_char. rewrite (G1 c Hin). cbn [andb].
    apply negb_true_iff, N.eqb_neq. congruence.
  - replace (Str.partition (ch "[") hi) with (@None (str * str))
      by (symmetry; apply partition_None;
          apply (forallb_not_In netloc_char); [reflexivity | exact Hhi]).
    assert (G : forall h, (forall c, In c h -> In c hi) -> ~ In (ch ":") h ->
                forallb host_char h = true).
    { intros h Sub Nc. rewrite forallb_forall in *. intros c Hin.
      unfold host_char. rewrite (Hhi c (Sub c Hin)). cbn [andb].
      apply andb_true_iff. split; apply negb_true_iff, N.eqb_neq.
      - congruence.
      - intros ->. apply Nat. now apply Sub. }
    destruct (Str.partition (ch ":") hi) as [[hn p]|] eqn:Ep; cbn [fst].
    + apply partition_spec in Ep as [Eh Nc]. apply G; [|exact Nc].
      intros c Hin. rewrite Eh. apply in_or_app. now left.
    + apply partition_None in Ep. now apply G.
Qed.

(** *** Values of [parse_qs] are never blank *)

Lemma unquote_runs_nonempty (s run : str) :
  s <> [] \/ run <> [] -> Url.unquote_runs s run <> [].
Proof.
  revert run. induction s as [|c s IH]; intros run H.
  - destruct H as [H|H]; [congruence|]. cbn [Url.unquote_runs].
    assert (R : rev run <> []).
    { intros E. apply H. apply (f_equal (@rev N)) in E.
      now rewrite rev_involutive in E. }
    destruct (rev run) as [|x t]; [congruence|].
    assert (P : Url.percent_decode (x :: t) <> []).
    { cbn [Url.percent_decode]. destruct t as [|a [|b t']]; try discriminate.
      destruct (Json.hex_value a), (Json.hex_value b); try discriminate.
      destruct (x =? ch "%"); discriminate. }
    destruct (Url.percent_decode (x :: t)) as [|b rest]; [congruence|].
    unfold Utf8.decode_replace. cbn [List.length Utf8.decode_replace_loop].
    destruct (Utf8.decode_step b rest); discriminate.
  - cbn [Url.unquote_runs]. destruct (c <? 128).
    + apply IH. right. discriminate.
    + intros E. apply app_eq_nil in E as [_ E]. discriminate.
Qed.

Lemma unquote_nonempty (s : str) : s <> [] -> Url.unquote s <> [].
Proof.
  intros H. unfold Url.unquote. destruct (Str.contains (ch "%") s); [|exact H].
  apply unquote_runs_nonempty. now left.
Qed.

Lemma parse_qsl_values (qs : str) :
  Forall (fun p => snd p <> []) (Url.parse_qsl qs).
Proof.
  unfold Url.parse_qsl. destruct qs as [|c qs]; [constructor|].
  induction (Str.split (ch "&") (c :: qs)) as [|f l IH]; [constructor|].
  cbn [flat_map]. apply Forall_app. split; [|exact IH].
  unfold Url.parse_field.
  destruct (Str.partition (ch "=") f) as [[n v]|]; [|constructor].
  destruct v as [|x v]; constructor; [|constructor].
  cbn [snd]. apply unquote_nonempty. discriminate.
Qed.

Lemma parse_qs_nonblank (qs : str) :
  Forall (fun kv => Forall (fun v => v <> []) (snd kv)) (Url.parse_qs qs).
Proof.
  unfold Url.parse_qs. pose proof (parse_qsl_values qs) as V.
  assert (G : forall l d,
            Forall (fun p : str * str => snd p <> []) l ->
            Forall (fun kv : str * list str => Forall (fun v => v <> []) (snd kv)) d ->
            Forall (fun kv : str * list str => Forall (fun v => v <> []) (snd kv))
                   (fold_left Url.add_value l d)).
  { induction l as [|nv l IH]; intros d Hl F; cbn [fold_left]; [exact F|].
    inversion Hl as [|? ? Hv Hl']; subst.
    apply IH; [exact Hl'|]. unfold Url.add_value.
    destruct (dict_lookup (fst nv) d) as [vs|] eqn:E;
      apply (dict_set_Forall (fun vs => Forall (fun v => v <> []) vs)); auto.
    apply Forall_app. split; [|auto].
    exact (dict_lookup_Forall (fun vs => Forall (fun v => v <> []) vs) _ _ _ F E). }
  apply G; [exact V | constructor].
Qed.

Lemma first_value_nonblank (qs k default v : str) :
  default <> [] -> first_value (Url.parse_qs qs) k default = Ok v -> v <> [].
Proof.
  intros D. unfold first_value.
  destruct (dict_lookup k (Url.parse_qs qs)) as [vs|] eqn:E.
  - pose proof (dict_lookup_Forall (fun vs => Forall (fun v => v <> []) vs)
                  _ _ _ (parse_qs_nonblank qs) E) as F.
    destruct vs as [|v0 vs]; [discriminate|]. intros H. injection H as <-.
    now inversion F.
  - intros H. now injection H as <-.
Qed.

(** *** The URI of a configuration that [from_vless_url] built *)

Lemma query_params_written (l : list (string * str)) :
  flat_map query_param
    (filter (fun kv => truthy (snd kv)) (map (fun kv => (fst kv, JStr (snd kv))) l))
  = flat_map param (filter (fun kv => nonempty (snd kv)) (named l)).
Proof.
  induction l as [|[k v] l IH]; [reflexivity|].
  cbn [map filter fst snd named]. destruct v as [|x v].
  - exact IH.
  - cbn [truthy nonempty flat_map]. unfold named in IH. rewrite IH. reflexivity.
Qed.

Lemma vless_uri_written (u a : str) (n : Z)
    (flow security sni fp pbk sid spx network name : str) :
  vless_uri (vless_config (Some u) (Some a) n
                          flow security sni fp pbk sid spx network) name
  = written u a (Str.str_of_Z n)
      (written_query (named (written_fields flow security sni fp pbk sid spx network)))
      name.
Proof.
  unfold vless_uri.
  change (optional_fields (vless_config (Some u) (Some a) n
            flow security sni fp pbk sid spx network))
    with (map (fun kv : string * str => (fst kv, JStr (snd kv)))
              (written_fields flow security sni fp pbk sid spx network)).
  rewrite query_params_written.
  change (text_of (field user_path "id" JNull _)) with u.
  change (text_of (field vnext_path "address" JNull _)) with a.
  change (text_of (field vnext_path "port" JNull _)) with (Str.str_of_Z n).
  unfold written, written_query.
  repeat (rewrite <- app_assoc || rewrite <- app_comm_cons).
  reflexivity.
Qed.

Lemma written_fields_plain (u a : option str) (n : Z)
    (flow security sni fp pbk sid spx network : str) :
  forallb (fun kv => plain (snd kv))
          (optional_fields (vless_config u a n
             flow security sni fp pbk sid spx network)) = true ->
  plain_pairs (named (written_fields flow security sni fp pbk sid spx network)).
Proof.
  cbn [forallb optional_fields]. intros H.
  change (forallb plain_char flow && (forallb plain_char security
          && (forallb plain_char sni && (forallb plain_char fp
          && (forallb plain_char pbk && (forallb plain_char sid
          && (forallb plain_char spx && (forallb plain_char network && true)))))))
          = true) in H.
  repeat (apply andb_true_iff in H as [? H]).
  unfold plain_pairs, named, written_fields. cbn [map fst snd].
  repeat constructor; cbn [fst snd]; try assumption; reflexivity.
Qed.

Lemma from_vless_url_port (uri : str) (r : Url.parse_result) (c : json) :
  Url.urlparse uri = Ok r -> from_vless_url uri = Ok c ->
  exists n, Url.port r = Ok (Some n) /\ (0 <= n <= 65535)%Z.
Proof.
  intros Hr Hc. pose proof (port_cases r) as C.
  unfold from_vless_url in Hc. rewrite Hr in Hc. cbn [bind] in Hc.
  destruct (snd (Url.hostinfo r)) as [p|].
  - destruct (valid_port p) eqn:V.
    + exists (Str.digits_value p). split; [exact C|].
      unfold valid_port in V. apply andb_true_iff in V as [_ V].
      apply Z.leb_le in V. pose proof (digits_value_nonneg p). lia.
    + destruct C as [m C]. rewrite C in Hc. discriminate.
  - rewrite C in Hc. discriminate.
Qed.

Lemma written_fields_distinct (flow security sni fp pbk sid spx network : str) :
  NoDup (lit "encryption"
         :: map fst (named (written_fields flow security sni fp pbk sid spx network))).
Proof.
  unfold named, written_fields. cbn [map fst].
  repeat constructor; cbv; intuition discriminate.
Qed.

(** C1, as amended.  Let [from_vless_url] accept a URI that has a user-info
    part, a non-empty host and no bracketed (IP-literal) host, and let every
    optional field it read (flow, security, sni, fp, pbk, sid, spx, type) be
    free of [&], [#], [+], [%], tab and line breaks.  Then any URI that
    [to_vless_url] produces for the resulting configuration, whatever the
    display name typed at its prompt, is read back by [from_vless_url] as the
    same configuration: same uuid, address, port and optional fields. *)
Theorem uri_roundtrip (uri : str) (r : Url.parse_result) (c : json)
    (w w' : console) (url : str) :
  Url.urlparse uri = Ok r ->
  from_vless_url uri = Ok c ->
  Url.username r <> None ->
  fst (Url.hostinfo r) <> [] ->
  Str.contains (ch "[") (Url.netloc r) = false ->
  forallb (fun kv => plain (snd kv)) (optional_fields c) = true ->
  to_vless_url c w = (Ok url, w') ->
  from_vless_url url = Ok c.
Proof.
  intros Hr Hc Hu Hh Hb Hp Hw.
  destruct (from_vless_url_port uri r c Hr Hc) as (n & Hn & Bn).
  destruct (from_vless_url_parsed uri r n Hr Hn)
    as (flow & security & sni & fp & pbk & sid & spx & network
        & E & F1 & F2 & F3 & F4 & F5 & F6 & F7 & F8).
  rewrite E in Hc. injection Hc as <-.
  destruct (Url.username r) as [u|] eqn:Eu; [clear Hu | contradiction].
  pose proof (urlparse_netloc uri r Hr Hb) as Hnl.
  destruct (netloc_parts r u Hnl Eu) as [Cu Ch].
  destruct (Url.hostname r) as [a|] eqn:Ea.
  2:{ exfalso. unfold Url.hostname in Ea.
      destruct (fst (Url.hostinfo r)); [contradiction|].
      destruct (Str.partition _ _) as [[? ?]|]; discriminate. }
  destruct (hostname_stable r a Ch Ea) as [Sa Ca].
  apply first_value_nonblank in F2 as N2; [|discriminate].
  apply first_value_nonblank in F8 as N8; [|discriminate].
  apply written_fields_plain in Hp.
  pose proof (written_fields_distinct flow security sni fp pbk sid spx network) as ND.
  set (kvs := named (written_fields flow security sni fp pbk sid spx network)) in *.
  destruct (to_vless_url_Ok _ _ _ _ Hw) as (u0 & address & custom & name & H1 & _ & _ & ->).
  destruct (url_head_uri _ _ _ H1) as (_ & _ & U). rewrite U, vless_uri_written.
  fold kvs.
  destruct (port_digits (Z.to_N n)) as (D1 & D2 & _); [lia|].
  assert (S : Str.str_of_Z n = Str.str_of_N (Z.to_N n)) by now destruct n.
  rewrite <- S in D1, D2.
  pose proof (written_query_chars kvs Hp) as Cq.
  pose proof (urlparse_written u a _ _ name Cu Ca D1 Cq) as Hr'.
  set (r' := Url.ParseResult _ _ _ _ _ _) in Hr'.
  assert (Hi : Url.hostinfo r' = (a, Some (Str.str_of_Z n)))
    by (apply (written_hostinfo u a _ (written_query kvs) name Ca D1 D2)).
  assert (Hn' : Url.port r' = Ok (Some n))
    by (apply port_written; [exact Bn | now rewrite Hi]).
  destruct (from_vless_url_parsed _ r' n Hr' Hn')
    as (flow' & security' & sni' & fp' & pbk' & sid' & spx' & network'
        & E' & G1 & G2 & G3 & G4 & G5 & G6 & G7 & G8).
  rewrite E'.
  replace (Url.username r') with (Some u)
    by (symmetry; apply (written_username u a _ (written_query kvs) name Cu Ca D1)).
  replace (Url.hostname r') with (Some a)
    by (symmetry; apply stable_hostname; [now rewrite Hi | exact Sa]).
  cbn [Url.query r'] in *.
  rewrite (first_value_written kvs (lit "flow") flow [] Hp ND) in G1
    by (reflexivity || congruence).
  rewrite (first_value_written kvs (lit "security") security (lit "none") Hp ND) in G2
    by (reflexivity || congruence).
  rewrite (first_value_written kvs (lit "sni") sni [] Hp ND) in G3
    by (reflexivity || congruence).
  rewrite (first_value_written kvs (lit "fp") fp [] Hp ND) in G4
    by (reflexivity || congruence).
  rewrite (first_value_written kvs (lit "pbk") pbk [] Hp ND) in G5
    by (reflexivity || congruence).
  rewrite (first_value_written kvs (lit "sid") sid [] Hp ND) in G6
    by (reflexivity || congruence).
  rewrite (first_value_written kvs (lit "spx") spx [] Hp ND) in G7
    by (reflexivity || congruence).
  rewrite (first_value_written kvs (lit "type") network (lit "tcp") Hp ND) in G8
    by (reflexivity || congruence).
  congruence.
Qed.

Lemma uri_roundtrip_witness :
  let uri := lit "vless://u@H:443?type=ws&security=tls&sni=example.com" in
  let w := console_of [Line (lit "home")] in
  let url := lit "vless://u@h:443?encryption=none&security=tls&sni=example.com&type=ws#home" in
  from_vless_url uri = Ok sample_config
  /\ fst (to_vless_url sample_config w) = Ok url
  /\ from_vless_url url = Ok sample_config.
Proof.
  cbv zeta.
  assert (Hr : Url.urlparse (lit "vless://u@H:443?type=ws&security=tls&sni=example.com")
               = Ok (Url.ParseResult (lit "vless") (lit "u@H:443") [] []
                       (lit "type=ws&security=tls&sni=example.com") []))
    by (vm_compute; reflexivity).
  assert (Hc : from_vless_url (lit "vless://u@H:443?type=ws&security=tls&sni=example.com")
               = Ok sample_config)
    by (vm_compute; reflexivity).
  assert (Hw : to_vless_url sample_config (console_of [Line (lit "home")])
               = (Ok (lit "vless://u@h:443?encryption=none&security=tls&sni=example.com&type=ws#home"),
                  {| stdin := [];
                     stdout := [lit "Enter VLESS name (leave empty to use 'h'): "] |}))
    by (vm_compute; reflexivity).
  split; [exact Hc|]. split; [now rewrite Hw|].
  refine (uri_roundtrip _ _ _ _ _ _ Hr Hc _ _ _ _ Hw).
  - vm_compute. discriminate.
  - vm_compute. discriminate.
  - vm_compute. reflexivity.
  - vm_compute. reflexivity.
Defined.

(** C1 fails as stated: a value that holds [&] is written back unescaped, and
    the URI produced no longer carries it. *)
Lemma uri_roundtrip_counterexample :
  let w := console_of [Line []] in
  let url := lit "vless://u@h:443?encryption=none&security=none&sni=a&b&type=tcp#h" in
  from_vless_url (lit "vless://u@h:443?sni=a%26b") = Ok (config_with_sni (lit "a&b"))
  /\ fst (to_vless_url (config_with_sni (lit "a&b")) w) = Ok url
  /\ from_vless_url url = Ok (config_with_sni (lit "a"))
  /\ config_with_sni (lit "a") <> config_with_sni (lit "a&b").
Proof.
  cbv zeta. repeat split; try (vm_compute; reflexivity).
  vm_compute. discriminate.
Qed.

Lemma to_vless_url_reply_witness :
  let w1 := console_of [Line (lit "alpha")] in
  let w2 := console_of [Line (lit "alpha"); Line (lit "beta")] in
  hd_error (stdin w1) = hd_error (stdin w2)
  /\ fst (to_vless_url sample_config w1) = fst (to_vless_url sample_config w2)
  /\ forall url w', to_vless_url sample_config w1 = (Ok url, w') ->
       exists prompt more, stdout w' = stdout w1 ++ prompt :: more.
Proof.
  cbv zeta. split; [reflexivity|].
  apply to_vless_url_reply. reflexivity.
Defined.

(** C6 fails as stated: [to_vless_url] prompts on the console and reads the
    name there, so two runs on the same configuration differ with the reply. *)
Lemma to_vless_url_reply_counterexample :
  let prompt := lit "Enter VLESS name (leave empty to use 'h'): " in
  to_vless_url sample_config (console_of [Line (lit "alpha")])
  = (Ok (lit "vless://u@h:443?encryption=none&security=tls&sni=example.com&type=ws#alpha"),
     {| stdin := []; stdout := [prompt] |})
  /\ to_vless_url sample_config (console_of [Line (lit "beta")])
     = (Ok (lit "vless://u@h:443?encryption=none&security=tls&sni=example.com&type=ws#beta"),
        {| stdin := []; stdout := [prompt] |}).
Proof. cbv zeta. split; vm_compute; reflexivity. Qed.

(** ** More on [decode_vpn_url] *)

(** *** The exceptions of [json.loads] *)

Lemma bind_raises {A B} (P : exn -> Prop) (m : outcome A) (k : A -> outcome B) (e : exn) :
  (m = Raise e -> P e) -> (forall a, k a = Raise e -> P e) ->
  bind m k = Raise e -> P e.
Proof.
  destruct m as [a|e'|y]; cbn [bind]; intros H1 H2 H;
    [now apply (H2 a) | injection H as ->; now apply H1 | discriminate].
Qed.

Lemma scanstring_raises (fuel : nat) (s : str) (e : exn) :
  Json.scanstring fuel s = Raise e -> json_error e.
Proof.
  revert s. induction fuel as [|fuel IH]; intros s; cbn [Json.scanstring];
    [discriminate|].
  assert (E : forall what, @Json.err (str * str) what = Raise e -> json_error e).
  { intros what H. injection H as <-. now left. }
  assert (B : forall s' (f : str * str -> outcome (str * str)),
            (forall r, f r = Raise e -> json_error e) ->
            bind (Json.scanstring fuel s') f = Raise e -> json_error e).
  { intros s' f Hf. apply bind_raises; [apply IH | exact Hf]. }
  assert (K : forall (x : N) (r : str * str),
            @Ok (str * str) (x :: fst r, snd r) = Raise e -> json_error e)
    by discriminate.
  destruct s as [|c rest]; [apply E|].
  destruct (c =? Json.quote); [discriminate|].
  destruct (c =? Json.backslash).
  - destruct rest as [|x rest2]; [apply E|].
    destruct (x =? ch "u").
    + destruct (Nat.ltb (List.length rest2) 5); [apply E|].
      destruct (Json.hex4 rest2) as [[cp rest3]|]; [|apply E].
      destruct (Json.is_high_surrogate cp && Nat.leb 7 (List.length rest3));
        [|apply B, K].
      destruct rest3 as [|b [|u rest4]]; try (apply B, K).
      destruct ((b =? Json.backslash) && (u =? ch "u")); [|apply B, K].
      destruct (Json.hex4 rest4) as [[c2 rest5]|]; [|apply E].
      destruct (Json.is_low_surrogate c2); apply B; discriminate.
    + destruct (Json.simple_escape x); [apply B, K | apply E].
  - destruct (c <? 32); [apply E | apply B, K].
Qed.

Lemma match_number_raises (s rest : str) (v : outcome json) (e : exn) :
  Json.match_number s = Some (v, rest) -> v = Raise e -> json_error e.
Proof.
  unfold Json.match_number.
  destruct (match s with
            | c :: t => if c =? ch "-" then (true, t) else (false, s)
            | [] => (false, s)
            end) as [neg s1].
  destruct s1 as [|d t]; [discriminate|].
  destruct (if (49 <=? d) && (d <=? 57)
            then let '(ds, r) := Json.span_digits t in Some (d :: ds, r)
            else if d =? 48 then Some ([d], t) else None) as [[digits r]|];
    [|discriminate].
  destruct (match r with
            | p :: f :: r' =>
                if (p =? ch ".") && Str.is_ascii_digit f
                then (true, snd (Json.span_digits r'))
                else (false, r)
            | _ => (false, r)
            end) as [has_frac r1].
  match goal with
  | |- context [let '(_, _) := ?X in _] => destruct X as [has_exp r2]
  end.
  destruct (has_frac || has_exp); intros H; injection H as <- _;
    [discriminate|].
  unfold Json.py_int. destruct (Nat.ltb 4300 (List.length digits));
    [|discriminate].
  intros H. injection H as <-. now right.
Qed.

Lemma scan_raises (fuel : nat) :
  (forall depth s e, Json.scan_once fuel depth s = Raise e -> json_error e)
  /\ (forall depth s e, Json.parse_elems fuel depth s = Raise e -> json_error e)
  /\ (forall depth s acc e,
        Json.parse_members fuel depth s acc = Raise e -> json_error e).
Proof.
  induction fuel as [|fuel (IH1 & IH2 & IH3)];
    [repeat split; intros; discriminate|].
  assert (E : forall A what e, @Json.err A what = Raise e -> json_error e).
  { intros A what e H. injection H as <-. now left. }
  split; [|split].
  - intros depth s e. cbn [Json.scan_once].
    destruct s as [|c rest]; [apply E|].
    destruct (c =? Json.quote).
    { apply bind_raises; [apply scanstring_raises | discriminate]. }
    destruct (c =? ch "{").
    { destruct depth as [|depth]; [discriminate|].
      destruct (Json.skip_ws rest) as [|x rest']; [apply E|].
      destruct (x =? ch "}"); [discriminate|].
      apply bind_raises; [apply IH3 | discriminate]. }
    destruct (c =? ch "[").
    { destruct depth as [|depth]; [discriminate|].
      destruct (Json.skip_ws rest) as [|x rest']; [apply E|].
      destruct (x =? ch "]"); [discriminate|].
      apply bind_raises; [apply IH2 | discriminate]. }
    repeat match goal with
           | |- (if ?b then Ok _ else _) = _ -> _ => destruct b; [discriminate|]
           end.
    destruct (Json.match_number (c :: rest)) as [[v rest']|] eqn:M; [|apply E].
    apply bind_raises; [|discriminate].
    now apply (match_number_raises _ _ _ _ M).
  - intros depth s e. cbn [Json.parse_elems].
    apply bind_raises; [apply IH1|]. intros [v rest].
    destruct (Json.skip_ws rest) as [|x rest']; [apply E|].
    destruct (x =? ch "]"); [discriminate|].
    destruct (x =? ch ","); [|apply E].
    apply bind_raises; [apply IH2 | discriminate].
  - intros depth s acc e. cbn [Json.parse_members].
    destruct s as [|q s1]; [apply E|].
    destruct (negb (q =? Json.quote)); [apply E|].
    apply bind_raises; [apply scanstring_raises|]. intros [key rest].
    destruct (Json.skip_ws rest) as [|colon rest1]; [apply E|].
    destruct (negb (colon =? ch ":")); [apply E|].
    apply bind_raises; [apply IH1|]. intros [v rest2].
    destruct (Json.skip_ws rest2) as [|x rest3]; [apply E|].
    destruct (x =? ch "}"); [discriminate|].
    destruct (x =? ch ","); [apply IH3 | apply E].
Qed.

Lemma loads_raises (s : str) (e : exn) : Json.loads s = Raise e -> json_error e.
Proof.
  assert (G : (r <- Json.scan_once (2 * List.length s + 2) Json.nesting_limit
                                   (Json.skip_ws s) ;;
               match Json.skip_ws (snd r) with
               | [] => Ok (fst r)
               | _ :: _ => Json.err "Extra data"
               end) = Raise e -> json_error e).
  { apply bind_raises; [apply scan_raises|]. intros r.
    destruct (Json.skip_ws (snd r)); [discriminate|].
    intros H. injection H as <-. now left. }
  unfold Json.loads. destruct s as [|c s]; [exact G|].
  destruct (N.eq_dec c 65279) as [->|N]; [intros H; injection H as <-; now left|].
  replace (match c with 65279 => _ | _ => _ end)
    with (r <- Json.scan_once (2 * List.length (c :: s) + 2) Json.nesting_limit
                              (Json.skip_ws (c :: s)) ;;
          match Json.skip_ws (snd r) with
          | [] => Ok (fst r)
          | _ :: _ => Json.err "Extra data"
          end); [exact G|].
  destruct c as [|p]; [reflexivity|].
  do 16 (destruct p as [p|p|]; try reflexivity). congruence.
Qed.

(** *** The exceptions of the other library calls *)

Lemma map_ok_raises {A B} (f : A -> B) (m : outcome A) (e : exn) :
  map_ok f m = Raise e -> m = Raise e.
Proof. destruct m; cbn; intros H; [discriminate | now injection H as -> | discriminate]. Qed.

Lemma a2b_loop_raises (data : bytes) (quad_pos leftchar pads : N) (e : exn) :
  Base64.a2b_loop data quad_pos leftchar pads = Raise e -> class_of e = BinasciiError.
Proof.
  revert quad_pos leftchar pads.
  induction data as [|c rest IH]; intros quad_pos leftchar pads;
    cbn [Base64.a2b_loop].
  - destruct (quad_pos =? 0); [discriminate|].
    destruct (quad_pos =? 1); intros H; now injection H as <-.
  - destruct (c =? ch "=").
    + destruct (2 <=? quad_pos); [|apply IH].
      destruct (4 <=? quad_pos + (pads + 1)); [discriminate | apply IH].
    + destruct (Base64.table_a2b c) as [v|]; [|apply IH].
      destruct (quad_pos =? 0); [apply IH|].
      destruct (quad_pos =? 1); [intros H; apply map_ok_raises in H; revert H; apply IH|].
      destruct (quad_pos =? 2); intros H; apply map_ok_raises in H; revert H; apply IH.
Qed.

Lemma urlsafe_b64decode_raises (s : str) (e : exn) :
  Base64.urlsafe_b64decode s = Raise e -> is_ValueError (class_of e) = true.
Proof.
  unfold Base64.urlsafe_b64decode, Base64.a2b_base64.
  destruct (Str.isascii s).
  - intros H. apply a2b_loop_raises in H. now rewrite H.
  - intros H. now injection H as <-.
Qed.

Lemma utf8_decode_raises (fuel : nat) (data : bytes) (e : exn) :
  Utf8.decode_strict fuel data = Raise e -> class_of e = UnicodeDecodeError.
Proof.
  revert data. induction fuel as [|fuel IH]; intros [|b rest]; cbn [Utf8.decode_strict];
    try discriminate.
  destruct (Utf8.decode_step b rest) as [cp used|what used].
  - intros H. apply map_ok_raises in H. revert H. apply IH.
  - intros H. now injection H as <-.
Qed.

Ltac head_cases :=
  repeat match goal with
         | |- (match ?x with _ => _ end) = _ -> _ => destruct x
         | |- (if ?x then _ else _) = _ -> _ => destruct x
         end.

Ltac zlib_leaf :=
  try discriminate;
  try (intros H; injection H as <-; reflexivity).

Lemma inflate_codes_raises (fuel : nat) (ll dd : list N) (bs : list bool)
    (out : bytes) (e : exn) :
  Zlib.inflate_codes fuel ll dd bs out = Raise e -> zlib_error e.
Proof.
  revert bs out. induction fuel as [|fuel IH]; intros bs out;
    cbn [Zlib.inflate_codes]; [discriminate|].
  head_cases; zlib_leaf; apply IH.
Qed.

Lemma read_lens_raises (fuel : nat) (cl : list N) (total : nat) (bs : list bool)
    (acc : list N) (e : exn) :
  Zlib.read_lens fuel cl total bs acc = Raise e -> zlib_error e.
Proof.
  revert bs acc. induction fuel as [|fuel IH]; intros bs acc;
    cbn [Zlib.read_lens].
  - head_cases; zlib_leaf.
  - head_cases; zlib_leaf; try apply IH.
    all: repeat match goal with
                | |- (let '(_, _) := ?x in _) = _ -> _ => destruct x as [[? ?] ?]
                end; head_cases; zlib_leaf; apply IH.
Qed.

Lemma stored_copy_raises (n : nat) (bs : list bool) (out : bytes) (e : exn) :
  (fix copy (n : nat) (bs : list bool) (out : bytes) {struct n}
     : outcome (list bool * bytes) :=
     match n with
     | O => Ok (bs, out)
     | S n' =>
         match Zlib.take_bits 8 bs with
         | None => Zlib.truncated
         | Some (b, bs') => copy n' bs' (b :: out)
         end
     end) n bs out = Raise e -> zlib_error e.
Proof.
  revert bs out. induction n as [|n IH]; intros bs out; [discriminate|].
  destruct (Zlib.take_bits 8 bs) as [[b bs']|]; [apply IH|].
  intros H. injection H as <-. reflexivity.
Qed.

Lemma inflate_blocks_raises (fuel all : nat) (bs : list bool) (out : bytes) (e : exn) :
  Zlib.inflate_blocks fuel all bs out = Raise e -> zlib_error e.
Proof.
  revert bs out. induction fuel as [|fuel IH]; intros bs out;
    cbn [Zlib.inflate_blocks]; [discriminate|].
  assert (C : forall (final : N) (r : outcome (list bool * bytes)),
            (r = Raise e -> zlib_error e) ->
            match r with
            | Ok (bs', out') =>
                if final =? 1 then Ok (bs', out')
                else Zlib.inflate_blocks fuel all bs' out'
            | other => other
            end = Raise e -> zlib_error e).
  { intros final [[bs' out']|e'|y] Hr; [|exact Hr | discriminate].
    destruct (final =? 1); [discriminate | apply IH]. }
  destruct (Zlib.take_bits 1 bs) as [[final bs0]|]; zlib_leaf.
  destruct (Zlib.take_bits 2 bs0) as [[btype bs1]|]; zlib_leaf.
  cbv zeta.
  destruct (btype =? 0).
  { destruct (Zlib.take_bits 16 _) as [[len bs3]|]; zlib_leaf.
    destruct (Zlib.take_bits 16 bs3) as [[nlen bs4]|]; zlib_leaf.
    destruct (negb (len + nlen =? 65535)); zlib_leaf.
    apply C, stored_copy_raises. }
  destruct (btype =? 1); [apply C, inflate_codes_raises|].
  destruct (btype =? 2); zlib_leaf.
  destruct (Zlib.take_bits 5 bs1) as [[hlit bs2]|]; zlib_leaf.
  destruct (Zlib.take_bits 5 bs2) as [[hdist bs3]|]; zlib_leaf.
  destruct (Zlib.take_bits 4 bs3) as [[hclen bs4]|]; zlib_leaf.
  destruct (Nat.ltb _ _ || Nat.ltb _ _); zlib_leaf.
  destruct (Zlib.read_clens _ _ _ _) as [[assoc bs5]|]; zlib_leaf.
  destruct (negb (Zlib.code_ok _ _)); zlib_leaf.
  destruct (Zlib.read_lens _ _ _ _ _) as [[lens bs6]|e'|y] eqn:R; zlib_leaf.
  - destruct (nth 256 _ 0 =? 0); zlib_leaf.
    destruct (negb (Zlib.code_ok _ _)); zlib_leaf.
    destruct (negb (Zlib.code_ok _ _)); zlib_leaf.
    apply C, inflate_codes_raises.
  - intros H. injection H as <-. now apply read_lens_raises in R.
Qed.

Lemma decompress_raises (data : bytes) (e : exn) :
  Zlib.decompress data = Raise e -> zlib_error e.
Proof.
  unfold Zlib.decompress.
  destruct data as [|cmf [|flg body]]; zlib_leaf.
  destruct (negb (_ =? 0)); zlib_leaf.
  destruct (negb (_ =? 8)); zlib_leaf.
  destruct (7 <? _); zlib_leaf.
  destruct (N.testbit flg 5).
  { destruct (Nat.ltb _ _); zlib_leaf. }
  apply bind_raises; [apply inflate_blocks_raises|].
  intros [rest out_rev]. cbv zeta.
  destruct (Nat.ltb _ _); zlib_leaf.
  destruct (_ =? _); zlib_leaf.
Qed.

(** *** What [decode_vpn_url] raises *)

Lemma try_zlib_raises (raw_data : bytes) (e : exn) :
  try_zlib raw_data = Raise e ->
  class_of e = ZlibError \/ is_ValueError (class_of e) = true.
Proof.
  unfold try_zlib. destruct (Nat.leb 4 (List.length raw_data)).
  - apply (bind_raises (fun e => class_of e = ZlibError
                                 \/ is_ValueError (class_of e) = true)).
    + intros H. left. now apply decompress_raises in H.
    + intros decompressed. destruct (_ =? _).
      * apply (bind_raises (fun e => class_of e = ZlibError
                                     \/ is_ValueError (class_of e) = true)).
        -- intros H. right. apply utf8_decode_raises in H. now rewrite H.
        -- intros text H. right. apply loads_raises in H as [H|H]; now rewrite H.
      * intros H. injection H as <-. now right.
  - intros H. injection H as <-. now right.
Qed.

Lemma plain_json_raises (raw_data : bytes) (e : exn) :
  plain_json raw_data = Raise e ->
  exists cause, e = Exn ValueError (Fmt (lit "JSON decode error: ") cause).
Proof.
  unfold plain_json, try_except.
  destruct (text <- Utf8.decode raw_data ;; Json.loads text) as [j|e'|y] eqn:B;
    try discriminate.
  assert (X : is_Exception (class_of e') = true).
  { revert B. apply (bind_raises (fun e => is_Exception (class_of e) = true)).
    - intros H. apply utf8_decode_raises in H. now rewrite H.
    - intros text H. apply loads_raises in H as [H|H]; now rewrite H. }
  rewrite X. intros H. injection H as <-. now exists e'.
Qed.

Lemma parse_raw_data_raises (raw_data : bytes) (e : exn) :
  parse_raw_data raw_data = Raise e ->
  exists cause, e = Exn ValueError (Fmt (lit "JSON decode error: ") cause).
Proof.
  unfold parse_raw_data, try_except.
  destruct (try_zlib raw_data) as [j|e'|y] eqn:Z; try discriminate.
  assert (C : match class_of e' with
              | ZlibError => true
              | _ => is_ValueError (class_of e')
              end = true).
  { apply try_zlib_raises in Z as [Z|Z]; [now rewrite Z|].
    destruct (class_of e'); auto. }
  rewrite C. apply plain_json_raises.
Qed.

Lemma json_loads_raises (v : json) (e : exn) :
  json_loads v = Raise e ->
  match v with
  | JStr _ => json_error e
  | _ => class_of e = TypeError
  end.
Proof.
  destruct v; cbn [json_loads]; try (intros H; now injection H as <-).
  apply loads_raises.
Qed.

(** X1.  As long as [json.loads] stays within the recursion limit of the
    interpreter (the model stops at [Json.nesting_limit] levels of nesting;
    deeper, a [RecursionError] escapes from lines 42 and 63), whatever
    [decode_vpn_url] raises is one of: the [ValueError] for a text that does
    not start with [vpn://]; a [ValueError] that wraps the base64 failure; a
    [ValueError] that wraps the failure of the fallback reading (the failure
    of the compressed reading is never reported); or, once the payload is
    decoded, what [json.loads] raises on the nested [last_config] -- a JSON
    or value error for a string, a [TypeError] for anything else.  No
    [zlib.error] or [binascii.Error] leaves the function. *)
Theorem decode_vpn_url_raises (vpn_url : str) (e : exn) :
  decode_vpn_url vpn_url = Raise e ->
  (Str.startswith (lit "vpn://") vpn_url = false
   /\ e = Exn ValueError (Text (lit "Invalid VPN URL format")))
  \/ (exists cause, e = Exn ValueError (Fmt (lit "Base64 decode error: ") cause))
  \/ (exists cause, e = Exn ValueError (Fmt (lit "JSON decode error: ") cause))
  \/ (exists json_data last_config,
        decode_payload vpn_url = Ok json_data
        /\ json_path last_config_path json_data = Some last_config
        /\ match last_config with
           | JStr _ => class_of e = JSONDecodeError \/ class_of e = ValueError
           | _ => class_of e = TypeError
           end).
Proof.
  unfold decode_vpn_url.
  destruct (decode_payload vpn_url) as [j|e'|y] eqn:D; cbn [bind];
    [| |discriminate].
  - rewrite extract_nested_cases. intros H. right. right. right.
    destruct (json_path last_config_path j) as [v|] eqn:P; [|discriminate].
    exists j, v. split; [reflexivity|]. split; [exact P|].
    now apply json_loads_raises.
  - intros H. injection H as <-. revert D. unfold decode_payload.
    destruct (negb (Str.startswith (lit "vpn://") vpn_url)) eqn:S.
    + intros H. injection H as <-. left. split; [|reflexivity].
      now apply negb_true_iff in S.
    + cbv zeta. set (enc := match _ with O => _ | _ => _ end).
      unfold try_except.
      destruct (Base64.urlsafe_b64decode enc) as [raw|e0|y] eqn:B; cbn [bind];
        [| |discriminate].
      * intros H. right. right. left. now apply parse_raw_data_raises in H.
      * apply urlsafe_b64decode_raises in B.
        replace (is_Exception (class_of e0)) with true
          by (destruct (class_of e0); try discriminate; reflexivity).
        cbn [bind]. intros H. injection H as <-. right. left. now exists e0.
Qed.

(** X2.  When the value decoded from the payload has a
    [containers[0].xray.last_config] entry, [decode_vpn_url] returns what
    [json.loads] makes of that entry and nothing of the value around it: the
    parsed text when the entry is a string (not unwrapped a second time), a
    [TypeError] when it is anything else. *)
Theorem decode_vpn_url_nested (vpn_url : str) (json_data last_config : json) :
  decode_payload vpn_url = Ok json_data ->
  json_path last_config_path json_data = Some last_config ->
  decode_vpn_url vpn_url = json_loads last_config
  /\ (forall s, last_config = JStr s -> decode_vpn_url vpn_url = Json.loads s)
  /\ ((forall s, last_config <> JStr s) ->
      exists m, decode_vpn_url vpn_url = Raise (Exn TypeError m)).
Proof.
  intros D P.
  assert (E : decode_vpn_url vpn_url = json_loads last_config).
  { unfold decode_vpn_url. rewrite D. cbn [bind].
    now rewrite extract_nested_cases, P. }
  split; [exact E|]. split.
  - intros s ->. exact E.
  - intros N. rewrite E. destruct last_config; try (eexists; reflexivity).
    now destruct (N s).
Qed.

Lemma decode_vpn_url_nested_witness :
  let token := lit "vpn://" ++ Base64.urlsafe_b64encode (Utf8.encode wrapper_text) in
  decode_payload token = Ok wrapper_json
  /\ json_path last_config_path wrapper_json = Some (JStr (lit "{}"))
  /\ decode_vpn_url token = Json.loads (lit "{}").
Proof.
  cbv zeta.
  assert (D : decode_payload (lit "vpn://" ++ Base64.urlsafe_b64encode
                                (Utf8.encode wrapper_text)) = Ok wrapper_json)
    by (vm_compute; reflexivity).
  assert (P : json_path last_config_path wrapper_json = Some (JStr (lit "{}")))
    by reflexivity.
  split; [exact D|]. split; [exact P|].
  exact (proj1 (proj2 (decode_vpn_url_nested _ _ _ D P)) _ eq_refl).
Defined.

(** *** White space around the payload, and the two alphabets *)

Lemma lstrip_with_app_all (p : N -> bool) (ws x : str) :
  forallb p ws = true -> Str.lstrip_with p (ws ++ x) = Str.lstrip_with p x.
Proof.
  induction ws as [|c ws IH]; cbn [forallb app Str.lstrip_with]; [reflexivity|].
  intros H. apply andb_true_iff in H as [-> H]. now apply IH.
Qed.

Lemma lstrip_with_app_kept (p : N -> bool) (s x : str) :
  Str.lstrip_with p s <> [] ->
  Str.lstrip_with p (s ++ x) = Str.lstrip_with p s ++ x.
Proof.
  induction s as [|c s IH]; cbn [app Str.lstrip_with]; [congruence|].
  destruct (p c); [exact IH | reflexivity].
Qed.

Lemma lstrip_with_nil (p : N -> bool) (s : str) :
  Str.lstrip_with p s = [] -> forallb p s = true.
Proof.
  induction s as [|c s IH]; cbn [forallb Str.lstrip_with]; [reflexivity|].
  destruct (p c); [exact IH | discriminate].
Qed.

Lemma strip_surrounded (ws1 ws2 p : str) :
  forallb Str.isspace ws1 = true -> forallb Str.isspace ws2 = true ->
  Str.strip (ws1 ++ p ++ ws2) = Str.strip p.
Proof.
  intros H1 H2. unfold Str.strip. rewrite lstrip_with_app_all by exact H1.
  destruct (Str.lstrip_with Str.isspace p) as [|c t] eqn:L.
  - apply lstrip_with_nil in L.
    rewrite <- (app_nil_r (p ++ ws2)), lstrip_with_app_all; [reflexivity|].
    now rewrite forallb_app, L, H2.
  - rewrite lstrip_with_app_kept, L by (rewrite L; discriminate).
    unfold Str.rstrip_with. rewrite rev_app_distr, lstrip_with_app_all;
      [reflexivity|].
    rewrite forallb_forall in *. intros x Hx. apply H2. now apply in_rev.
Qed.

(** X3.  White space before and after the payload does not count: a token
    decodes as the same token with its payload stripped.  (White space inside
    the payload is not removed before the padding is computed.) *)
Theorem surrounding_space_ignored (ws1 ws2 p : str) :
  forallb Str.isspace ws1 = true -> forallb Str.isspace ws2 = true ->
  decode_vpn_url (lit "vpn://" ++ ws1 ++ p ++ ws2) = decode_vpn_url (lit "vpn://" ++ p).
Proof.
  intros H1 H2. unfold decode_vpn_url. rewrite !decode_payload_unfold.
  now rewrite strip_surrounded.
Qed.

Lemma surrounding_space_ignored_witness :
  forallb Str.isspace [32; 9] = true /\ forallb Str.isspace [13; 10] = true
  /\ decode_vpn_url (lit "vpn://" ++ [32; 9] ++ lit "e30" ++ [13; 10])
     = decode_vpn_url (lit "vpn://" ++ lit "e30").
Proof.
  split; [reflexivity|]. split; [reflexivity|].
  apply surrounding_space_ignored; reflexivity.
Defined.

Lemma urlsafe_translate_cases (c : N) :
  Base64.urlsafe_translate c = c
  \/ (c = ch "-" /\ Base64.urlsafe_translate c = ch "+")
  \/ (c = ch "_" /\ Base64.urlsafe_translate c = ch "/").
Proof.
  unfold Base64.urlsafe_translate.
  destruct (c =? ch "-") eqn:E1; [apply N.eqb_eq in E1; auto|].
  destruct (c =? ch "_") eqn:E2; [apply N.eqb_eq in E2; auto|].
  now left.
Qed.

Lemma urlsafe_translate_idem (c : N) :
  Base64.urlsafe_translate (Base64.urlsafe_translate c) = Base64.urlsafe_translate c.
Proof.
  destruct (urlsafe_translate_cases c) as [E|[[_ E]|[_ E]]]; rewrite E;
    [exact E | reflexivity | reflexivity].
Qed.

Lemma urlsafe_translate_class (p : N -> bool) (c : N) :
  p (ch "-") = p (ch "+") -> p (ch "_") = p (ch "/") ->
  p (Base64.urlsafe_translate c) = p c.
Proof.
  intros H1 H2.
  destruct (urlsafe_translate_cases c) as [E|[[-> E]|[-> E]]]; rewrite E; auto.
Qed.

Lemma lstrip_with_map (p : N -> bool) (f : N -> N) (s : str) :
  (forall c, p (f c) = p c) ->
  Str.lstrip_with p (map f s) = map f (Str.lstrip_with p s).
Proof.
  intros H. induction s as [|c s IH]; cbn [map Str.lstrip_with]; [reflexivity|].
  rewrite H. destruct (p c); [exact IH | reflexivity].
Qed.

Lemma strip_translate (s : str) :
  Str.strip (map Base64.urlsafe_translate s)
  = map Base64.urlsafe_translate (Str.strip s).
Proof.
  assert (H : forall c, Str.isspace (Base64.urlsafe_translate c) = Str.isspace c)
    by (intros c; apply urlsafe_translate_class; reflexivity).
  unfold Str.strip, Str.rstrip_with.
  rewrite lstrip_with_map by exact H.
  rewrite <- map_rev, lstrip_with_map by exact H. now rewrite map_rev.
Qed.

Lemma pad4_translate (s : str) :
  pad4 (map Base64.urlsafe_translate s) = map Base64.urlsafe_translate (pad4 s).
Proof.
  unfold pad4. rewrite length_map.
  destruct (List.length s mod 4)%nat; [reflexivity|].
  rewrite map_app. f_equal. clear.
  induction (4 - _)%nat as [|k IH]; [reflexivity|].
  cbn [repeat map]. now rewrite <- IH.
Qed.

Lemma urlsafe_b64decode_translate (s : str) :
  Base64.urlsafe_b64decode (map Base64.urlsafe_translate s)
  = Base64.urlsafe_b64decode s.
Proof.
  unfold Base64.urlsafe_b64decode.
  replace (Str.isascii (map Base64.urlsafe_translate s)) with (Str.isascii s).
  - rewrite map_map.
    now rewrite (map_ext _ _ (fun c => urlsafe_translate_idem c)).
  - unfold Str.isascii. induction s as [|c s IH]; cbn [map forallb]; [reflexivity|].
    rewrite IH. f_equal. symmetry.
    apply (urlsafe_translate_class (fun c => c <? 128)); reflexivity.
Qed.

(** X4.  The payload may be written in either base64 alphabet: replacing
    every [-] by [+] and every [_] by [/] does not change what a token
    decodes to. *)
Theorem standard_alphabet_accepted (p : str) :
  decode_vpn_url (lit "vpn://" ++ map Base64.urlsafe_translate p)
  = decode_vpn_url (lit "vpn://" ++ p).
Proof.
  unfold decode_vpn_url. rewrite !decode_payload_unfold.
  now rewrite strip_translate, pad4_translate, urlsafe_b64decode_translate.
Qed.

Lemma decode_vpn_url_raises_witness :
  decode_vpn_url (lit "vpn://*") =
    Raise (Exn ValueError
             (Fmt (lit "JSON decode error: ")
                  (Exn JSONDecodeError (Lib "Expecting value"))))
  /\ exists cause,
       Exn ValueError (Fmt (lit "JSON decode error: ")
                           (Exn JSONDecodeError (Lib "Expecting value")))
       = Exn ValueError (Fmt (lit "JSON decode error: ") cause).
Proof.
  assert (H : decode_vpn_url (lit "vpn://*") =
              Raise (Exn ValueError
                       (Fmt (lit "JSON decode error: ")
                            (Exn JSONDecodeError (Lib "Expecting value")))))
    by (vm_compute; reflexivity).
  split; [exact H|].
  destruct (decode_vpn_url_raises _ _ H) as [[_ E]|[[c E]|[[c E]|(j & v & D & _)]]].
  - discriminate E.
  - discriminate E.
  - now exists c.
  - exfalso. vm_compute in D. discriminate D.
Defined.



(** ** More on [from_vless_url] *)

Lemma from_vless_url_read (uri : str) :
  from_vless_url uri = (parsed <- Url.urlparse uri ;; read_parsed parsed).
Proof. reflexivity. Qed.

Lemma read_parsed_ext (r1 r2 : Url.parse_result) :
  Url.netloc r1 = Url.netloc r2 -> Url.query r1 = Url.query r2 ->
  read_parsed r1 = read_parsed r2.
Proof.
  destruct r1, r2. cbn [Url.netloc Url.query]. intros -> ->. reflexivity.
Qed.

(** *** [parse_qs] lists the values of a name in their order *)

Lemma str_eqb_sym (a b : str) : str_eqb a b = str_eqb b a.
Proof.
  destruct (str_eqb a b) eqn:E1, (str_eqb b a) eqn:E2; try reflexivity.
  - apply str_eqb_eq in E1. subst. now rewrite str_eqb_refl in E2.
  - apply str_eqb_eq in E2. subst. now rewrite str_eqb_refl in E1.
Qed.

Lemma fold_add_value_values (pairs : list (str * str))
    (d : list (str * list str)) (k : str) :
  dict_lookup k (fold_left Url.add_value pairs d)
  = match dict_lookup k d, values_of k pairs with
    | Some vs, more => Some (vs ++ more)
    | None, [] => None
    | None, more => Some more
    end.
Proof.
  revert d. induction pairs as [|[k1 v1] pairs IH]; intros d.
  - cbn. destruct (dict_lookup k d); [now rewrite app_nil_r | reflexivity].
  - cbn [fold_left]. rewrite IH. unfold Url.add_value. cbn [fst snd].
    unfold values_of. cbn [filter fst].
    destruct (str_eqb k1 k) eqn:E.
    + apply str_eqb_eq in E. subst k1. cbn [map snd].
      destruct (dict_lookup k d) as [vs|]; rewrite dict_lookup_set, str_eqb_refl.
      * now rewrite <- app_assoc.
      * reflexivity.
    + destruct (dict_lookup k1 d) as [vs1|]; rewrite dict_lookup_set, E; reflexivity.
Qed.

Lemma first_value_query (qs k default : str) :
  first_value (Url.parse_qs qs) k default = Ok (query_value qs k default).
Proof.
  unfold first_value, Url.parse_qs, query_value.
  rewrite fold_add_value_values. cbn [dict_lookup]. unfold values_of.
  induction (Url.parse_qsl qs) as [|[k1 v1] l IH]; [reflexivity|].
  cbn [filter find fst]. destruct (str_eqb k1 k); [reflexivity | exact IH].
Qed.

Lemma read_parsed_Ok (r : Url.parse_result) (c : json) :
  read_parsed r = Ok c ->
  exists n,
    Url.port r = Ok (Some n)
    /\ c = vless_config (Url.username r) (Url.hostname r) n
             (query_value (Url.query r) (lit "flow") [])
             (query_value (Url.query r) (lit "security") (lit "none"))
             (query_value (Url.query r) (lit "sni") [])
             (query_value (Url.query r) (lit "fp") [])
             (query_value (Url.query r) (lit "pbk") [])
             (query_value (Url.query r) (lit "sid") [])
             (query_value (Url.query r) (lit "spx") [])
             (query_value (Url.query r) (lit "type") (lit "tcp")).
Proof.
  unfold read_parsed. rewrite !first_value_query. cbv zeta.
  destruct (Url.port r) as [[n|]|e|y]; cbn [bind py_int]; try discriminate.
  intros H. injection H as <-. now exists n.
Qed.

Lemma from_vless_url_Ok_inv (uri : str) (c : json) :
  from_vless_url uri = Ok c ->
  exists r, Url.urlparse uri = Ok r /\ read_parsed r = Ok c.
Proof.
  rewrite from_vless_url_read.
  destruct (Url.urlparse uri) as [r|e|y]; cbn [bind]; try discriminate.
  intros H. now exists r.
Qed.

(** X6.  Whatever the URI, an accepted one gives a configuration with the
    same fixed parts: one SOCKS inbound on 127.0.0.1:10808 with UDP, the log
    level [error], and exactly one outbound, of protocol [vless], whose single
    user has encryption [none]. *)
Theorem fixed_parts (uri : str) (c : json) :
  from_vless_url uri = Ok c ->
  json_path [Key "inbounds"] c
  = Some (JList [JDict [(lit "listen", JStr (lit "127.0.0.1"));
                        (lit "port", JInt 10808);
                        (lit "protocol", JStr (lit "socks"));
                        (lit "settings", JDict [(lit "udp", JBool true)])]])
  /\ json_path [Key "log"] c = Some (JDict [(lit "loglevel", JStr (lit "error"))])
  /\ (exists outbound, json_path [Key "outbounds"] c = Some (JList [outbound]))
  /\ json_path (outbound_path ++ [Key "protocol"]) c = Some (JStr (lit "vless"))
  /\ (exists user, json_path (vnext_path ++ [Key "users"]) c = Some (JList [user]))
  /\ json_path (user_path ++ [Key "encryption"]) c = Some (JStr (lit "none")).
Proof.
  intros H. apply from_vless_url_Ok_inv in H as (r & _ & H).
  apply read_parsed_Ok in H as (n & _ & ->).
  repeat split; try reflexivity; eexists; reflexivity.
Qed.

Lemma fixed_parts_witness :
  exists c,
    from_vless_url (lit "vless://u@h:1") = Ok c
    /\ json_path [Key "log"] c = Some (JDict [(lit "loglevel", JStr (lit "error"))]).
Proof.
  assert (H : from_vless_url (lit "vless://u@h:1")
              = Ok (vless_config (Some (lit "u")) (Some (lit "h")) 1
                                 [] (lit "none") [] [] [] [] [] (lit "tcp")))
    by (vm_compute; reflexivity).
  eexists. split; [exact H|].
  exact (proj1 (proj2 (fixed_parts _ _ H))).
Defined.

(** X7.  Each optional field of the configuration is the value of the first
    non-blank occurrence of its parameter in the query ([type], [security],
    [pbk], [sni], [fp], [sid], [flow], [spx]); when the parameter does not
    occur, or only with blank values, it is the default: [tcp] for the
    network, [none] for the security, the empty string for the others. *)
Theorem first_value_wins (uri : str) (r : Url.parse_result) (c : json) :
  Url.urlparse uri = Ok r ->
  from_vless_url uri = Ok c ->
  let value k default := Some (JStr (query_value (Url.query r) (lit k) default)) in
  json_path (stream_path ++ [Key "network"]) c = value "type"%string (lit "tcp")
  /\ json_path (stream_path ++ [Key "security"]) c = value "security"%string (lit "none")
  /\ json_path (reality_path ++ [Key "publicKey"]) c = value "pbk"%string []
  /\ json_path (reality_path ++ [Key "serverName"]) c = value "sni"%string []
  /\ json_path (reality_path ++ [Key "fingerprint"]) c = value "fp"%string []
  /\ json_path (reality_path ++ [Key "shortId"]) c = value "sid"%string []
  /\ json_path (user_path ++ [Key "flow"]) c = value "flow"%string []
  /\ json_path (reality_path ++ [Key "spiderX"]) c = value "spx"%string [].
Proof.
  intros Hr H. rewrite from_vless_url_read, Hr in H. cbn [bind] in H.
  apply read_parsed_Ok in H as (n & _ & ->).
  repeat split.
Qed.

Lemma first_value_wins_witness :
  let uri := lit "vless://u@h:1?type=ws&type=grpc&sni=&sni=b" in
  exists c,
    from_vless_url uri = Ok c
    /\ json_path (stream_path ++ [Key "network"]) c = Some (JStr (lit "ws"))
    /\ json_path (stream_path ++ [Key "security"]) c = Some (JStr (lit "none"))
    /\ json_path (reality_path ++ [Key "serverName"]) c = Some (JStr (lit "b")).
Proof.
  cbv zeta.
  assert (Hr : Url.urlparse (lit "vless://u@h:1?type=ws&type=grpc&sni=&sni=b")
               = Ok (Url.ParseResult (lit "vless") (lit "u@h:1") [] []
                       (lit "type=ws&type=grpc&sni=&sni=b") []))
    by (vm_compute; reflexivity).
  assert (H : from_vless_url (lit "vless://u@h:1?type=ws&type=grpc&sni=&sni=b")
              = Ok (vless_config (Some (lit "u")) (Some (lit "h")) 1
                                 [] (lit "none") (lit "b") [] [] [] [] (lit "ws")))
    by (vm_compute; reflexivity).
  eexists. split; [exact H|].
  destruct (first_value_wins _ _ _ Hr H) as (N & S & _ & V & _).
  split; [exact N|]. split; [exact S | exact V].
Defined.

(** *** [urlsplit] after the scheme *)

Lemma urlsplit_unfold (uri : str) :
  Url.urlsplit uri
  = urlsplit_rest (fst (Url.split_scheme (Url.clean_url uri)))
                  (snd (Url.split_scheme (Url.clean_url uri))).
Proof.
  unfold Url.urlsplit, urlsplit_rest.
  now destruct (Url.split_scheme (Url.clean_url uri)).
Qed.

(** [from_vless_url] in terms of [urlsplit]: the parameters that [urlparse]
    splits off the path are not read. *)
Lemma from_vless_url_urlsplit (uri : str) :
  from_vless_url uri = (r <- Url.urlsplit uri ;; read_parsed r).
Proof.
  rewrite from_vless_url_read. unfold Url.urlparse.
  destruct (Url.urlsplit uri) as [r|e|y]; cbn [bind]; try reflexivity.
  destruct (existsb _ _ && _); cbn [bind]; [|reflexivity].
  destruct (Url.splitparams (Url.path r)). cbn [bind].
  now apply read_parsed_ext.
Qed.

(** The scheme and the fragment have no part in the configuration. *)
Lemma read_urlsplit_rest (s1 s2 url : str) :
  (r <- urlsplit_rest s1 url ;; read_parsed r)
  = (r <- urlsplit_rest s2 url ;; read_parsed r).
Proof.
  unfold urlsplit_rest.
  destruct (Url.split_netloc url) as [[netloc url1]|e|y]; cbn [bind]; try reflexivity.
  destruct (Url.split_at (ch "#") url1) as [url2 fragment].
  destruct (Url.split_at (ch "?") url2) as [url3 query].
  destruct (Url.checknetloc netloc); reflexivity.
Qed.

Lemma lstrip_with_app_stop (p : N -> bool) (s : str) (c : N) (t : str) :
  p c = false -> Str.lstrip_with p (s ++ c :: t) = Str.lstrip_with p s ++ c :: t.
Proof.
  intros H. induction s as [|x s IH]; cbn [app Str.lstrip_with].
  - now rewrite H.
  - destruct (p x); [exact IH | reflexivity].
Qed.

Lemma clean_url_fragment (uri name : str) :
  Url.clean_url (uri ++ ch "#" :: name)
  = Url.clean_url uri ++ ch "#" :: filter clean name.
Proof.
  unfold Url.clean_url. rewrite lstrip_with_app_stop by reflexivity.
  now rewrite filter_app.
Qed.

Lemma clean_url_no_hash (uri : str) :
  ~ In (ch "#") uri -> ~ In (ch "#") (Url.clean_url uri).
Proof.
  unfold Url.clean_url. intros H Hin. apply H.
  apply filter_In in Hin as [Hin _].
  clear H. induction uri as [|c uri IH]; [exact Hin|].
  cbn [Str.lstrip_with] in Hin.
  destruct (Url.c0_control_or_space c); [right; now apply IH | exact Hin].
Qed.

Lemma split_scheme_fragment (url f : str) :
  ~ In (ch "#") url ->
  Url.split_scheme (url ++ ch "#" :: f)
  = (fst (Url.split_scheme url), snd (Url.split_scheme url) ++ ch "#" :: f).
Proof.
  intros Nh. unfold Url.split_scheme.
  destruct (Str.partition (ch ":") url) as [[pre post]|] eqn:P.
  - apply partition_spec in P as [-> Nc].
    rewrite <- app_assoc. cbn [app].
    rewrite partition_app by exact Nc.
    destruct pre as [|c0 pre]; [reflexivity|].
    destruct (Str.is_ascii_alpha c0 && forallb Url.scheme_char (c0 :: pre));
      [reflexivity|].
    cbn [fst snd]. now rewrite <- app_assoc.
  - apply partition_None in P.
    destruct (Str.partition (ch ":") (url ++ ch "#" :: f)) as [[pre post]|] eqn:Q;
      [|reflexivity].
    apply partition_spec in Q as [E Nc].
    assert (Hin : In (ch "#") pre).
    { assert (L : forall (a b x y : str),
                a ++ ch "#" :: b = x ++ ch ":" :: y ->
                ~ In (ch ":") a -> In (ch "#") x).
      { induction a as [|c a IHa]; intros b x y H Na.
        - destruct x as [|c x]; [discriminate | injection H as <- _; now left].
        - destruct x as [|c' x].
          + injection H as -> _. exfalso. apply Na. now left.
          + injection H as <- H. right. apply (IHa _ _ _ H).
            intros Hi. apply Na. now right. }
      exact (L _ _ _ _ E P). }
    destruct pre as [|c0 pre]; [destruct Hin|].
    replace (forallb Url.scheme_char (c0 :: pre)) with false.
    + now rewrite andb_false_r.
    + symmetry. apply not_true_is_false. intros F.
      rewrite forallb_forall in F. specialize (F _ Hin). discriminate F.
Qed.

Lemma span_netloc_fragment (s f : str) :
  Url.span_netloc (s ++ ch "#" :: f)
  = (fst (Url.span_netloc s), snd (Url.span_netloc s) ++ ch "#" :: f).
Proof.
  induction s as [|c s IH]; [reflexivity|].
  cbn [app Url.span_netloc]. destruct (Url.netloc_delim c); [reflexivity|].
  rewrite IH. now destruct (Url.span_netloc s).
Qed.

Lemma split_netloc_other (url : str) :
  (forall rest, url <> 47 :: 47 :: rest) -> Url.split_netloc url = Ok ([], url).
Proof.
  intros H. destruct (split_netloc_cases url) as [[rest E]|E]; [|exact E].
  now destruct (H rest).
Qed.

Lemma split_netloc_fragment (url f : str) :
  Url.split_netloc (url ++ ch "#" :: f)
  = match Url.split_netloc url with
    | Ok (netloc, rest) => Ok (netloc, rest ++ ch "#" :: f)
    | other => other
    end.
Proof.
  assert (S : forall rest, Url.split_netloc (47 :: 47 :: rest ++ ch "#" :: f)
              = match Url.split_netloc (47 :: 47 :: rest) with
                | Ok (netloc, rest') => Ok (netloc, rest' ++ ch "#" :: f)
                | other => other
                end).
  { intros rest. unfold Url.split_netloc. rewrite span_netloc_fragment.
    destruct (Url.span_netloc rest) as [netloc url']. cbn [fst snd].
    destruct (xorb _ _); [reflexivity|].
    destruct (_ && _); [|reflexivity].
    now destruct (Url.check_bracketed_netloc netloc). }
  destruct url as [|c1 [|c2 url]]; cbn [app].
  - reflexivity.
  - rewrite (split_netloc_other [c1]) by discriminate.
    apply split_netloc_other. intros rest E. injection E as _ E _.
    vm_compute in E. discriminate E.
  - destruct (N.eq_dec c1 47) as [->|N1]; [destruct (N.eq_dec c2 47) as [->|N2]|].
    + apply S.
    + rewrite (split_netloc_other (47 :: c2 :: url))
        by (intros rest E; injection E as E _; contradiction).
      apply split_netloc_other. intros rest E. injection E as E _. contradiction.
    + rewrite (split_netloc_other (c1 :: c2 :: url))
        by (intros rest E; injection E as E _; contradiction).
      apply split_netloc_other. intros rest E. injection E as E _. contradiction.
Qed.

Lemma split_netloc_rest (url netloc rest : str) (c : N) :
  Url.split_netloc url = Ok (netloc, rest) -> ~ In c url -> ~ In c rest.
Proof.
  destruct (split_netloc_cases url) as [[url0 ->]|E].
  - unfold Url.split_netloc.
    destruct (Url.span_netloc url0) as [n r] eqn:S.
    apply span_netloc_spec in S as [-> _].
    intros H Nc Hin. apply Nc. right. right. apply in_or_app. right.
    destruct (xorb _ _); [discriminate|].
    destruct (_ && _).
    + destruct (Url.check_bracketed_netloc n); try discriminate.
      cbn [bind] in H. now injection H as _ <-.
    + now injection H as _ <-.
  - rewrite E. intros H. now injection H as _ <-.
Qed.

Lemma urlsplit_rest_fragment (scheme url f : str) :
  ~ In (ch "#") url ->
  (r <- urlsplit_rest scheme (url ++ ch "#" :: f) ;; read_parsed r)
  = (r <- urlsplit_rest scheme url ;; read_parsed r).
Proof.
  intros Nh. unfold urlsplit_rest. rewrite split_netloc_fragment.
  destruct (Url.split_netloc url) as [[netloc rest]|e|y] eqn:S; cbn [bind];
    try reflexivity.
  pose proof (split_netloc_rest _ _ _ _ S Nh) as Nr.
  unfold Url.split_at at 1 3.
  rewrite partition_app by exact Nr.
  replace (Str.partition (ch "#") rest) with (@None (str * str))
    by (symmetry; now apply partition_None).
  destruct (Url.split_at (ch "?") rest) as [url3 query].
  destruct (Url.checknetloc netloc); reflexivity.
Qed.

(** X8.  What follows a [#] is not read: appending a fragment (the display
    name [to_vless_url] writes) to a URI without one does not change what
    [from_vless_url] returns or raises. *)
Theorem fragment_ignored (uri name : str) :
  ~ In (ch "#") uri ->
  from_vless_url (uri ++ ch "#" :: name) = from_vless_url uri.
Proof.
  intros Nh. rewrite !from_vless_url_urlsplit, !urlsplit_unfold.
  rewrite clean_url_fragment.
  rewrite split_scheme_fragment by now apply clean_url_no_hash.
  cbn [fst snd]. apply urlsplit_rest_fragment.
  apply clean_url_no_hash in Nh. revert Nh.
  generalize (Url.clean_url uri). intros url Nh. unfold Url.split_scheme.
  destruct (Str.partition (ch ":") url) as [[pre post]|] eqn:P; [|exact Nh].
  apply partition_spec in P as [-> _].
  assert (Np : ~ In (ch "#") post)
    by (intros H; apply Nh; apply in_or_app; right; now right).
  destruct pre as [|c0 pre]; [exact Nh|].
  now destruct (Str.is_ascii_alpha c0 && forallb Url.scheme_char (c0 :: pre)).
Qed.

Lemma fragment_ignored_witness :
  ~ In (ch "#") (lit "vless://u@h:1?sni=a")
  /\ from_vless_url (lit "vless://u@h:1?sni=a" ++ ch "#" :: lit "my name")
     = from_vless_url (lit "vless://u@h:1?sni=a").
Proof.
  assert (N : ~ In (ch "#") (lit "vless://u@h:1?sni=a")).
  { apply (forallb_not_In (fun c => negb (c =? ch "#"))); reflexivity. }
  split; [exact N | exact (fragment_ignored _ _ N)].
Defined.

(** *** The scheme *)

Lemma scheme_char_parts (c : N) :
  Url.scheme_char c = true ->
  clean c = true /\ c <> ch ":" /\ Url.c0_control_or_space c = false.
Proof.
  intros H.
  assert (B : c < 128).
  { unfold Url.scheme_char, Str.is_ascii_alpha, Str.is_ascii_upper,
      Str.is_ascii_lower, Str.is_ascii_digit in H.
    repeat (apply orb_true_iff in H as [H|H]);
      try (apply andb_true_iff in H as [_ H]; apply N.leb_le in H; lia);
      apply N.eqb_eq in H; subst; reflexivity. }
  assert (G : forall c, c < N.of_nat 128 ->
            (negb (Url.scheme_char c)
             || (clean c && negb (c =? ch ":")
                 && negb (Url.c0_control_or_space c))) = true)
    by (apply forall_below; vm_compute; reflexivity).
  specialize (G c B). rewrite H in G. cbn [negb orb] in G.
  apply andb_true_iff in G as [G G3]. apply andb_true_iff in G as [G1 G2].
  split; [exact G1|]. split.
  - apply N.eqb_neq. now apply negb_true_iff.
  - now apply negb_true_iff.
Qed.

Lemma urlsplit_scheme (s rest : str) :
  valid_scheme s = true ->
  Url.urlsplit (s ++ ch ":" :: rest) = urlsplit_rest (Str.lower s) (filter clean rest).
Proof.
  intros V. destruct s as [|c0 s]; [discriminate|]. cbn [valid_scheme] in V.
  pose proof V as V'. apply andb_true_iff in V' as [_ F].
  assert (C : Url.clean_url ((c0 :: s) ++ ch ":" :: rest)
              = (c0 :: s) ++ ch ":" :: filter clean rest).
  { unfold Url.clean_url. cbn [app Str.lstrip_with].
    cbn [forallb] in F. apply andb_true_iff in F as [F0 F].
    destruct (scheme_char_parts c0 F0) as (K0 & _ & ->).
    change (filter (fun c => negb (Url.unsafe_byte c))) with (filter clean).
    rewrite filter_cons_true by exact K0. f_equal.
    rewrite filter_app, filter_cons_true by reflexivity. f_equal.
    apply filter_id. revert F. apply forallb_impl.
    intros c H. now apply scheme_char_parts. }
  rewrite urlsplit_unfold, C. unfold Url.split_scheme.
  rewrite partition_app.
  - now rewrite V.
  - intros Hin. rewrite forallb_forall in F.
    destruct (scheme_char_parts _ (F _ Hin)) as (_ & N & _). now apply N.
Qed.

(** X9.  The scheme is not checked: [from_vless_url] returns or raises the
    same for a URI whatever scheme it is written with. *)
Theorem scheme_not_checked (s1 s2 rest : str) :
  valid_scheme s1 = true -> valid_scheme s2 = true ->
  from_vless_url (s1 ++ ch ":" :: rest) = from_vless_url (s2 ++ ch ":" :: rest).
Proof.
  intros V1 V2. rewrite !from_vless_url_urlsplit.
  rewrite !urlsplit_scheme by assumption. apply read_urlsplit_rest.
Qed.

Lemma scheme_not_checked_witness :
  valid_scheme (lit "https") = true /\ valid_scheme (lit "vless") = true
  /\ from_vless_url (lit "https" ++ ch ":" :: lit "//u@h:1")
     = from_vless_url (lit "vless" ++ ch ":" :: lit "//u@h:1").
Proof.
  split; [reflexivity|]. split; [reflexivity|].
  apply scheme_not_checked; reflexivity.
Defined.

(** *** What [from_vless_url] raises *)

Lemma value_error_raises {A} (what : string) (e : exn) :
  @Url.value_error A what = Raise e -> class_of e = ValueError.
Proof. intros H. now injection H as <-. Qed.

Ltac url_leaf :=
  try discriminate;
  try (let X := fresh "X" in intros X; now injection X as <-).

Lemma split_netloc_raises (url : str) (e : exn) :
  Url.split_netloc url = Raise e -> class_of e = ValueError.
Proof.
  destruct (split_netloc_cases url) as [[rest ->]|E]; [|rewrite E; discriminate].
  unfold Url.split_netloc.
  destruct (Url.span_netloc rest) as [netloc url'].
  destruct (xorb _ _); url_leaf.
  destruct (_ && _); url_leaf.
  apply (bind_raises (fun e => class_of e = ValueError)); [|discriminate].
  unfold Url.check_bracketed_netloc.
  assert (H : forall h, Url.check_bracketed_host h = Raise e -> class_of e = ValueError).
  { intros h. unfold Url.check_bracketed_host.
    destruct h as [|c h]; url_leaf.
    destruct (N.eq_dec c 118) as [->|Nc].
    - destruct h as [|x h]; url_leaf.
      destruct (Str.lstrip_with Url.is_hex (x :: h)) as [|d l]; url_leaf.
      destruct (N.eq_dec d 46) as [->|Nd].
      + destruct l; url_leaf. destruct (Url.is_hex x); url_leaf.
      + destruct d as [|p]; url_leaf.
        do 6 (destruct p as [p|p|]; url_leaf). congruence.
    - destruct c as [|p]; url_leaf.
      do 7 (destruct p as [p|p|]; url_leaf). congruence. }
  destruct (Str.partition (ch "[") _) as [[before bracketed]|]; [|apply H].
  destruct before; url_leaf.
  destruct (Str.partition (ch "]") bracketed) as [[h p]|]; [|apply H].
  destruct p as [|c p]; [apply H|].
  destruct (c =? ch ":"); [apply H | url_leaf].
Qed.

Lemma urlparse_raises (uri : str) (e : exn) :
  Url.urlparse uri = Raise e -> class_of e = ValueError.
Proof.
  unfold Url.urlparse.
  apply (bind_raises (fun e => class_of e = ValueError)).
  - rewrite urlsplit_unfold. unfold urlsplit_rest.
    apply (bind_raises (fun e => class_of e = ValueError));
      [apply split_netloc_raises|].
    intros [netloc url1].
    destruct (Url.split_at (ch "#") url1) as [url2 fragment].
    destruct (Url.split_at (ch "?") url2) as [url3 query].
    unfold Url.checknetloc. destruct (forallb _ netloc); discriminate.
  - intros r. destruct (existsb _ _ && _); [|discriminate].
    destruct (Url.splitparams (Url.path r)). discriminate.
Qed.

Lemma read_parsed_raises (r : Url.parse_result) (e : exn) :
  read_parsed r = Raise e ->
  match snd (Url.hostinfo r) with
  | None => class_of e = TypeError
  | Some _ => class_of e = ValueError
  end.
Proof.
  unfold read_parsed. rewrite !first_value_query. cbv zeta.
  pose proof (port_cases r) as C.
  destruct (snd (Url.hostinfo r)) as [p|].
  - destruct (valid_port p).
    + rewrite C. discriminate.
    + destruct C as [m ->]. cbn [bind]. intros H. now injection H as <-.
  - rewrite C. cbn [bind py_int]. intros H. now injection H as <-.
Qed.

(** X10.  [from_vless_url] fails in two ways only: with a [ValueError], for a
    URI that [urlparse] refuses or a port that is not a number up to 65535,
    and with a [TypeError], for a URI that has no port. *)
Theorem from_vless_url_raises (uri : str) (e : exn) :
  from_vless_url uri = Raise e ->
  class_of e = ValueError
  \/ (class_of e = TypeError
      /\ exists r, Url.urlparse uri = Ok r /\ snd (Url.hostinfo r) = None).
Proof.
  rewrite from_vless_url_read.
  destruct (Url.urlparse uri) as [r|e'|y] eqn:U; cbn [bind]; [| |discriminate].
  - intros H. apply read_parsed_raises in H.
    destruct (snd (Url.hostinfo r)) eqn:P; [now left|].
    right. split; [exact H|]. now exists r.
  - intros H. injection H as <-. left. now apply urlparse_raises in U.
Qed.

Lemma from_vless_url_raises_witness :
  exists e,
    from_vless_url (lit "vless://u@h") = Raise e /\ class_of e = TypeError.
Proof.
  assert (H : from_vless_url (lit "vless://u@h")
              = Raise (Exn TypeError (Lib "int() argument must be a string, a bytes-like object or a real number, not 'NoneType'")))
    by (vm_compute; reflexivity).
  eexists. split; [exact H|].
  destruct (from_vless_url_raises _ _ H) as [E|[E _]]; [discriminate E | exact E].
Defined.

(** ** More on [to_vless_url] *)

Lemma encodable_name_prompt (a : str) :
  encodable a = true -> encodable (name_prompt a) = true.
Proof.
  intros H. unfold name_prompt, encodable in *.
  rewrite !forallb_app, H. reflexivity.
Qed.

Lemma to_vless_url_prompted (data : json) (u0 a : str) (address : json)
    (w : console) :
  url_head data = Ok (u0, address) -> py_str address = Ok a ->
  encodable a = true ->
  to_vless_url data w
  = let out := stdout w ++ [name_prompt a] in
    match stdin w with
    | Line s :: rest =>
        (Ok (vless_uri data (chosen_name s a)), {| stdin := rest; stdout := out |})
    | CtrlC :: rest =>
        (Ok (vless_uri data a),
         {| stdin := rest; stdout := out ++ [interrupted_line] |})
    | [] =>
        (Raise (Exn SystemExit
                  (Fmt (lit "Error generating VLESS URL: ")
                       (Exn EOFError (Text (lit "EOF when reading a line"))))),
         {| stdin := []; stdout := out |})
    end.
Proof.
  intros H P E. rewrite to_vless_url_outcome, H, get_vless_name_cases, P.
  rewrite (encodable_name_prompt a E).
  destruct (url_head_uri data u0 address H) as (_ & _ & U).
  cbv zeta. destruct (stdin w) as [|[s|] rest].
  - reflexivity.
  - unfold chosen_name. destruct (Str.strip s) as [|c name].
    + now rewrite P, U.
    + cbn [py_str]. now rewrite U.
  - now rewrite P, U.
Qed.

(** X11.  For a configuration whose fields [to_vless_url] can read and
    whose address the console can encode (it holds no lone surrogate), the
    run prompts once, naming the address as the default, and consumes one
    reply.  The URI it returns ends in the reply with surrounding white space
    removed, or in the address when the reply is blank; when the prompt is
    interrupted (Ctrl-C) it prints a notice and returns the URI named after
    the address. *)
Theorem display_name (data : json) (u0 a : str) (address : json)
    (rest : list stdin_event) (out : list str) :
  url_head data = Ok (u0, address) -> py_str address = Ok a ->
  encodable a = true ->
  (forall reply,
     to_vless_url data {| stdin := Line reply :: rest; stdout := out |}
     = (Ok (vless_uri data (chosen_name reply a)),
        {| stdin := rest; stdout := out ++ [name_prompt a] |}))
  /\ to_vless_url data {| stdin := CtrlC :: rest; stdout := out |}
     = (Ok (vless_uri data a),
        {| stdin := rest; stdout := out ++ [name_prompt a; interrupted_line] |}).
Proof.
  intros H P E. split.
  - intros reply. now rewrite (to_vless_url_prompted _ _ _ _ _ H P E).
  - rewrite (to_vless_url_prompted _ _ _ _ _ H P E). cbn [stdin stdout].
    now rewrite <- app_assoc.
Qed.

(** X12.  For a configuration whose fields [to_vless_url] can read and
    whose address the console can encode: at end of input the prompt is
    still written, the [EOFError] of [input] is caught by the handler of line
    181, and the run ends in [SystemExit] with the message [Error generating
    VLESS URL: EOF when reading a line]. *)
Theorem exits_at_end_of_input (data : json) (u0 a : str) (address : json)
    (out : list str) :
  url_head data = Ok (u0, address) -> py_str address = Ok a ->
  encodable a = true ->
  to_vless_url data {| stdin := []; stdout := out |}
  = (Raise (Exn SystemExit
              (Fmt (lit "Error generating VLESS URL: ")
                   (Exn EOFError (Text (lit "EOF when reading a line"))))),
     {| stdin := []; stdout := out ++ [name_prompt a] |}).
Proof.
  intros H P E. now rewrite (to_vless_url_prompted _ _ _ _ _ H P E).
Qed.

(** *** After [from_vless_url] *)

Lemma append_if_str (s prefix url : str) :
  exists url', append_if (JStr s) prefix url = Ok url'.
Proof.
  unfold append_if. destruct (truthy (JStr s)); eexists; reflexivity.
Qed.

Lemma url_head_config (u a : option str) (n : Z)
    (flow security sni fp pbk sid spx network : str) :
  exists u0,
    url_head (vless_config u a n flow security sni fp pbk sid spx network)
    = Ok (u0, opt_str a).
Proof.
  change (url_head (vless_config u a n flow security sni fp pbk sid spx network))
    with (format_head (opt_str u) (opt_str a) (JInt n) (JStr flow)
                      (JStr network) (JStr security) (JStr sni) (JStr fp)
                      (JStr pbk) (JStr sid) (JStr spx)).
  unfold format_head.
  assert (Pu : exists x, py_str (opt_str u) = Ok x)
    by (destruct u; eexists; reflexivity).
  assert (Pa : exists x, py_str (opt_str a) = Ok x)
    by (destruct a; eexists; reflexivity).
  destruct Pu as [x ->], Pa as [y ->]. cbn [bind py_str].
  repeat match goal with
         | |- context [append_if (JStr ?s) ?p ?url] =>
             destruct (append_if_str s p url) as [? ->]; cbn [bind]
         end.
  eexists. reflexivity.
Qed.

(** X13.  A configuration that [from_vless_url] returned, with an address
    the console can encode (the host of the URI holds no lone surrogate), is
    always accepted by [to_vless_url]: whenever a reply or an interrupt is
    waiting at the prompt, the run returns a URI -- that of the configuration
    with its display name -- having consumed exactly that one event. *)
Theorem accepts_from_vless_url (uri : str) (c : json) (ev : stdin_event)
    (rest : list stdin_event) (out : list str) :
  from_vless_url uri = Ok c ->
  encodable (text_of (field vnext_path "address" JNull c)) = true ->
  exists name more,
    to_vless_url c {| stdin := ev :: rest; stdout := out |}
    = (Ok (vless_uri c name), {| stdin := rest; stdout := out ++ more |}).
Proof.
  intros H E. apply from_vless_url_Ok_inv in H as (r & _ & H).
  apply read_parsed_Ok in H as (n & _ & ->).
  change (field vnext_path "address" JNull (vless_config _ _ _ _ _ _ _ _ _ _ _))
    with (opt_str (Url.hostname r)) in E.
  destruct (url_head_config (Url.username r) (Url.hostname r) n
              (query_value (Url.query r) (lit "flow") [])
              (query_value (Url.query r) (lit "security") (lit "none"))
              (query_value (Url.query r) (lit "sni") [])
              (query_value (Url.query r) (lit "fp") [])
              (query_value (Url.query r) (lit "pbk") [])
              (query_value (Url.query r) (lit "sid") [])
              (query_value (Url.query r) (lit "spx") [])
              (query_value (Url.query r) (lit "type") (lit "tcp"))) as [u0 U].
  assert (P : exists a, py_str (opt_str (Url.hostname r)) = Ok a)
    by (destruct (Url.hostname r); eexists; reflexivity).
  destruct P as [a P].
  rewrite (py_str_text _ _ P) in E.
  rewrite (to_vless_url_prompted _ _ _ _ _ U P E). cbn [stdin stdout].
  destruct ev as [s|].
  - eexists _, _. reflexivity.
  - exists a, [name_prompt a; interrupted_line]. now rewrite <- app_assoc.
Qed.

Lemma accepts_from_vless_url_witness :
  from_vless_url (lit "vless://u@h:443?type=ws&security=tls&sni=example.com")
  = Ok sample_config
  /\ encodable (text_of (field vnext_path "address" JNull sample_config)) = true
  /\ exists name more,
       to_vless_url sample_config {| stdin := [CtrlC]; stdout := [] |}
       = (Ok (vless_uri sample_config name), {| stdin := []; stdout := [] ++ more |}).
Proof.
  assert (H : from_vless_url (lit "vless://u@h:443?type=ws&security=tls&sni=example.com")
              = Ok sample_config) by (vm_compute; reflexivity).
  split; [exact H|]. split; [reflexivity|].
  exact (accepts_from_vless_url _ _ CtrlC [] [] H eq_refl).
Defined.

Lemma display_name_witness :
  let w := {| stdin := [Line (lit "  home  ")]; stdout := [] |} in
  url_head sample_config
  = Ok (lit "vless://u@h:443?encryption=none&security=tls&sni=example.com&type=ws",
        JStr (lit "h"))
  /\ py_str (JStr (lit "h")) = Ok (lit "h")
  /\ encodable (lit "h") = true
  /\ to_vless_url sample_config w
     = (Ok (vless_uri sample_config (lit "home")),
        {| stdin := []; stdout := [] ++ [name_prompt (lit "h")] |}).
Proof.
  cbv zeta.
  assert (H : url_head sample_config
              = Ok (lit "vless://u@h:443?encryption=none&security=tls&sni=example.com&type=ws",
                    JStr (lit "h"))) by (vm_compute; reflexivity).
  assert (P : py_str (JStr (lit "h")) = Ok (lit "h")) by reflexivity.
  split; [exact H|]. split; [exact P|]. split; [reflexivity|].
  exact (proj1 (display_name _ _ _ _ [] [] H P eq_refl) (lit "  home  ")).
Defined.

Lemma exits_at_end_of_input_witness :
  url_head sample_config
  = Ok (lit "vless://u@h:443?encryption=none&security=tls&sni=example.com&type=ws",
        JStr (lit "h"))
  /\ py_str (JStr (lit "h")) = Ok (lit "h")
  /\ encodable (lit "h") = true
  /\ to_vless_url sample_config {| stdin := []; stdout := [] |}
     = (Raise (Exn SystemExit
                 (Fmt (lit "Error generating VLESS URL: ")
                      (Exn EOFError (Text (lit "EOF when reading a line"))))),
        {| stdin := []; stdout := [] ++ [name_prompt (lit "h")] |}).
Proof.
  assert (H : url_head sample_config
              = Ok (lit "vless://u@h:443?encryption=none&security=tls&sni=example.com&type=ws",
                    JStr (lit "h"))) by (vm_compute; reflexivity).
  assert (P : py_str (JStr (lit "h")) = Ok (lit "h")) by reflexivity.
  split; [exact H|]. split; [exact P|]. split; [reflexivity|].
  exact (exits_at_end_of_input _ _ _ _ [] H P eq_refl).
Defined.

(** *** Only the first outbound is read *)

Lemma first_outbound (data out : json) :
  json_path outbound_path data = Some out ->
  (o <- getitem data (lit "outbounds") ;; getitem0 o) = Ok out.
Proof.
  unfold outbound_path. cbn [json_path].
  destruct data as [| | | | |l|d]; try discriminate. cbn [getitem].
  destruct (dict_lookup (lit "outbounds") d) as [[| | | | |[|o l]|]|];
    try discriminate.
  cbn [nth_error bind getitem0]. now intros H; injection H as ->.
Qed.

(** X14.  [to_vless_url] reads nothing of a configuration but its first
    outbound: two configurations with the same [outbounds[0]] give the same
    run, whatever their inbounds, log settings and further outbounds. *)
Theorem first_outbound_only (data data2 out : json) (w : console) :
  json_path outbound_path data = Some out ->
  json_path outbound_path data2 = Some out ->
  to_vless_url data w = to_vless_url data2 w.
Proof.
  intros H H2. rewrite !to_vless_url_outcome.
  replace (url_head data2) with (url_head data); [reflexivity|].
  unfold url_head.
  now rewrite (first_outbound _ _ H), (first_outbound _ _ H2).
Qed.

Lemma first_outbound_only_witness :
  let out := JDict [(lit "streamSettings", JDict [])] in
  let data := JDict [(lit "outbounds", JList [out])] in
  let data2 := JDict [(lit "log", JNull); (lit "outbounds", JList [out; JNull])] in
  json_path outbound_path data = Some out
  /\ json_path outbound_path data2 = Some out
  /\ to_vless_url data {| stdin := []; stdout := [] |}
     = to_vless_url data2 {| stdin := []; stdout := [] |}.
Proof.
  cbv zeta. split; [reflexivity|]. split; [reflexivity|].
  now apply (first_outbound_only _ _ (JDict [(lit "streamSettings", JDict [])])).
Defined.

(** ** The interactive loop *)

Section Loop.

Variable exn_text : exn -> str.
Variable path_exists : str -> bool.

Let loop := Main.loop exn_text path_exists.
Let session := Main.session exn_text path_exists.

Lemma loop_S (n : nat) : loop (S n) = round exn_text path_exists (loop n).
Proof. reflexivity. Qed.

Lemma session_line (line : str) (rest : list stdin_event) (out : list str) :
  session {| stdin := Line line :: rest; stdout := out |}
  = round exn_text path_exists (loop (S (List.length rest)))
          {| stdin := Line line :: rest; stdout := out |}.
Proof. reflexivity. Qed.

(** The round up to the line it reads. *)
Lemma round_line (next : io unit) (line : str) (rest : list stdin_event)
    (out : list str) :
  round exn_text path_exists next {| stdin := Line line :: rest; stdout := out |}
  = let w := {| stdin := rest; stdout := asked out |} in
    let src := Str.strip line in
    match Main.lower_text src with
    | Ok low =>
        if existsb (str_eqb low) Main.exit_words then print (lit "Goodbye!") w
        else
          match src with
          | [] => (_ <~ print (lit "Empty input. Please try again.") ;; next) w
          | _ =>
              (flow <~ io_try (Main.convert path_exists src) is_Exception
                              (Main.handle exn_text) ;;
               match flow with
               | Main.Continue => next
               | Main.Return => ret tt
               end) w
          end
    | Raise e => (Raise e, w)
    | Unmodelled y => (Unmodelled y, w)
    end.
Proof.
  unfold round, asked. unfold input.
  change (encodable Main.source_prompt) with true.
  cbn [iobind print write io_try ret stdin stdout].
  rewrite <- app_assoc. cbn [app].
  destruct (Main.lower_text (Str.strip line)) as [low|e|y]; try reflexivity.
  cbn [iobind lift]. destruct (existsb (str_eqb low) Main.exit_words); [reflexivity|].
  now destruct (Str.strip line).
Qed.

End Loop.

(** *** Input is only ever consumed from the front *)

Lemma consumes_refl (w : console) : consumes w w.
Proof. now exists []. Qed.

Lemma consumes_trans (w1 w2 w3 : console) :
  consumes w1 w2 -> consumes w2 w3 -> consumes w1 w3.
Proof.
  intros [u1 E1] [u2 E2]. exists (u1 ++ u2). now rewrite E1, E2, app_assoc.
Qed.

Lemma consumes_length (w w' : console) :
  consumes w w' -> (List.length (stdin w') <= List.length (stdin w))%nat.
Proof. intros [u E]. rewrite E, length_app. lia. Qed.

Lemma steady_ret {A} (a : A) : steady (ret a).
Proof. intros w. apply consumes_refl. Qed.

Lemma steady_lift {A} (m : outcome A) : steady (lift m).
Proof. intros w. apply consumes_refl. Qed.

Lemma steady_write (s : str) : steady (write s).
Proof. intros w. now exists []. Qed.

Lemma steady_print (s : str) : steady (print s).
Proof. apply steady_write. Qed.

Lemma steady_input (prompt : str) : steady (input prompt).
Proof.
  intros w. unfold input.
  destruct (encodable prompt); [|apply consumes_refl].
  destruct (stdin w) as [|[s|] rest] eqn:E; cbn [snd];
    unfold consumes; cbn [stdin]; rewrite E.
  - now exists [].
  - now exists [Line s].
  - now exists [CtrlC].
Qed.

Lemma steady_bind {A B} (m : io A) (k : A -> io B) :
  steady m -> (forall a, steady (k a)) -> steady (iobind m k).
Proof.
  intros Hm Hk w. unfold iobind. specialize (Hm w).
  destruct (m w) as [[a|e|y] w1]; cbn [snd] in *; try exact Hm.
  eapply consumes_trans; [exact Hm | apply Hk].
Qed.

Lemma steady_try {A} (body : io A) (catches : exn_class -> bool)
    (handler : exn -> io A) :
  steady body -> (forall e, steady (handler e)) ->
  steady (io_try body catches handler).
Proof.
  intros Hb Hh w. unfold io_try. specialize (Hb w).
  destruct (body w) as [[a|e|y] w1]; cbn [snd] in *; try exact Hb.
  destruct (catches (class_of e)); [|exact Hb].
  eapply consumes_trans; [exact Hb | apply Hh].
Qed.

Lemma steady_sys_exit {A} (m : message) : steady (@sys_exit A m).
Proof. apply steady_lift. Qed.

Lemma steady_print_text (s : str) : steady (Main.print_text s).
Proof.
  unfold Main.print_text. destruct (existsb _ s);
    [apply steady_lift | apply steady_print].
Qed.

Ltac steady_step :=
  first [ apply steady_ret | apply steady_lift | apply steady_print
        | apply steady_input | apply steady_sys_exit | apply steady_print_text
        | apply steady_bind; [|intros ?]
        | apply steady_try; [|intros ?] ].

Lemma steady_get_vless_name (address : json) : steady (get_vless_name address).
Proof. unfold get_vless_name. repeat steady_step. Qed.

Lemma steady_to_vless_url (data : json) : steady (to_vless_url data).
Proof.
  unfold to_vless_url.
  repeat first [apply steady_get_vless_name | steady_step].
Qed.

Lemma steady_ask_choice (rounds : nat) : steady (Main.ask_choice rounds).
Proof.
  induction rounds as [|rounds IH]; cbn [Main.ask_choice]; [apply steady_lift|].
  apply steady_bind; [repeat steady_step|].
  intros [choice|]; [|apply steady_ret].
  destruct (existsb _ _); [apply steady_ret|].
  apply steady_bind; [apply steady_print | intros _; exact IH].
Qed.

Lemma steady_convert (path_exists : str -> bool) (src : str) :
  steady (Main.convert path_exists src).
Proof.
  unfold Main.convert.
  destruct (Str.startswith (lit "vless://") src); [repeat steady_step|].
  destruct (Str.startswith (lit "vpn://") src).
  - do 3 (apply steady_bind; [apply steady_print | intros _]).
    apply steady_bind; [intros w; apply steady_ask_choice|].
    intros [choice|]; [|apply steady_ret].
    apply steady_bind; [apply steady_lift | intros config].
    apply steady_bind; [apply steady_print | intros _].
    destruct (str_eqb choice (lit "1"));
      repeat first [apply steady_to_vless_url | steady_step].
  - repeat first [apply steady_to_vless_url | steady_step].
Qed.

Lemma steady_handle (exn_text : exn -> str) (e : exn) :
  steady (Main.handle exn_text e).
Proof.
  unfold Main.handle. destruct (is_ValueError (class_of e)); [repeat steady_step|].
  destruct (class_of e); repeat steady_step.
Qed.

Section Rounds.

Variable exn_text : exn -> str.
Variable path_exists : str -> bool.

Let loop := Main.loop exn_text path_exists.
Let session := Main.session exn_text path_exists.

(** A round calls what follows it only after it has read a line. *)
Lemma round_ext (k1 k2 : io unit) (w : console) :
  (forall w', (List.length (stdin w') < List.length (stdin w))%nat -> k1 w' = k2 w') ->
  round exn_text path_exists k1 w = round exn_text path_exists k2 w.
Proof.
  intros H. destruct w as [ins out]. destruct ins as [|[line|] rest];
    [reflexivity| |reflexivity].
  rewrite !round_line. cbv zeta.
  destruct (Main.lower_text (Str.strip line)) as [low|e|y]; try reflexivity.
  destruct (existsb (str_eqb low) Main.exit_words); [reflexivity|].
  destruct (Str.strip line) as [|c src].
  - cbn [iobind print write stdin stdout]. apply H. cbn [stdin List.length]. lia.
  - unfold iobind.
    pose proof (steady_try _ is_Exception _
                  (steady_convert path_exists (c :: src))
                  (steady_handle exn_text)
                  {| stdin := rest; stdout := asked out |}) as S.
    destruct (io_try _ _ _ _) as [[[|]|e|y] w1]; try reflexivity.
    apply H. apply consumes_length in S. cbn [snd stdin List.length] in *. lia.
Qed.

Lemma loop_rounds (n1 n2 : nat) (w : console) :
  (List.length (stdin w) < n1)%nat -> (List.length (stdin w) < n2)%nat ->
  loop n1 w = loop n2 w.
Proof.
  revert n2 w. induction n1 as [|n1 IH]; intros n2 w H1 H2; [lia|].
  destruct n2 as [|n2]; [lia|].
  unfold loop in *. rewrite !loop_S. apply round_ext. intros w' L. apply IH; lia.
Qed.

Lemma loop_session (n : nat) (w : console) :
  (List.length (stdin w) < n)%nat -> loop n w = session w.
Proof. intros H. apply loop_rounds; [exact H | lia]. Qed.

End Rounds.

Lemma in_words (low : str) (words : list str) :
  In low words -> existsb (str_eqb low) words = true.
Proof.
  intros H. apply existsb_exists. exists low. split; [exact H | apply str_eqb_refl].
Qed.

Lemma not_in_words (low : str) (words : list str) :
  ~ In low words -> existsb (str_eqb low) words = false.
Proof.
  intros H. destruct (existsb (str_eqb low) words) eqn:E; [|reflexivity].
  apply existsb_exists in E as (x & Hx & E). apply str_eqb_eq in E.
  subst x. contradiction.
Qed.

Lemma ask_choice_rounds (invalid : list str) (choice : str)
    (rest : list stdin_event) (n : nat) (out : list str) :
  Forall (fun c => ~ In (Str.strip c) Main.choices) invalid ->
  In (Str.strip choice) Main.choices ->
  (List.length invalid < n)%nat ->
  Main.ask_choice n {| stdin := map Line invalid ++ Line choice :: rest;
                       stdout := out |}
  = (Ok (Some (Str.strip choice)),
     {| stdin := rest; stdout := out ++ reprompts invalid |}).
Proof.
  intros I C. revert n out. induction I as [|c invalid Hc I IH]; intros n out L.
  - destruct n as [|n]; [cbn in L; lia|].
    cbn [map app Main.ask_choice]. unfold iobind, io_try, input, ret.
    change (encodable (lit "Enter choice (1 or 2): ")) with true.
    cbn [stdin stdout]. now rewrite (in_words _ _ C).
  - destruct n as [|n]; [cbn in L; lia|].
    cbn [map app Main.ask_choice]. unfold iobind, io_try, input, ret.
    change (encodable (lit "Enter choice (1 or 2): ")) with true.
    cbn [stdin stdout]. rewrite (not_in_words _ _ Hc).
    unfold print, write. cbn [stdin stdout].
    rewrite IH by (cbn in L; lia).
    unfold reprompts. cbn [flat_map]. now rewrite <- !app_assoc.
Qed.

Lemma from_vless_url_ordinary (uri : str) (e : exn) :
  from_vless_url uri = Raise e -> is_Exception (class_of e) = true.
Proof.
  rewrite from_vless_url_read.
  destruct (Url.urlparse uri) as [r|e'|y] eqn:U; cbn [bind]; [| |discriminate].
  - intros H. apply read_parsed_raises in H.
    destruct (snd (Url.hostinfo r)); now rewrite H.
  - intros H. injection H as <-. apply urlparse_raises in U. now rewrite U.
Qed.

Lemma decode_payload_ordinary (u : str) (e : exn) :
  decode_payload u = Raise e -> class_of e = ValueError.
Proof.
  unfold decode_payload.
  destruct (negb (Str.startswith (lit "vpn://") u));
    [intros H; now injection H as <-|].
  cbv zeta. set (enc := match _ with O => _ | _ => _ end).
  unfold try_except.
  destruct (Base64.urlsafe_b64decode enc) as [raw|e0|y] eqn:B; cbn [bind];
    [| |discriminate].
  - intros H. apply parse_raw_data_raises in H as [c ->]. reflexivity.
  - apply urlsafe_b64decode_raises in B.
    replace (is_Exception (class_of e0)) with true
      by (destruct (class_of e0); try discriminate; reflexivity).
    cbn [bind]. intros H. now injection H as <-.
Qed.

Lemma decode_vpn_url_ordinary (u : str) (e : exn) :
  decode_vpn_url u = Raise e -> is_Exception (class_of e) = true.
Proof.
  unfold decode_vpn_url.
  destruct (decode_payload u) as [j|e'|y] eqn:D; cbn [bind]; [| |discriminate].
  - rewrite extract_nested_cases.
    destruct (json_path last_config_path j) as [v|]; [|discriminate].
    intros H. apply json_loads_raises in H.
    destruct v; try (now rewrite H). destruct H as [H|H]; now rewrite H.
  - intros H. injection H as <-. apply decode_payload_ordinary in D. now rewrite D.
Qed.

Lemma to_vless_url_missing (data : json) :
  required_objects data = false ->
  exists cause,
    is_Exception (class_of cause) = true
    /\ forall w, to_vless_url data w
                 = (Raise (Exn SystemExit
                             (Fmt (lit "Error generating VLESS URL: ") cause)), w).
Proof.
  intros Q. pose proof (url_head_reads data) as R.
  destruct (url_head data) as [[u0 address]|e|y] eqn:H.
  - destruct R as [R _]. congruence.
  - exists e. split; [exact R|]. intros w.
    now rewrite to_vless_url_outcome, H, R.
  - destruct R as [R _]. congruence.
Qed.

(** The handlers of lines 255-262 print the same line for every exception
    the [try] statement can be left with. *)
Lemma handle_reports (exn_text : exn -> str) (e : exn) (w : console) :
  existsb Main.is_surrogate (exn_text e) = false ->
  Main.handle exn_text e w
  = (Ok Main.Continue,
     {| stdin := stdin w;
        stdout := stdout w ++ [line_of (lit "Error: " ++ exn_text e)] |}).
Proof.
  intros P.
  assert (Q : existsb Main.is_surrogate (lit "Error: " ++ exn_text e) = false)
    by (rewrite existsb_app, P; reflexivity).
  unfold Main.handle, Main.print_text. rewrite Q.
  destruct e as [c m]. cbn [class_of]. now destruct c.
Qed.

Lemma str_eqb_length (a b : str) :
  str_eqb a b = true -> List.length a = List.length b.
Proof. intros H. apply str_eqb_eq in H. now subst. Qed.

Lemma startswith_length (p s : str) :
  Str.startswith p s = true -> (List.length p <= List.length s)%nat.
Proof.
  revert s. induction p as [|a p IH]; intros [|b s]; cbn [Str.startswith List.length];
    try lia; try discriminate.
  intros H. apply andb_true_iff in H as [_ H]. apply IH in H. lia.
Qed.

(** A text of more than four characters is none of the exit words. *)
Lemma long_not_exit_word (src : str) :
  (4 < List.length src)%nat ->
  existsb (str_eqb (Str.lower src)) Main.exit_words = false.
Proof.
  intros L. unfold Main.exit_words. cbn [map existsb].
  assert (F : forall w, (List.length w <= 4)%nat -> str_eqb (Str.lower src) w = false).
  { intros w Hw. destruct (str_eqb (Str.lower src) w) eqn:E; [|reflexivity].
    apply str_eqb_length in E. unfold Str.lower in E. rewrite length_map in E. lia. }
  rewrite !F; [reflexivity | | |]; cbn; lia.
Qed.

Lemma vpn_not_vless (src : str) :
  Str.startswith (lit "vpn://") src = true ->
  Str.startswith (lit "vless://") src = false.
Proof.
  change (lit "vpn://") with (118 :: 112 :: lit "n://").
  change (lit "vless://") with (118 :: 108 :: lit "ess://").
  destruct src as [|a [|b src]]; cbn [Str.startswith];
    [discriminate | now rewrite andb_false_r |].
  intros H.
  apply andb_true_iff in H as [_ H]. apply andb_true_iff in H as [H _].
  apply N.eqb_eq in H. subst b. now rewrite andb_false_r.
Qed.

Section Session.

Variable exn_text : exn -> str.
Variable path_exists : str -> bool.

Let session := Main.session exn_text path_exists.

(** X15.  The loop is left at its own prompt in three ways.  On one of the
    words [exit], [quit] and [q], in any letter case and with any white space
    around, it prints [Goodbye!] and returns; on an interrupt (Ctrl-C) it
    prints a farewell and returns; at end of input the [EOFError] of [input]
    is not handled and ends [main]. *)
Theorem leaving_the_loop (rest : list stdin_event) (out : list str) :
  (forall line low,
     Main.lower_text (Str.strip line) = Ok low -> In low Main.exit_words ->
     session {| stdin := Line line :: rest; stdout := out |}
     = (Ok tt, {| stdin := rest;
                  stdout := asked out ++ [line_of (lit "Goodbye!")] |}))
  /\ session {| stdin := CtrlC :: rest; stdout := out |}
     = (Ok tt, {| stdin := rest;
                  stdout := asked out ++ [line_of Main.goodbye_interrupted] |})
  /\ session {| stdin := []; stdout := out |}
     = (Raise (Exn EOFError (Text (lit "EOF when reading a line"))),
        {| stdin := []; stdout := asked out |}).
Proof.
  split; [|split].
  - intros line low L W. unfold session. rewrite session_line, round_line.
    cbv zeta. rewrite L, (in_words _ _ W). reflexivity.
  - unfold asked. cbn. now rewrite <- !app_assoc.
  - unfold asked. cbn. now rewrite <- !app_assoc.
Qed.

(** X16.  A line that is blank once stripped is answered with [Empty input.
    Please try again.] and the loop asks again, having consumed that line
    only. *)
Theorem blank_line_asks_again (line : str) (rest : list stdin_event)
    (out : list str) :
  Str.strip line = [] ->
  session {| stdin := Line line :: rest; stdout := out |}
  = session {| stdin := rest;
               stdout := asked out
                         ++ [line_of (lit "Empty input. Please try again.")] |}.
Proof.
  intros E. unfold session. rewrite session_line, round_line. cbv zeta.
  rewrite E. reflexivity.
Qed.

(** The round for a source line that is neither blank nor an exit word. *)
Lemma session_source (line : str) (rest : list stdin_event) (out : list str) :
  (4 < List.length (Str.strip line))%nat ->
  forallb (fun c => c <? 256) (Str.strip line) = true ->
  session {| stdin := Line line :: rest; stdout := out |}
  = (flow <~ io_try (Main.convert path_exists (Str.strip line)) is_Exception
                    (Main.handle exn_text) ;;
     match flow with
     | Main.Continue => Main.loop exn_text path_exists (S (List.length rest))
     | Main.Return => ret tt
     end) {| stdin := rest; stdout := asked out |}.
Proof.
  intros L B. unfold session. rewrite session_line, round_line. cbv zeta.
  unfold Main.lower_text. rewrite B, long_not_exit_word by exact L.
  destruct (Str.strip line); [cbn in L; lia | reflexivity].
Qed.

(** X17.  A line that starts with [vless://] never ends the program.  When
    [from_vless_url] fails, the failure is reported as [Error: ...]; when it
    succeeds, a separator and the configuration as indented JSON are printed.
    Either way the loop goes on with the next line. *)
Theorem vless_line (line : str) (rest : list stdin_event) (out : list str) :
  let src := Str.strip line in
  Str.startswith (lit "vless://") src = true ->
  forallb (fun c => c <? 256) src = true ->
  (forall e,
     from_vless_url src = Raise e ->
     existsb Main.is_surrogate (exn_text e) = false ->
     session {| stdin := Line line :: rest; stdout := out |}
     = session {| stdin := rest;
                  stdout := asked out ++ [line_of (lit "Error: " ++ exn_text e)] |})
  /\ (forall c text,
        from_vless_url src = Ok c -> Dumps.dumps c = Ok text ->
        existsb Main.is_surrogate text = false ->
        session {| stdin := Line line :: rest; stdout := out |}
        = session {| stdin := rest;
                     stdout := asked out ++ [line_of Main.separator; line_of text] |}).
Proof.
  intros src S B.
  assert (L : (4 < List.length src)%nat)
    by (apply startswith_length in S; cbn in S; lia).
  split.
  - intros e H P. rewrite (session_source _ _ _ L B). fold src.
    unfold Main.convert. rewrite S, H. unfold iobind, io_try, lift.
    rewrite (from_vless_url_ordinary _ _ H), (handle_reports _ _ _ P).
    reflexivity.
  - intros c text H D N. rewrite (session_source _ _ _ L B). fold src.
    unfold Main.convert. rewrite S, H.
    unfold iobind, io_try, lift, print, write. rewrite D.
    unfold Main.print_text. rewrite N.
    unfold print, write, ret. cbn [stdin stdout].
    rewrite <- app_assoc. reflexivity.
Qed.


(** X19.  A line of JSON text whose value lacks one of the objects
    [to_vless_url] descends into ends the program: [to_vless_url] raises
    [SystemExit], which no handler of the loop catches, and the lines still
    waiting are never read. *)
Theorem inline_json_exits (line : str) (rest : list stdin_event) (out : list str)
    (low : str) (data : json) :
  let src := Str.strip line in
  Str.startswith (lit "vless://") src = false ->
  Str.startswith (lit "vpn://") src = false ->
  Main.lower_text src = Ok low ->
  existsb (str_eqb low) Main.exit_words = false ->
  path_exists src && Main.endswith (lit ".json") low = false ->
  Json.loads src = Ok data ->
  required_objects data = false ->
  exists cause,
    is_Exception (class_of cause) = true
    /\ session {| stdin := Line line :: rest; stdout := out |}
       = (Raise (Exn SystemExit (Fmt (lit "Error generating VLESS URL: ") cause)),
          {| stdin := rest; stdout := asked out ++ [line_of Main.separator] |}).
Proof.
  intros src S1 S2 L W F J Q.
  destruct (to_vless_url_missing data Q) as (cause & C & T).
  exists cause. split; [exact C|].
  unfold session. rewrite session_line, round_line. cbv zeta. fold src.
  rewrite L, W.
  destruct src as [|c0 src0] eqn:Es; [discriminate J|]. rewrite <- Es in *.
  unfold Main.convert. rewrite S1, S2, L.
  replace (if path_exists src
           then low0 <- Ok low ;; Ok (Main.endswith (lit ".json") low0)
           else Ok false) with (@Ok bool false)
    by (cbn [bind]; destruct (path_exists src) eqn:P;
        [cbn [andb] in F; now rewrite F | reflexivity]).
  rewrite J. unfold iobind, io_try, lift, print, write. rewrite T. reflexivity.
Qed.

(** X20.  For a line that starts with [vpn://] the conversion is chosen
    first and the payload decoded afterwards.  Replies other than [1] and [2]
    are answered with [Invalid choice. Please enter 1 or 2.] and the question
    is asked again.  Once a valid choice is given, a payload that does not
    decode is reported as [Error: ...]; with the choice [2], a payload that
    decodes is printed as indented JSON.  In both cases the loop goes on. *)
Theorem vpn_line (line choice : str) (invalid : list str)
    (rest : list stdin_event) (out : list str) :
  let src := Str.strip line in
  let replies := map Line invalid ++ Line choice :: rest in
  Str.startswith (lit "vpn://") src = true ->
  forallb (fun c => c <? 256) src = true ->
  Forall (fun c => ~ In (Str.strip c) Main.choices) invalid ->
  In (Str.strip choice) Main.choices ->
  (forall e,
     decode_vpn_url src = Raise e ->
     existsb Main.is_surrogate (exn_text e) = false ->
     session {| stdin := Line line :: replies; stdout := out |}
     = session {| stdin := rest;
                  stdout := asked out ++ menu invalid
                            ++ [line_of (lit "Error: " ++ exn_text e)] |})
  /\ (forall config text,
        Str.strip choice = lit "2" ->
        decode_vpn_url src = Ok config -> Dumps.dumps config = Ok text ->
        existsb Main.is_surrogate text = false ->
        session {| stdin := Line line :: replies; stdout := out |}
        = session {| stdin := rest;
                     stdout := asked out ++ menu invalid
                               ++ [line_of Main.separator; line_of text] |}).
Proof.
  intros src replies Sv B I C.
  assert (L : (4 < List.length src)%nat)
    by (apply startswith_length in Sv as Sl; cbn in Sl; lia).
  pose proof (vpn_not_vless _ Sv) as S'.
  assert (K : forall w, stdin w = rest ->
              Main.loop exn_text path_exists (S (List.length replies)) w
              = session w).
  { intros w E. apply loop_session. rewrite E. unfold replies.
    rewrite length_app. cbn [List.length]. lia. }
  assert (A : forall out0,
            Main.ask_choice (S (List.length replies))
                            {| stdin := replies; stdout := out0 |}
            = (Ok (Some (Str.strip choice)),
               {| stdin := rest; stdout := out0 ++ reprompts invalid |})).
  { intros out0. apply ask_choice_rounds; [exact I | exact C|].
    unfold replies. rewrite length_app, length_map. lia. }
  split.
  - intros e H P. rewrite (session_source _ _ _ L B). fold src. fold replies.
    unfold Main.convert. rewrite S', Sv.
    unfold iobind, io_try, lift, print, write. cbn [stdin stdout].
    rewrite A, H.
    rewrite (decode_vpn_url_ordinary _ _ H), (handle_reports _ _ _ P).
    cbn [stdin stdout]. rewrite K by reflexivity.
    unfold menu, asked. now rewrite <- !app_assoc.
  - intros config text E H D N. rewrite (session_source _ _ _ L B).
    fold src. fold replies.
    unfold Main.convert. rewrite S', Sv.
    unfold iobind, io_try, lift, print, write. cbn [stdin stdout].
    rewrite A, H, E.
    replace (str_eqb (lit "2") (lit "1")) with false by reflexivity.
    rewrite D. unfold Main.print_text. rewrite N.
    unfold print, write, ret. cbn [stdin stdout]. rewrite K by reflexivity.
    unfold menu, asked. now rewrite <- !app_assoc.
Qed.

End Session.

(** *** Leaving the loop without an exception *)

Lemma goes_on_ret : goes_on (ret Main.Continue).
Proof. intros w r w' H. now injection H as <- _. Qed.

Lemma goes_on_bind {A} (m : io A) (k : A -> io Main.flow) :
  (forall a, goes_on (k a)) -> goes_on (iobind m k).
Proof.
  intros Hk w r w'. unfold iobind.
  destruct (m w) as [[a|e|y] w1]; try discriminate. apply Hk.
Qed.

Ltac goes_on_step :=
  first [ apply goes_on_ret | apply goes_on_bind; intros ? ].

Lemma goes_on_handle (exn_text : exn -> str) (e : exn) :
  goes_on (Main.handle exn_text e).
Proof.
  unfold Main.handle. destruct (is_ValueError _); [repeat goes_on_step|].
  destruct (class_of e); repeat goes_on_step.
Qed.

Lemma ask_choice_none (rounds : nat) (w w' : console) :
  Main.ask_choice rounds w = (Ok None, w') -> In CtrlC (stdin w).
Proof.
  revert w. induction rounds as [|rounds IH]; intros w; [discriminate|].
  cbn [Main.ask_choice]. unfold iobind at 1, io_try, input.
  change (encodable (lit "Enter choice (1 or 2): ")) with true.
  destruct w as [ins out]. cbn [stdin stdout].
  destruct ins as [|[line|] rest].
  - discriminate.
  - unfold iobind at 1, ret. cbn [stdin stdout].
    destruct (existsb _ Main.choices); [discriminate|].
    unfold iobind, print, write. cbn [stdin stdout].
    intros H. right. exact (IH _ H).
  - intros _. now left.
Qed.

Lemma convert_return (path_exists : str -> bool) (src : str) (w w' : console) :
  Main.convert path_exists src w = (Ok Main.Return, w') -> In CtrlC (stdin w).
Proof.
  unfold Main.convert.
  destruct (Str.startswith (lit "vless://") src).
  { intros H. exfalso. revert H.
    match goal with
    | |- ?m w = _ -> _ =>
        assert (G : goes_on m) by repeat goes_on_step
    end.
    intros H. apply G in H. discriminate H. }
  destruct (Str.startswith (lit "vpn://") src).
  - unfold iobind at 1 2 3 4, print, write. cbn [stdin stdout].
    destruct (Main.ask_choice _ _) as [[[choice|]|e|y] w1] eqn:A; try discriminate.
    + intros H. exfalso. revert H.
      match goal with
      | |- ?m w1 = _ -> _ =>
          assert (G : goes_on m)
      end.
      { apply goes_on_bind. intros config. apply goes_on_bind. intros _.
        destruct (str_eqb choice (lit "1")); repeat goes_on_step. }
      intros H. apply G in H. discriminate H.
    + intros _. apply ask_choice_none in A. exact A.
  - intros H. exfalso. revert H.
    match goal with
    | |- ?m w = _ -> _ =>
        assert (G : goes_on m) by repeat goes_on_step
    end.
    intros H. apply G in H. discriminate H.
Qed.

Section Return.

Variable exn_text : exn -> str.
Variable path_exists : str -> bool.

(** X21.  The loop returns without an exception only when the user asked
    for it: among the events it was given there is an interrupt or one of the
    exit words.  On an input that holds neither, it never returns normally
    -- the run ends with the [EOFError] of the exhausted input, if not
    earlier with the [SystemExit] of [to_vless_url]. *)
Theorem returns_only_on_request (w w' : console) :
  Main.session exn_text path_exists w = (Ok tt, w') ->
  exists ev, In ev (stdin w) /\ leaves ev.
Proof.
  unfold Main.session. generalize (S (List.length (stdin w))). intros n.
  revert w. induction n as [|n IH]; intros w; [discriminate|].
  rewrite loop_S. destruct w as [ins out]. destruct ins as [|[line|] rest].
  - discriminate.
  - rewrite round_line. cbv zeta.
    destruct (Main.lower_text (Str.strip line)) as [low|e|y] eqn:L;
      try discriminate.
    destruct (existsb (str_eqb low) Main.exit_words) eqn:W.
    + intros _. exists (Line line). split; [now left|]. exists low.
      split; [exact L|]. apply existsb_exists in W as (x & Hx & E).
      apply str_eqb_eq in E. now subst.
    + assert (G : forall w1, consumes {| stdin := rest; stdout := asked out |} w1 ->
                  Main.loop exn_text path_exists n w1 = (Ok tt, w') ->
                  exists ev, In ev (Line line :: rest) /\ leaves ev).
      { intros w1 [used U] H. destruct (IH _ H) as (ev & Hin & Hl).
        exists ev. split; [|exact Hl]. right. cbn [stdin] in U. rewrite U.
        apply in_or_app. now right. }
      destruct (Str.strip line) as [|c src].
      * unfold iobind, print, write. cbn [stdin stdout]. apply G. now exists [].
      * unfold iobind at 1.
        pose proof (steady_try _ is_Exception _
                      (steady_convert path_exists (c :: src))
                      (steady_handle exn_text)
                      {| stdin := rest; stdout := asked out |}) as St.
        destruct (io_try _ _ _ _) as [[[|]|e|y] w1] eqn:T; try discriminate.
        -- apply G. exact St.
        -- intros _. exists CtrlC. split; [|exact I]. right.
           revert T. unfold io_try.
           destruct (Main.convert path_exists (c :: src) _) as [[[|]|e|y] w2] eqn:C;
             try discriminate.
           ++ intros _. now apply convert_return in C.
           ++ destruct (is_Exception (class_of e)); [|discriminate].
              intros H. apply goes_on_handle in H. discriminate H.
  - intros _. exists CtrlC. split; [now left | exact I].
Qed.

End Return.

Lemma leaving_the_loop_witness :
  Main.lower_text (Str.strip (lit " QUIT ")) = Ok (lit "quit")
  /\ In (lit "quit") Main.exit_words
  /\ Main.session no_text no_files
       {| stdin := [Line (lit " QUIT "); Line (lit "never read")]; stdout := [] |}
     = (Ok tt, {| stdin := [Line (lit "never read")];
                  stdout := asked [] ++ [line_of (lit "Goodbye!")] |}).
Proof.
  assert (L : Main.lower_text (Str.strip (lit " QUIT ")) = Ok (lit "quit"))
    by reflexivity.
  assert (W : In (lit "quit") Main.exit_words) by (right; now left).
  split; [exact L|]. split; [exact W|].
  exact (proj1 (leaving_the_loop no_text no_files _ _) _ _ L W).
Defined.

Lemma blank_line_asks_again_witness :
  Str.strip (lit "   ") = []
  /\ Main.session no_text no_files
       {| stdin := [Line (lit "   "); CtrlC]; stdout := [] |}
     = Main.session no_text no_files
         {| stdin := [CtrlC];
            stdout := asked [] ++ [line_of (lit "Empty input. Please try again.")] |}.
Proof.
  assert (E : Str.strip (lit "   ") = []) by reflexivity.
  split; [exact E|]. exact (blank_line_asks_again no_text no_files _ _ _ E).
Defined.

Lemma vless_line_witness :
  let e := Exn TypeError (Lib "int() argument must be a string, a bytes-like object or a real number, not 'NoneType'") in
  Str.startswith (lit "vless://") (Str.strip (lit "vless://u@h")) = true
  /\ forallb (fun c => c <? 256) (Str.strip (lit "vless://u@h")) = true
  /\ from_vless_url (Str.strip (lit "vless://u@h")) = Raise e
  /\ Main.session no_text no_files
       {| stdin := [Line (lit "vless://u@h")]; stdout := [] |}
     = Main.session no_text no_files
         {| stdin := [];
            stdout := asked [] ++ [line_of (lit "Error: " ++ no_text e)] |}.
Proof.
  cbv zeta.
  assert (S : Str.startswith (lit "vless://") (Str.strip (lit "vless://u@h")) = true)
    by reflexivity.
  assert (B : forallb (fun c => c <? 256) (Str.strip (lit "vless://u@h")) = true)
    by reflexivity.
  assert (H : from_vless_url (Str.strip (lit "vless://u@h"))
              = Raise (Exn TypeError (Lib "int() argument must be a string, a bytes-like object or a real number, not 'NoneType'")))
    by (vm_compute; reflexivity).
  split; [exact S|]. split; [exact B|]. split; [exact H|].
  exact (proj1 (vless_line no_text no_files _ [] [] S B) _ H eq_refl).
Defined.


Lemma inline_json_exits_witness :
  exists cause,
    is_Exception (class_of cause) = true
    /\ Main.session no_text no_files
         {| stdin := [Line (lit "{}"); Line (lit "never read")]; stdout := [] |}
       = (Raise (Exn SystemExit (Fmt (lit "Error generating VLESS URL: ") cause)),
          {| stdin := [Line (lit "never read")];
             stdout := asked [] ++ [line_of Main.separator] |}).
Proof.
  apply (inline_json_exits no_text no_files (lit "{}") _ [] (lit "{}") (JDict []));
    reflexivity.
Defined.

Lemma vpn_line_witness :
  let e := Exn ValueError
             (Fmt (lit "JSON decode error: ")
                  (Exn JSONDecodeError (Lib "Expecting value"))) in
  decode_vpn_url (Str.strip (lit "vpn://*")) = Raise e
  /\ Main.session no_text no_files
       {| stdin := [Line (lit "vpn://*"); Line (lit "3"); Line (lit " 2 ")];
          stdout := [] |}
     = Main.session no_text no_files
         {| stdin := [];
            stdout := asked [] ++ menu [lit "3"]
                      ++ [line_of (lit "Error: " ++ no_text e)] |}.
Proof.
  cbv zeta.
  assert (H : decode_vpn_url (Str.strip (lit "vpn://*"))
              = Raise (Exn ValueError
                         (Fmt (lit "JSON decode error: ")
                              (Exn JSONDecodeError (Lib "Expecting value")))))
    by (vm_compute; reflexivity).
  split; [exact H|].
  refine (proj1 (vpn_line no_text no_files (lit "vpn://*") (lit " 2 ") [lit "3"]
                          [] [] _ _ _ _) _ H eq_refl).
  - reflexivity.
  - reflexivity.
  - constructor; [|constructor]. intros [E|[E|[]]]; discriminate E.
  - right. now left.
Defined.

Lemma returns_only_on_request_witness :
  Main.session no_text no_files {| stdin := [Line []; Line (lit "q")]; stdout := [] |}
  = (Ok tt, {| stdin := [];
               stdout := asked (asked [] ++ [line_of (lit "Empty input. Please try again.")])
                         ++ [line_of (lit "Goodbye!")] |})
  /\ exists ev, In ev [Line []; Line (lit "q")] /\ leaves ev.
Proof.
  assert (H : Main.session no_text no_files
                {| stdin := [Line []; Line (lit "q")]; stdout := [] |}
              = (Ok tt, {| stdin := [];
                           stdout := asked (asked [] ++ [line_of (lit "Empty input. Please try again.")])
                                     ++ [line_of (lit "Goodbye!")] |}))
    by (vm_compute; reflexivity).
  split; [exact H|].
  exact (returns_only_on_request no_text no_files _ _ H).
Defined.
